(** * LinkCord: the bridge routing engine

    A shallow embedding of the Go packages [types], [models], [database]
    and [bridge]: the connection graph kept by [BridgeCore], its
    reconstruction from the SQLite store, the add/remove operations and the
    message fan-out; and of what feeds the core: the message handlers of
    packages [discord] and [telegram], the configuration of package
    [config] and the closures with which [main] wires the handlers to the
    core.

    Conventions of the embedding.
    - Go [string] is [string], a sequence of bytes; Go [int], [int64] and
      [time.Time] are [Z].  The counters of the statistics stay far from
      the bounds of [int]; where a number is read from a string the bounds
      of [int64] are written out; a time is counted in nanoseconds since
      the epoch where its [Unix] is taken.
    - A Go [map[K][]V] is a [gmap K (list V)]; a missing key and a nil
      slice are both [None], a non-nil slice of length 0 is [Some []].
    - Go's iteration order over a map is unspecified.  A [for ... range m]
      loop is therefore a function of the sequence in which the entries are
      visited, and the loop's callers quantify over every permutation of
      the map's entries.
    - An [error] is the text of its message; [nil] is [None].
    - Calls that leave the process (the SQL driver, the platform clients)
      are answered by oracles carried in the state, so that every function
      stays executable.  [time.Now()] is the argument [now] of the method
      that reads the clock; the readings of one call are taken to agree,
      except in [database.clocked], where the time stamps a call writes
      are told from those it returns.
    - A [log.Printf] is an event of the method's outcome, next to the calls
      of the adapters' sending methods.
    - A closure, or a value of an interface whose methods change what they
      point to, acts on a state of type [W] that holds all it can reach;
      two holders of the same pointer act on the same part of [W]. *)

From Stdlib Require Import ZArith String Ascii.
From stdpp Require Import gmap strings list fin_maps sorting pretty.

#[local] Open Scope string_scope.
#[local] Open Scope list_scope.
#[local] Open Scope Z_scope.

(** ** Package [types] *)

Module types.

Definition PlatformDiscord : string := "discord".
Definition PlatformTelegram : string := "telegram".

Module BridgeMessage.
Record t : Type := mk {
  ID : string;
  SourcePlatform : string;
  SourceChannelID : string;
  SourceUserID : string;
  Username : string;
  Content : string;
  MessageType : string;
  Timestamp : Z;
  Attachments : list string
}.
End BridgeMessage.

Module BridgeConnection.
Record t : Type := mk {
  ID : string;
  SourcePlatform : string;
  SourceChannelID : string;
  TargetPlatform : string;
  TargetChannelID : string;
  IsActive : bool;
  CreatedAt : Z
}.
End BridgeConnection.

(** The interface [BridgeCore], for an implementation whose methods act on
    a state of type [W], all that they can reach; [Platform] is the type
    of the values of the interface [Platform]. *)
Module BridgeCore.
Record t (W Platform : Type) : Type := mk {
  RegisterPlatform : Platform → W → W;
  AddBridge : string → string → string → string → W → option string * W;
  RemoveBridge : string → string → W → option string * W;
  GetBridges : string → W → list BridgeConnection.t;
  GetPlatformStatus : W → gmap string bool;
  ProcessMessage : BridgeMessage.t → W → option string * W;
  SetUserMapping : string → string → string → W → W
}.
Arguments mk {W Platform}.
Arguments RegisterPlatform {W Platform}.
Arguments AddBridge {W Platform}.
Arguments RemoveBridge {W Platform}.
Arguments GetBridges {W Platform}.
Arguments GetPlatformStatus {W Platform}.
Arguments ProcessMessage {W Platform}.
Arguments SetUserMapping {W Platform}.
End BridgeCore.

End types.

(** ** Package [models] *)

Module models.

Module Room.
Record t : Type := mk {
  ID : Z;
  Name : string;
  CreatedAt : Z;
  UpdatedAt : Z
}.
End Room.

Module RoomMapping.
Record t : Type := mk {
  ID : Z;
  RoomID : Z;
  Platform : string;
  PlatformRoomID : string;
  RoomName : string;
  RoomType : string;
  IsActive : bool;
  CreatedAt : Z;
  UpdatedAt : Z
}.
End RoomMapping.

Module BridgeConfig.
Record t : Type := mk {
  ID : Z;
  RoomID : Z;
  IsActive : bool;
  AllowMedia : bool;
  AllowEdits : bool;
  AllowDeletes : bool;
  FilterWords : string;
  MaxMessageLength : Z;
  CreatedAt : Z;
  UpdatedAt : Z
}.
End BridgeConfig.

End models.

(** ** Helpers shared by the packages *)

(** [m[k] = append(m[k], x)]: the idiom used for all three multimaps of the
    program.  Where the source first replaces a nil entry by
    [make([]T, 0)], the result is the same. *)
Definition append_at `{Countable K} {V : Type}
    (k : K) (x : V) (m : gmap K (list V)) : gmap K (list V) :=
  <[k := default [] (m !! k) ++ [x]]> m.

(** Every value stored in a multimap, entry after entry. *)
Definition elems `{Countable K} {V : Type} (m : gmap K (list V)) : list V :=
  concat (map_to_list m).*2.

(** [for i, x := range l]: the elements paired with their index. *)
Definition enumerate {A : Type} (l : list A) : list (nat * A) :=
  imap (λ i x, (i, x)) l.

(** [append(s[:i], s[i+1:]...)] *)
Definition cut {A : Type} (i : nat) (s : list A) : list A :=
  take i s ++ drop (S i) s.

(** [%d] of an [int]. *)
Definition fmt_d (n : Z) : string := pretty n.

(** ** Package [database] *)

Module database.
Import models.

(** The three tables the core touches, the AUTOINCREMENT counters of
    [sqlite_sequence], and the driver: [issued] counts the statements sent
    so far, [faults n] is the error, if any, with which the driver answers
    the statement number [n], and [scan_faults n] the error, if any, with
    which [rows.Scan] fails on a row of its result.  ([LastInsertId] does
    not fail with this driver.) *)
Record Database : Type := mkDatabase {
  rooms : list Room.t;
  room_mappings : list RoomMapping.t;
  bridge_config : list BridgeConfig.t;
  seq_rooms : Z;
  seq_room_mappings : Z;
  seq_bridge_config : Z;
  issued : nat;
  faults : nat → option string;
  scan_faults : nat → option string
}.

(** Outcome of [QueryRow(...).Scan(...)]. *)
Inductive Scan (A : Type) : Type :=
| Row (a : A)
| ErrNoRows
| ScanErr (e : string).
Arguments Row {A} a.
Arguments ErrNoRows {A}.
Arguments ScanErr {A} e.

Definition sent (d : Database) : Database :=
  mkDatabase (rooms d) (room_mappings d) (bridge_config d)
             (seq_rooms d) (seq_room_mappings d) (seq_bridge_config d)
             (S (issued d)) (faults d) (scan_faults d).

Definition with_rooms (rs : list Room.t) (s : Z) (d : Database) : Database :=
  mkDatabase rs (room_mappings d) (bridge_config d)
             s (seq_room_mappings d) (seq_bridge_config d)
             (issued d) (faults d) (scan_faults d).

Definition with_room_mappings (ms : list RoomMapping.t) (s : Z) (d : Database)
  : Database :=
  mkDatabase (rooms d) ms (bridge_config d)
             (seq_rooms d) s (seq_bridge_config d)
             (issued d) (faults d) (scan_faults d).

Definition with_bridge_config (cs : list BridgeConfig.t) (s : Z) (d : Database)
  : Database :=
  mkDatabase (rooms d) (room_mappings d) cs
             (seq_rooms d) (seq_room_mappings d) s
             (issued d) (faults d) (scan_faults d).

(** [d.db.QueryRow(q).Scan(...)] for a query whose first row, if any, is
    [first d]. *)
Definition QueryRow {A : Type} (first : Database → option A) (d : Database)
  : Scan A * Database :=
  match faults d (issued d) with
  | Some e => (ScanErr e, sent d)
  | None =>
      match first d with
      | Some a => (Row a, sent d)
      | None => (ErrNoRows, sent d)
      end
  end.

(** [d.db.Exec(q)] for a statement whose effect on the tables is [run]:
    an error leaves the tables as they were. *)
Definition Exec {A : Type} (run : Database → string + A * Database)
    (d : Database) : (string + A) * Database :=
  match faults d (issued d) with
  | Some e => (inl e, sent d)
  | None =>
      match run (sent d) with
      | inl e => (inl e, sent d)
      | inr (a, d') => (inr a, d')
      end
  end.

(** [d.db.Query(q)]; [all d] are the rows of its result. *)
Definition Query {A : Type} (all : Database → list A) (d : Database)
  : (string + list A) * Database :=
  match faults d (issued d) with
  | Some e => (inl e, sent d)
  | None => (inr (all d), sent d)
  end.

(** [SELECT ... FROM rooms WHERE name = ?] *)
Definition select_room (name : string) (d : Database) : option Room.t :=
  snd <$> list_find (λ r, Room.Name r = name) (rooms d).

(** [INSERT INTO rooms (name, created_at, updated_at) VALUES (?, ?, ?)] *)
Definition insert_room (name : string) (now : Z) (d : Database)
  : string + Z * Database :=
  let id := seq_rooms d + 1 in
  inr (id, with_rooms (rooms d ++ [Room.mk id name now now]) id d).

Definition CreateOrGetRoom (name : string) (now : Z) (d : Database)
  : (string + Room.t) * Database :=
  match QueryRow (select_room name) d with
  | (Row room, d) => (inr room, d)
  | (ScanErr e, d) => (inl ("failed to query room: " +:+ e), d)
  | (ErrNoRows, d) =>
      match Exec (insert_room name now) d with
      | (inl e, d) => (inl ("failed to create room: " +:+ e), d)
      | (inr id, d) => (inr (Room.mk id name now now), d)
      end
  end.

(** [SELECT ... FROM room_mappings
     WHERE room_id = ? AND platform = ? AND platform_room_id = ?] *)
Definition select_room_mapping (roomID : Z) (platform platformRoomID : string)
    (d : Database) : option RoomMapping.t :=
  snd <$> list_find
    (λ m, RoomMapping.RoomID m = roomID
          ∧ RoomMapping.Platform m = platform
          ∧ RoomMapping.PlatformRoomID m = platformRoomID)
    (room_mappings d).

(** [UPDATE room_mappings
     SET room_name = ?, room_type = ?, is_active = 1, updated_at = ?
     WHERE id = ?] *)
Definition update_room_mapping (roomName roomType : string) (now id : Z)
    (d : Database) : string + unit * Database :=
  let upd (m : RoomMapping.t) :=
    if decide (RoomMapping.ID m = id)
    then RoomMapping.mk (RoomMapping.ID m) (RoomMapping.RoomID m)
           (RoomMapping.Platform m) (RoomMapping.PlatformRoomID m)
           roomName roomType true (RoomMapping.CreatedAt m) now
    else m in
  inr ((), with_room_mappings (upd <$> room_mappings d) (seq_room_mappings d) d).

(** [INSERT INTO room_mappings (...) VALUES (?, ?, ?, ?, ?, 1, ?, ?)],
    refused by [UNIQUE(platform, platform_room_id)] when the channel
    already has a row. *)
Definition insert_room_mapping (roomID : Z)
    (platform platformRoomID roomName roomType : string) (now : Z)
    (d : Database) : string + Z * Database :=
  if decide (Exists (λ m, RoomMapping.Platform m = platform
                          ∧ RoomMapping.PlatformRoomID m = platformRoomID)
                    (room_mappings d))
  then inl "UNIQUE constraint failed: room_mappings.platform, room_mappings.platform_room_id"
  else
    let id := seq_room_mappings d + 1 in
    inr (id, with_room_mappings
               (room_mappings d ++
                  [RoomMapping.mk id roomID platform platformRoomID
                                  roomName roomType true now now])
               id d).

Definition CreateOrGetRoomMapping (roomID : Z)
    (platform platformRoomID roomName roomType : string) (now : Z)
    (d : Database) : (string + RoomMapping.t) * Database :=
  match QueryRow (select_room_mapping roomID platform platformRoomID) d with
  | (Row mapping, d) =>
      match Exec (update_room_mapping roomName roomType now
                    (RoomMapping.ID mapping)) d with
      | (inl e, d) => (inl ("failed to update room mapping: " +:+ e), d)
      | (inr _, d) =>
          (inr (RoomMapping.mk (RoomMapping.ID mapping)
                  (RoomMapping.RoomID mapping) (RoomMapping.Platform mapping)
                  (RoomMapping.PlatformRoomID mapping) roomName roomType true
                  (RoomMapping.CreatedAt mapping) now), d)
      end
  | (ScanErr e, d) => (inl ("failed to query room mapping: " +:+ e), d)
  | (ErrNoRows, d) =>
      match Exec (insert_room_mapping roomID platform platformRoomID
                    roomName roomType now) d with
      | (inl e, d) => (inl ("failed to create room mapping: " +:+ e), d)
      | (inr id, d) =>
          (inr (RoomMapping.mk id roomID platform platformRoomID
                  roomName roomType true now now), d)
      end
  end.

(** [SELECT ... FROM room_mappings
     WHERE platform = ? AND platform_room_id = ? AND is_active = 1] *)
Definition select_active_mapping (platform platformRoomID : string)
    (d : Database) : option RoomMapping.t :=
  snd <$> list_find
    (λ m, RoomMapping.Platform m = platform
          ∧ RoomMapping.PlatformRoomID m = platformRoomID
          ∧ RoomMapping.IsActive m = true)
    (room_mappings d).

(** The error of [Scan] is returned as it is; for [sql.ErrNoRows] that is
    the text below. *)
Definition GetRoomMappingByPlatformRoom (platform platformRoomID : string)
    (d : Database) : (string + RoomMapping.t) * Database :=
  match QueryRow (select_active_mapping platform platformRoomID) d with
  | (Row mapping, d) => (inr mapping, d)
  | (ErrNoRows, d) => (inl "sql: no rows in result set", d)
  | (ScanErr e, d) => (inl e, d)
  end.

(** [UPDATE room_mappings SET is_active = 0, updated_at = ?
     WHERE room_id = ? AND platform = ?] *)
Definition deactivate_room_mapping (roomID : Z) (platform : string) (now : Z)
    (d : Database) : string + unit * Database :=
  let upd (m : RoomMapping.t) :=
    if decide (RoomMapping.RoomID m = roomID ∧ RoomMapping.Platform m = platform)
    then RoomMapping.mk (RoomMapping.ID m) (RoomMapping.RoomID m)
           (RoomMapping.Platform m) (RoomMapping.PlatformRoomID m)
           (RoomMapping.RoomName m) (RoomMapping.RoomType m) false
           (RoomMapping.CreatedAt m) now
    else m in
  inr ((), with_room_mappings (upd <$> room_mappings d) (seq_room_mappings d) d).

Definition RemoveRoomMapping (roomID : Z) (platform : string) (now : Z)
    (d : Database) : option string * Database :=
  match Exec (deactivate_room_mapping roomID platform now) d with
  | (inl e, d) => (Some e, d)
  | (inr _, d) => (None, d)
  end.

(** [SELECT ... FROM bridge_config WHERE room_id = ?] *)
Definition select_bridge_config (roomID : Z) (d : Database)
  : option BridgeConfig.t :=
  snd <$> list_find (λ c, BridgeConfig.RoomID c = roomID) (bridge_config d).

(** [INSERT INTO bridge_config (...) VALUES (?, 1, 1, 1, 1, '[]', 4000, ?, ?)],
    refused by [UNIQUE(room_id)] when the room already has a row. *)
Definition insert_bridge_config (roomID now : Z) (d : Database)
  : string + Z * Database :=
  if decide (Exists (λ c, BridgeConfig.RoomID c = roomID) (bridge_config d))
  then inl "UNIQUE constraint failed: bridge_config.room_id"
  else
    let id := seq_bridge_config d + 1 in
    inr (id, with_bridge_config
               (bridge_config d ++
                  [BridgeConfig.mk id roomID true true true true "[]" 4000 now now])
               id d).

Definition CreateOrGetBridgeConfig (roomID now : Z) (d : Database)
  : (string + BridgeConfig.t) * Database :=
  match QueryRow (select_bridge_config roomID) d with
  | (Row config, d) => (inr config, d)
  | (ScanErr e, d) => (inl ("failed to query bridge config: " +:+ e), d)
  | (ErrNoRows, d) =>
      match Exec (insert_bridge_config roomID now) d with
      | (inl e, d) => (inl ("failed to create bridge config: " +:+ e), d)
      | (inr id, d) =>
          (inr (BridgeConfig.mk id roomID true true true true "[]" 4000 now now), d)
      end
  end.

(** [ORDER BY rm.room_id, rm.platform] *)
Definition row_leb (a b : RoomMapping.t) : bool :=
  (RoomMapping.RoomID a <? RoomMapping.RoomID b)
  || ((RoomMapping.RoomID a =? RoomMapping.RoomID b)
      && String.leb (RoomMapping.Platform a) (RoomMapping.Platform b)).

Definition row_le (a b : RoomMapping.t) : Prop := row_leb a b = true.

#[global] Instance row_le_dec a b : Decision (row_le a b).
Proof. unfold row_le. apply _. Defined.

(** The columns the query selects, as [rows.Scan] stores them in a fresh
    [models.RoomMapping]: [ID] keeps its zero value and [IsActive] is set
    by the code. *)
Definition scanned (m : RoomMapping.t) : RoomMapping.t :=
  RoomMapping.mk 0 (RoomMapping.RoomID m) (RoomMapping.Platform m)
    (RoomMapping.PlatformRoomID m) (RoomMapping.RoomName m)
    (RoomMapping.RoomType m) true (RoomMapping.CreatedAt m)
    (RoomMapping.UpdatedAt m).

(** [FROM room_mappings rm INNER JOIN bridge_config bc
     ON rm.room_id = bc.room_id
     WHERE rm.is_active = 1 AND bc.is_active = 1] *)
Definition joined (d : Database) : list RoomMapping.t :=
  rm ← room_mappings d;
  bc ← bridge_config d;
  if decide (RoomMapping.RoomID rm = BridgeConfig.RoomID bc
             ∧ RoomMapping.IsActive rm = true
             ∧ BridgeConfig.IsActive bc = true)
  then [scanned rm] else [].

(** The engine is free in the order of rows that [ORDER BY] leaves tied:
    [order_by] is the order it picks. *)
Definition GetAllActiveBridges
    (order_by : list RoomMapping.t → list RoomMapping.t) (d : Database)
  : (string + gmap string (list RoomMapping.t)) * Database :=
  match Query (λ d, order_by (joined d)) d with
  | (inl e, d') => (inl ("failed to query active bridges: " +:+ e), d')
  | (inr rows, d') =>
      match rows, scan_faults d (issued d) with
      | _ :: _, Some e => (inl ("failed to scan bridge mapping: " +:+ e), d')
      | _, _ =>
          (inr (foldl (λ bridges mapping,
                         append_at (RoomMapping.PlatformRoomID mapping)
                                   mapping bridges)
                      ∅ rows), d')
      end
  end.

(** [SELECT ... FROM room_mappings WHERE room_id = ? AND is_active = 1] *)
Definition active_room_mappings (roomID : Z) (d : Database)
  : list RoomMapping.t :=
  filter (λ m, RoomMapping.RoomID m = roomID ∧ RoomMapping.IsActive m = true)
         (room_mappings d).

(** The query has no [ORDER BY]: [order] is the order in which the engine
    returns the rows. *)
Definition GetActiveRoomMappings
    (order : list RoomMapping.t → list RoomMapping.t) (roomID : Z)
    (d : Database) : (string + list RoomMapping.t) * Database :=
  match Query (λ d, order (active_room_mappings roomID d)) d with
  | (inl e, d') => (inl ("failed to query room mappings: " +:+ e), d')
  | (inr rows, d') =>
      match rows, scan_faults d (issued d) with
      | _ :: _, Some e => (inl ("failed to scan room mapping: " +:+ e), d')
      | _, _ => (inr rows, d')
      end
  end.

(** *** The readings of the clock

    [CreateOrGetRoom], [CreateOrGetRoomMapping] and
    [CreateOrGetBridgeConfig] read [time.Now()] once for every time stamp
    they write and once more for every time stamp of the struct they
    return.  In this module [clock k] is the [k]-th reading a call makes,
    counted from 0 in the order in which the call makes them: the
    arguments of a statement from left to right, then the fields of the
    struct from top to bottom.  The definitions above are these at a clock
    that stands still. *)
Module clocked.

(** [INSERT INTO rooms (name, created_at, updated_at) VALUES (?, ?, ?)] *)
Definition insert_room (name : string) (createdAt updatedAt : Z) (d : Database)
  : string + Z * Database :=
  let id := seq_rooms d + 1 in
  inr (id, with_rooms (rooms d ++ [Room.mk id name createdAt updatedAt]) id d).

Definition CreateOrGetRoom (name : string) (clock : nat → Z) (d : Database)
  : (string + Room.t) * Database :=
  match QueryRow (select_room name) d with
  | (Row room, d) => (inr room, d)
  | (ScanErr e, d) => (inl ("failed to query room: " +:+ e), d)
  | (ErrNoRows, d) =>
      match Exec (insert_room name (clock 0%nat) (clock 1%nat)) d with
      | (inl e, d) => (inl ("failed to create room: " +:+ e), d)
      | (inr id, d) => (inr (Room.mk id name (clock 2%nat) (clock 3%nat)), d)
      end
  end.

(** [INSERT INTO room_mappings (...) VALUES (?, ?, ?, ?, ?, 1, ?, ?)] *)
Definition insert_room_mapping (roomID : Z)
    (platform platformRoomID roomName roomType : string)
    (createdAt updatedAt : Z) (d : Database) : string + Z * Database :=
  if decide (Exists (λ m, RoomMapping.Platform m = platform
                          ∧ RoomMapping.PlatformRoomID m = platformRoomID)
                    (room_mappings d))
  then inl "UNIQUE constraint failed: room_mappings.platform, room_mappings.platform_room_id"
  else
    let id := seq_room_mappings d + 1 in
    inr (id, with_room_mappings
               (room_mappings d ++
                  [RoomMapping.mk id roomID platform platformRoomID
                                  roomName roomType true createdAt updatedAt])
               id d).

(** On a hit the row is updated with one reading and the scanned struct
    takes the next one; [CreatedAt] stays as it was scanned. *)
Definition CreateOrGetRoomMapping (roomID : Z)
    (platform platformRoomID roomName roomType : string) (clock : nat → Z)
    (d : Database) : (string + RoomMapping.t) * Database :=
  match QueryRow (select_room_mapping roomID platform platformRoomID) d with
  | (Row mapping, d) =>
      match Exec (update_room_mapping roomName roomType (clock 0%nat)
                    (RoomMapping.ID mapping)) d with
      | (inl e, d) => (inl ("failed to update room mapping: " +:+ e), d)
      | (inr _, d) =>
          (inr (RoomMapping.mk (RoomMapping.ID mapping)
                  (RoomMapping.RoomID mapping) (RoomMapping.Platform mapping)
                  (RoomMapping.PlatformRoomID mapping) roomName roomType true
                  (RoomMapping.CreatedAt mapping) (clock 1%nat)), d)
      end
  | (ScanErr e, d) => (inl ("failed to query room mapping: " +:+ e), d)
  | (ErrNoRows, d) =>
      match Exec (insert_room_mapping roomID platform platformRoomID
                    roomName roomType (clock 0%nat) (clock 1%nat)) d with
      | (inl e, d) => (inl ("failed to create room mapping: " +:+ e), d)
      | (inr id, d) =>
          (inr (RoomMapping.mk id roomID platform platformRoomID
                  roomName roomType true (clock 2%nat) (clock 3%nat)), d)
      end
  end.

(** [INSERT INTO bridge_config (...) VALUES (?, 1, 1, 1, 1, '[]', 4000, ?, ?)] *)
Definition insert_bridge_config (roomID createdAt updatedAt : Z) (d : Database)
  : string + Z * Database :=
  if decide (Exists (λ c, BridgeConfig.RoomID c = roomID) (bridge_config d))
  then inl "UNIQUE constraint failed: bridge_config.room_id"
  else
    let id := seq_bridge_config d + 1 in
    inr (id, with_bridge_config
               (bridge_config d ++
                  [BridgeConfig.mk id roomID true true true true "[]" 4000
                                   createdAt updatedAt])
               id d).

Definition CreateOrGetBridgeConfig (roomID : Z) (clock : nat → Z) (d : Database)
  : (string + BridgeConfig.t) * Database :=
  match QueryRow (select_bridge_config roomID) d with
  | (Row config, d) => (inr config, d)
  | (ScanErr e, d) => (inl ("failed to query bridge config: " +:+ e), d)
  | (ErrNoRows, d) =>
      match Exec (insert_bridge_config roomID (clock 0%nat) (clock 1%nat)) d with
      | (inl e, d) => (inl ("failed to create bridge config: " +:+ e), d)
      | (inr id, d) =>
          (inr (BridgeConfig.mk id roomID true true true true "[]" 4000
                  (clock 2%nat) (clock 3%nat)), d)
      end
  end.

End clocked.

End database.

(** ** Package [strconv] of the standard library, as the program uses it:
    base 10 and 64 bits *)

Module strconv.

(** The two causes of a [*NumError]. *)
Inductive NumError : Type :=
| ErrSyntax
| ErrRange.

(** The value of a decimal digit. *)
Definition digit (c : ascii) : option Z :=
  let n := Z.of_N (N_of_ascii c) in
  if (48 <=? n) && (n <=? 57) then Some (n - 48) else None.

Definition maxUint64 : Z := 2 ^ 64 - 1.

(** The loop of [ParseUint], [n] being the value read so far: a byte that
    is no digit is a syntax error, a value that leaves [uint64] a range
    error, returned with the largest value. *)
Fixpoint parseDigits (s : string) (n : Z) : Z * option NumError :=
  match s with
  | EmptyString => (n, None)
  | String c rest =>
      match digit c with
      | None => (0, Some ErrSyntax)
      | Some d =>
          if maxUint64 `quot` 10 + 1 <=? n then (maxUint64, Some ErrRange)
          else
            let n1 := n * 10 + d in
            if maxUint64 <? n1 then (maxUint64, Some ErrRange)
            else parseDigits rest n1
      end
  end.

(** [ParseUint(s, 10, 64)] *)
Definition ParseUint (s : string) : Z * option NumError :=
  if decide (s = "") then (0, Some ErrSyntax) else parseDigits s 0.

(** [ParseInt(s, 10, 64)]: the value and the error. *)
Definition ParseInt (s : string) : Z * option NumError :=
  match s with
  | EmptyString => (0, Some ErrSyntax)
  | String c rest =>
      let neg := bool_decide (c = "-"%char) in
      let s := if bool_decide (c = "+"%char) || neg then rest else s in
      match ParseUint s with
      | (_, Some ErrSyntax) => (0, Some ErrSyntax)
      | (un, _) =>
          let cutoff := 2 ^ 63 in
          if negb neg && (cutoff <=? un) then (cutoff - 1, Some ErrRange)
          else if neg && (cutoff <? un) then (- cutoff, Some ErrRange)
          else (if neg then - un else un, None)
      end
  end.

(** [Atoi(s)], on a platform whose [int] has 64 bits: the value and the
    error of [ParseInt(s, 10, 0)]. *)
Definition Atoi (s : string) : Z * option NumError := ParseInt s.

(** [ParseBool(str)] *)
Definition ParseBool (str : string) : bool * option NumError :=
  if bool_decide (str ∈ ["1"; "t"; "T"; "true"; "TRUE"; "True"])
  then (true, None)
  else if bool_decide (str ∈ ["0"; "f"; "F"; "false"; "FALSE"; "False"])
  then (false, None)
  else (false, Some ErrSyntax).

End strconv.

(** ** Packages [discord] and [telegram]: the platform clients

    Of the clients, only what the adapters call.  The network is an oracle:
    the fields that are functions give the outcome of the corresponding
    request.  The message handlers follow the clients. *)

Module discord.

Record Client : Type := mkClient {
  isConnected : bool;
  ChannelMessageSend : string → string → option string;
  GetUserAvatar : string → string → string → string;
  SendWebhookMessage : string → string → string → string → option string
}.

Definition IsConnected (c : Client) : bool := isConnected c.

Definition SendMessage (c : Client) (channelID message : string)
  : option string :=
  if negb (isConnected c) then Some "Discord client is not connected"
  else match ChannelMessageSend c channelID message with
       | Some e => Some ("error sending message to Discord: " +:+ e)
       | None => None
       end.


(** *** [MessageHandler] *)

(** What the handler reads of a [discordgo.MessageCreate]. *)
Module Message.
Record t : Type := mk {
  AuthorID : string;
  AuthorUsername : string;
  AuthorGlobalName : string;
  AuthorBot : bool;
  WebhookID : string;
  ChannelID : string;
  Content : string
}.
End Message.

(** What it reads of a [discordgo.Member]. *)
Module Member.
Record t : Type := mk {
  UserID : string;
  Roles : list string;
  Permissions : Z
}.
End Member.

(** [discordgo.PermissionAdministrator] *)
Definition PermissionAdministrator : Z := 8.

(** The handler's [bridgeFunc] is a closure: it acts on a state of type
    [W], all that the closure can reach, and returns an [error]. *)
Definition BridgeFunc (W : Type) : Type :=
  string → string → string → string → string → W → option string * W.

Record MessageHandler (W Platform : Type) : Type := mkMessageHandler {
  client : Client;
  bridgeFunc : option (BridgeFunc W);
  adminUsers : list string;
  adminRoles : list string;
  bridgedChannels : gmap string (gmap string string);
  bridgeCore : option (types.BridgeCore.t W Platform)
}.
Arguments mkMessageHandler {W Platform}.
Arguments client {W Platform}.
Arguments bridgeFunc {W Platform}.
Arguments adminUsers {W Platform}.
Arguments adminRoles {W Platform}.
Arguments bridgedChannels {W Platform}.
Arguments bridgeCore {W Platform}.

(** What [onMessageCreate] logs and sends. *)
Inductive HandlerEvent : Type :=
| IgnoringWebhook (username channelID : string)
| IgnoringBot (username channelID : string)
| ProcessingMessage (username channelID content : string)
| BridgeFailed (err : string)
| CallSendMessage (channelID message : string) (err : option string)
| SendErrorFailed (err : string)
| AdminUsersUpdated (adminUsers : list string)
| AdminRolesUpdated (adminRoles : list string)
| BridgeAdded (channelID platform targetID : string)
| BridgeRemoved (platform channelID : string).

Definition NewMessageHandler {W Platform : Type} (client : Client)
    (bridgeFunc : option (BridgeFunc W)) : MessageHandler W Platform :=
  mkMessageHandler client bridgeFunc [] [] ∅ None.

Definition SetBridgeCore {W Platform : Type}
    (bc : types.BridgeCore.t W Platform) (h : MessageHandler W Platform)
  : MessageHandler W Platform :=
  mkMessageHandler (client h) (bridgeFunc h) (adminUsers h) (adminRoles h)
    (bridgedChannels h) (Some bc).

Definition SetAdminUsers {W Platform : Type} (newAdminUsers : list string)
    (h : MessageHandler W Platform)
  : MessageHandler W Platform * list HandlerEvent :=
  (mkMessageHandler (client h) (bridgeFunc h) newAdminUsers (adminRoles h)
     (bridgedChannels h) (bridgeCore h),
   [AdminUsersUpdated newAdminUsers]).

Definition SetAdminRoles {W Platform : Type} (newAdminRoles : list string)
    (h : MessageHandler W Platform)
  : MessageHandler W Platform * list HandlerEvent :=
  (mkMessageHandler (client h) (bridgeFunc h) (adminUsers h) newAdminRoles
     (bridgedChannels h) (bridgeCore h),
   [AdminRolesUpdated newAdminRoles]).

Definition sendErrorMessage {W Platform : Type} (h : MessageHandler W Platform)
    (channelID errorMsg : string) : list HandlerEvent :=
  let message := "❌ Error: " +:+ errorMsg in
  let e := SendMessage (client h) channelID message in
  CallSendMessage channelID message e ::
  match e with
  | Some e => [SendErrorFailed e]
  | None => []
  end.

(** The call of [h.bridgeFunc] and the handling of its error, as both
    branches of [onMessageCreate] do it. *)
Definition bridgeIt {W Platform : Type} (h : MessageHandler W Platform)
    (f : BridgeFunc W) (m : Message.t) (w : W) : list HandlerEvent * W :=
  match f "discord" (Message.ChannelID m) (Message.AuthorID m) "text"
          (Message.Content m) w with
  | (Some e, w) =>
      (BridgeFailed e
         :: sendErrorMessage h (Message.ChannelID m)
              "Failed to bridge message to other platforms", w)
  | (None, w) => ([], w)
  end.

(** [selfID] is [s.State.User.ID].  The result is [None] when the handler
    panics: it calls a [bridgeFunc] that is [nil]. *)
Definition onMessageCreate {W Platform : Type} (selfID : string)
    (m : Message.t) (h : MessageHandler W Platform) (w : W)
  : option (list HandlerEvent * W) :=
  if decide (Message.AuthorID m = selfID) then Some ([], w)
  else if negb (bool_decide (Message.WebhookID m = "")) then
    Some ([IgnoringWebhook (Message.AuthorUsername m) (Message.ChannelID m)], w)
  else if Message.AuthorBot m then
    Some ([IgnoringBot (Message.AuthorUsername m) (Message.ChannelID m)], w)
  else
    let logged := [ProcessingMessage (Message.AuthorUsername m)
                     (Message.ChannelID m) (Message.Content m)] in
    let w :=
      match bridgeCore h with
      | Some bc =>
          let username := Message.AuthorUsername m in
          let username :=
            if decide (username = "") then Message.AuthorGlobalName m
            else username in
          let username :=
            if decide (username = "") then "User" +:+ Message.AuthorID m
            else username in
          types.BridgeCore.SetUserMapping bc "discord" (Message.AuthorID m)
            username w
      | None => w
      end in
    let fallback :=
      match bridgedChannels h !! Message.ChannelID m with
      | Some bridges =>
          if (0 <? size bridges)%nat then
            match bridgeFunc h with
            | Some f => let '(sent, w) := bridgeIt h f m w in
                        Some (logged ++ sent, w)
            | None => Some (logged, w)
            end
          else Some (logged, w)
      | None => Some (logged, w)
      end in
    match bridgeCore h with
    | Some bc =>
        let bridges := types.BridgeCore.GetBridges bc (Message.ChannelID m) w in
        if (0 <? length bridges)%nat then
          match bridgeFunc h with
          | Some f => let '(sent, w) := bridgeIt h f m w in
                      Some (logged ++ sent, w)
          | None => None
          end
        else fallback
    | None => fallback
    end.

Definition isAdmin {W Platform : Type} (h : MessageHandler W Platform)
    (member : option Member.t) : bool :=
  match member with
  | None => false
  | Some member =>
      if existsb (λ adminID, bool_decide (Member.UserID member = adminID))
                 (adminUsers h) then true
      else if existsb (λ userRole,
                         existsb (λ adminRole, bool_decide (userRole = adminRole))
                                 (adminRoles h))
                      (Member.Roles member) then true
      else if negb (Z.land (Member.Permissions member) PermissionAdministrator
                    =? 0) then true
      else false
  end.

Definition GetBridgedChannels {W Platform : Type}
    (h : MessageHandler W Platform) : gmap string (gmap string string) :=
  bridgedChannels h.

Definition with_bridgedChannels {W Platform : Type}
    (channels : gmap string (gmap string string))
    (h : MessageHandler W Platform) : MessageHandler W Platform :=
  mkMessageHandler (client h) (bridgeFunc h) (adminUsers h) (adminRoles h)
    channels (bridgeCore h).

(** The handler's own [AddBridge] and [RemoveBridge], on [bridgedChannels]. *)
Definition AddBridge {W Platform : Type} (channelID platform targetID : string)
    (h : MessageHandler W Platform)
  : MessageHandler W Platform * list HandlerEvent :=
  let channels :=
    match bridgedChannels h !! channelID with
    | None => <[channelID := ∅]> (bridgedChannels h)
    | Some _ => bridgedChannels h
    end in
  (with_bridgedChannels
     (<[channelID := <[platform := targetID]> (default ∅ (channels !! channelID))]>
        channels)
     h,
   [BridgeAdded channelID platform targetID]).

Definition RemoveBridge {W Platform : Type} (channelID platform : string)
    (h : MessageHandler W Platform)
  : MessageHandler W Platform * list HandlerEvent :=
  match bridgedChannels h !! channelID with
  | Some bridges =>
      let bridges := delete platform bridges in
      (if decide (size bridges = 0%nat)
       then with_bridgedChannels (delete channelID (bridgedChannels h)) h
       else with_bridgedChannels (<[channelID := bridges]> (bridgedChannels h)) h,
       [BridgeRemoved platform channelID])
  | None => (h, [])
  end.

End discord.

Module telegram.

Record Client : Type := mkClient {
  isRunning : bool;
  SendMessage : string → string → option string
}.

Definition IsRunning (c : Client) : bool := isRunning c.


(** *** The display names the client keeps *)

(** The package variable [userMappings] is the argument [userMappings] of
    the two methods that use it. *)
Definition storeUserMapping (userID username : string)
    (userMappings : gmap string string) : gmap string string :=
  if negb (bool_decide (username = "")) && negb (bool_decide (userID = ""))
  then <[userID := username]> userMappings
  else userMappings.

Definition getUserDisplayName (userID : string)
    (userMappings : gmap string string) : string :=
  match userMappings !! userID with
  | Some displayName => displayName
  | None => "User" +:+ userID
  end.

Definition GetUserDisplayName (userID : string)
    (userMappings : gmap string string) : string :=
  getUserDisplayName userID userMappings.

(** *** [MessageHandler] *)

(** [strings.HasPrefix] *)
Definition HasPrefix (s prefix : string) : bool := String.prefix prefix s.

(** The handler's [bridgeFunc] is a closure: it acts on a state of type
    [W], all that the closure can reach, and returns an [error]. *)
Definition BridgeFunc (W : Type) : Type :=
  string → string → string → string → string → W → option string * W.

Record MessageHandler (W : Type) : Type := mkMessageHandler {
  client : Client;
  bridgeFunc : option (BridgeFunc W);
  allowedChats : list Z
}.
Arguments mkMessageHandler {W} client bridgeFunc allowedChats.
Arguments client {W} m.
Arguments bridgeFunc {W} m.
Arguments allowedChats {W} m.

(** One constructor per [log.Printf] site of the handler. *)
Inductive HandlerLine : Type :=
| ProcessingMessage (userID chatID content : string)
| UnauthorizedChat (chatIDInt : Z)
| SkippingCommand (content : string)
| BridgeFailed (err : string)
| AllowedChatsUpdated (allowedChats : list Z)
| AllowedChatAdded (chatID : Z)
| AllowedChatRemoved (chatID : Z).

Definition NewMessageHandler {W : Type} (client : Client)
    (bridgeFunc : option (BridgeFunc W)) : MessageHandler W :=
  mkMessageHandler client bridgeFunc [].

Definition isChatAllowed {W : Type} (h : MessageHandler W) (chatID : Z)
  : bool :=
  if decide (length (allowedChats h) = 0%nat) then true
  else existsb (λ allowedID, bool_decide (allowedID = chatID)) (allowedChats h).

(** What the handler logs, the [error] it returns and the state the
    closure leaves. *)
Definition HandleMessage {W : Type} (h : MessageHandler W)
    (platform chatID userID messageType content : string) (w : W)
  : list HandlerLine * option string * W :=
  let logged := [ProcessingMessage userID chatID content] in
  match strconv.ParseInt chatID with
  | (_, Some _) => (logged, None, w)
  | (chatIDInt, None) =>
      if (0 <? length (allowedChats h))%nat && negb (isChatAllowed h chatIDInt)
      then (logged ++ [UnauthorizedChat chatIDInt], None, w)
      else if HasPrefix content "/"
      then (logged ++ [SkippingCommand content], None, w)
      else
        match bridgeFunc h with
        | Some f =>
            match f "telegram" chatID userID messageType content w with
            | (Some e, w) => (logged ++ [BridgeFailed e], Some e, w)
            | (None, w) => (logged, None, w)
            end
        | None => (logged, None, w)
        end
  end.

Definition SetAllowedChats {W : Type} (newAllowedChats : list Z)
    (h : MessageHandler W) : MessageHandler W * list HandlerLine :=
  (mkMessageHandler (client h) (bridgeFunc h) newAllowedChats,
   [AllowedChatsUpdated newAllowedChats]).

Definition AddAllowedChat {W : Type} (chatID : Z) (h : MessageHandler W)
  : MessageHandler W * list HandlerLine :=
  if existsb (λ existing, bool_decide (existing = chatID)) (allowedChats h)
  then (h, [])
  else (mkMessageHandler (client h) (bridgeFunc h) (allowedChats h ++ [chatID]),
        [AllowedChatAdded chatID]).

Definition RemoveAllowedChat {W : Type} (chatID : Z) (h : MessageHandler W)
  : MessageHandler W * list HandlerLine :=
  match list_find (λ existing, existing = chatID) (allowedChats h) with
  | Some (i, _) =>
      (mkMessageHandler (client h) (bridgeFunc h) (cut i (allowedChats h)),
       [AllowedChatRemoved chatID])
  | None => (h, [])
  end.

End telegram.

(** ** Package [bridge] *)

Module bridge.
Import types models.

Definition HasPrefix (s prefix : string) : bool := String.prefix prefix s.

(** [s[1:]] for a non-empty [s]. *)
Definition tail1 (s : string) : string :=
  match s with
  | String _ rest => rest
  | EmptyString => ""
  end.

(** *** The adapters *)

Module DiscordAdapter.

Definition GetName (client : discord.Client) : string := PlatformDiscord.

Definition IsConnected (client : discord.Client) : bool :=
  discord.IsConnected client.

Definition SendMessage (client : discord.Client) (channelID content : string)
  : option string :=
  discord.SendMessage client channelID content.

(** The name and avatar under which the webhook posts. *)
Definition webhookUsername (message : BridgeMessage.t) : string :=
  let username := BridgeMessage.Username message in
  let username := if decide (username = "") then "Anonymous" else username in
  let username := if HasPrefix username "@" then tail1 username else username in
  if decide (BridgeMessage.SourcePlatform message = PlatformTelegram)
  then "[TELEGRAM] " +:+ username
  else "[BRIDGE] " +:+ username.

Definition webhookAvatar (client : discord.Client) (message : BridgeMessage.t)
  : string :=
  discord.GetUserAvatar client (BridgeMessage.SourcePlatform message)
    (BridgeMessage.SourceUserID message) (BridgeMessage.Username message).

Definition SendBridgeMessage (client : discord.Client) (channelID : string)
    (message : BridgeMessage.t) : option string :=
  discord.SendWebhookMessage client channelID (BridgeMessage.Content message)
    (webhookUsername message) (webhookAvatar client message).

Definition FormatMessage (message : BridgeMessage.t) : string :=
  let platformPrefix :=
    if decide (BridgeMessage.SourcePlatform message = PlatformTelegram)
    then "[TELEGRAM]"
    else if decide (BridgeMessage.SourcePlatform message = PlatformDiscord)
    then "[DISCORD]"
    else "[BRIDGE]" in
  let username := BridgeMessage.Username message in
  let username := if decide (username = "") then "anonymous" else username in
  platformPrefix +:+ " **" +:+ username +:+ "**: "
    +:+ BridgeMessage.Content message.

End DiscordAdapter.

Module TelegramAdapter.

Definition GetName (client : telegram.Client) : string := PlatformTelegram.

Definition IsConnected (client : telegram.Client) : bool :=
  telegram.IsRunning client.

Definition SendMessage (client : telegram.Client) (chatID content : string)
  : option string :=
  telegram.SendMessage client chatID content.

Definition FormatMessage (message : BridgeMessage.t) : string :=
  let platformPrefix :=
    if decide (BridgeMessage.SourcePlatform message = PlatformDiscord)
    then "[DISCORD]"
    else if decide (BridgeMessage.SourcePlatform message = PlatformTelegram)
    then "[TELEGRAM]"
    else "[BRIDGE]" in
  let username := BridgeMessage.Username message in
  let username :=
    if negb (HasPrefix username "@") && negb (bool_decide (username = ""))
    then "@" +:+ username else username in
  let username :=
    if bool_decide (username = "@") || bool_decide (username = "")
    then "@anonymous" else username in
  platformPrefix +:+ " " +:+ username +:+ ": " +:+ BridgeMessage.Content message.

End TelegramAdapter.

(** Any other implementation of [types.Platform]. *)
Record Implementation : Type := mkImplementation {
  implGetName : string;
  implIsConnected : bool;
  implSendMessage : string → string → option string;
  implFormatMessage : BridgeMessage.t → string
}.

(** A value of the interface [types.Platform], with its dynamic type. *)
Inductive Platform : Type :=
| Discord (client : discord.Client)
| Telegram (client : telegram.Client)
| Other (impl : Implementation).

Definition GetName (p : Platform) : string :=
  match p with
  | Discord c => DiscordAdapter.GetName c
  | Telegram c => TelegramAdapter.GetName c
  | Other i => implGetName i
  end.

Definition IsConnected (p : Platform) : bool :=
  match p with
  | Discord c => DiscordAdapter.IsConnected c
  | Telegram c => TelegramAdapter.IsConnected c
  | Other i => implIsConnected i
  end.

Definition SendMessage (p : Platform) (channelID content : string)
  : option string :=
  match p with
  | Discord c => DiscordAdapter.SendMessage c channelID content
  | Telegram c => TelegramAdapter.SendMessage c channelID content
  | Other i => implSendMessage i channelID content
  end.

Definition FormatMessage (p : Platform) (message : BridgeMessage.t) : string :=
  match p with
  | Discord _ => DiscordAdapter.FormatMessage message
  | Telegram _ => TelegramAdapter.FormatMessage message
  | Other i => implFormatMessage i message
  end.

(** *** What the core does to the outside world *)

(** One constructor per [log.Printf] site of the core, with its arguments. *)
Inductive LogLine : Type :=
| LoadFailed (err : string)
| Loaded (bridgeCount : nat)
| PlatformRegistered (name : string)
| BridgeAdded (sourcePlatform sourceChannelID targetPlatform targetChannelID : string)
| RemoveFromDatabaseFailed (err : string)
| BridgeRemoved (sourcePlatform sourceChannelID targetPlatform targetChannelID : string)
| NoBridgesConfigured (sourcePlatform sourceChannelID : string)
| Processing (sourcePlatform sourceChannelID content : string)
| FoundConnections (n : nat)
| SkippingInactive (sourcePlatform targetPlatform : string)
| Attempting (sourcePlatform targetPlatform targetChannelID : string)
| TargetNotAvailable (targetPlatform : string)
| WebhookFailed (err : string)
| BridgeFailed (targetPlatform err : string)
| Bridged (sourcePlatform targetPlatform : string).

(** A log line, or a call of an adapter's sending method with the error it
    returned. *)
Inductive Event : Type :=
| Log (line : LogLine)
| CallSendBridgeMessage (channelID : string) (message : BridgeMessage.t)
                        (err : option string)
| CallSendMessage (platform channelID content : string) (err : option string).

(** *** [BridgeCore] *)

Record BridgeCore : Type := mkBridgeCore {
  platforms : gmap string Platform;
  connections : gmap string (list BridgeConnection.t);
  userMappings : gmap string (gmap string string);
  db : option database.Database
}.

(** What a method leaves behind: the core after the call, what it logged
    and sent, and the [error] it returned. *)
Record Outcome : Type := mkOutcome {
  core : BridgeCore;
  events : list Event;
  err : option string
}.

Definition with_connections (conns : gmap string (list BridgeConnection.t))
    (bc : BridgeCore) : BridgeCore :=
  mkBridgeCore (platforms bc) conns (userMappings bc) (db bc).

Definition with_db (d : database.Database) (bc : BridgeCore) : BridgeCore :=
  mkBridgeCore (platforms bc) (connections bc) (userMappings bc) (Some d).

(** The orders the run time picks where the language leaves them open:
    among the rows [ORDER BY] leaves tied, and over the entries of the two
    maps [loadBridgesFromDB] ranges over. *)
Record Schedule : Type := mkSchedule {
  order_by : list RoomMapping.t → list RoomMapping.t;
  range_bridges : gmap string (list RoomMapping.t)
                  → list (string * list RoomMapping.t);
  range_roomGroups : gmap Z (list RoomMapping.t)
                     → list (Z * list RoomMapping.t)
}.

Record fair (s : Schedule) : Prop := mkFair {
  order_by_perm : ∀ rows, order_by s rows ≡ₚ rows;
  order_by_sorted : ∀ rows, Sorted database.row_le (order_by s rows);
  range_bridges_perm : ∀ m, range_bridges s m ≡ₚ map_to_list m;
  range_roomGroups_perm : ∀ m, range_roomGroups s m ≡ₚ map_to_list m
}.

(** One schedule to run the code with: a merge sort and the order of
    [map_to_list]. *)
Definition a_schedule : Schedule :=
  mkSchedule (merge_sort database.row_le) map_to_list map_to_list.

(** [for _, mappings := range bridges { for _, mapping := range mappings {
      roomGroups[mapping.RoomID] = append(roomGroups[mapping.RoomID], mapping) } }] *)
Definition groupByRoom (visited : list (string * list RoomMapping.t))
  : gmap Z (list RoomMapping.t) :=
  foldl (λ roomGroups '(_, mappings),
           foldl (λ roomGroups mapping,
                    append_at (RoomMapping.RoomID mapping) mapping roomGroups)
                 roomGroups mappings)
        ∅ visited.

(** The connection built in the body of the inner loop. *)
Definition dbConnection (roomID : Z) (source target : RoomMapping.t)
  : BridgeConnection.t :=
  BridgeConnection.mk
    ("db_" +:+ fmt_d roomID
       +:+ "_" +:+ RoomMapping.Platform source
       +:+ "_" +:+ RoomMapping.PlatformRoomID source
       +:+ "_" +:+ RoomMapping.Platform target
       +:+ "_" +:+ RoomMapping.PlatformRoomID target)
    (RoomMapping.Platform source) (RoomMapping.PlatformRoomID source)
    (RoomMapping.Platform target) (RoomMapping.PlatformRoomID target)
    true (RoomMapping.CreatedAt source).

(** The loop state: [bc.connections] and [bridgeCount]. *)
Definition Loading : Type := gmap string (list BridgeConnection.t) * nat.

(** The body of [for roomID, mappings := range roomGroups]. *)
Definition bridgeRoom (st : Loading) (entry : Z * list RoomMapping.t)
  : Loading :=
  let '(roomID, mappings) := entry in
  if (length mappings <? 2)%nat then st
  else
    foldl (λ st '(i, source),
             foldl (λ st '(j, target),
                      if decide (i = j) then st
                      else (append_at (RoomMapping.PlatformRoomID source)
                              (dbConnection roomID source target) st.1,
                            S st.2))
                   st (enumerate mappings))
          st (enumerate mappings).

Definition loadBridgesFromDB (s : Schedule) (bc : BridgeCore) : Outcome :=
  match db bc with
  | None => mkOutcome bc [] (Some "database not initialized")
  | Some d =>
      match database.GetAllActiveBridges (order_by s) d with
      | (inl e, d) =>
          mkOutcome (with_db d bc) []
                    (Some ("failed to get active bridges: " +:+ e))
      | (inr bridges, d) =>
          let roomGroups := groupByRoom (range_bridges s bridges) in
          let st := foldl bridgeRoom (connections bc, 0%nat)
                          (range_roomGroups s roomGroups) in
          mkOutcome (with_connections st.1 (with_db d bc))
                    (if (0 <? st.2)%nat then [Log (Loaded st.2)] else [])
                    None
      end
  end.

Definition NewBridgeCore (s : Schedule) (db : option database.Database)
  : BridgeCore * list Event :=
  let bc := mkBridgeCore ∅ ∅ ∅ db in
  let o := loadBridgesFromDB s bc in
  match err o with
  | Some e => (core o, events o ++ [Log (LoadFailed e)])
  | None => (core o, events o)
  end.

Definition RegisterPlatform (platform : Platform) (bc : BridgeCore) : Outcome :=
  let name := GetName platform in
  let users :=
    match userMappings bc !! name with
    | None => <[name := ∅]> (userMappings bc)
    | Some _ => userMappings bc
    end in
  mkOutcome
    (mkBridgeCore (<[name := platform]> (platforms bc)) (connections bc)
                  users (db bc))
    [Log (PlatformRegistered name)] None.

Definition saveBridgeToDatabase
    (sourcePlatform sourceChannelID targetPlatform targetChannelID : string)
    (now : Z) (d : database.Database) : option string * database.Database :=
  let roomName := "bridge_" +:+ sourcePlatform +:+ "_" +:+ sourceChannelID
                    +:+ "_" +:+ targetPlatform +:+ "_" +:+ targetChannelID in
  match database.CreateOrGetRoom roomName now d with
  | (inl e, d) => (Some ("failed to create/get room: " +:+ e), d)
  | (inr room, d) =>
      match database.CreateOrGetRoomMapping (Room.ID room) sourcePlatform
              sourceChannelID (sourcePlatform +:+ "_" +:+ sourceChannelID)
              "channel" now d with
      | (inl e, d) => (Some ("failed to create source room mapping: " +:+ e), d)
      | (inr _, d) =>
          match database.CreateOrGetRoomMapping (Room.ID room) targetPlatform
                  targetChannelID (targetPlatform +:+ "_" +:+ targetChannelID)
                  "channel" now d with
          | (inl e, d) =>
              (Some ("failed to create target room mapping: " +:+ e), d)
          | (inr _, d) =>
              match database.CreateOrGetBridgeConfig (Room.ID room) now d with
              | (inl e, d) => (Some ("failed to create bridge config: " +:+ e), d)
              | (inr _, d) => (None, d)
              end
          end
      end
  end.

(** The two connections [AddBridge] builds. *)
Definition newConnection
    (sourcePlatform sourceChannelID targetPlatform targetChannelID : string)
    (now : Z) : BridgeConnection.t :=
  BridgeConnection.mk
    (sourcePlatform +:+ "_" +:+ sourceChannelID
       +:+ "_" +:+ targetPlatform +:+ "_" +:+ targetChannelID)
    sourcePlatform sourceChannelID targetPlatform targetChannelID true now.

Definition AddBridge
    (sourcePlatform sourceChannelID targetPlatform targetChannelID : string)
    (now : Z) (bc : BridgeCore) : Outcome :=
  match platforms bc !! sourcePlatform with
  | None =>
      mkOutcome bc []
        (Some ("source platform " +:+ sourcePlatform +:+ " not registered"))
  | Some _ =>
      match platforms bc !! targetPlatform with
      | None =>
          mkOutcome bc []
            (Some ("target platform " +:+ targetPlatform +:+ " not registered"))
      | Some _ =>
          let saved :=
            match db bc with
            | Some d =>
                let '(e, d) := saveBridgeToDatabase sourcePlatform sourceChannelID
                                 targetPlatform targetChannelID now d in
                (e, with_db d bc)
            | None => (None, bc)
            end in
          match saved with
          | (Some e, bc) =>
              mkOutcome bc []
                (Some ("failed to save bridge to database: " +:+ e))
          | (None, bc) =>
              let connection :=
                newConnection sourcePlatform sourceChannelID
                              targetPlatform targetChannelID now in
              let conns := append_at sourceChannelID connection (connections bc) in
              let reverseConnection :=
                newConnection targetPlatform targetChannelID
                              sourcePlatform sourceChannelID now in
              let conns := append_at targetChannelID reverseConnection conns in
              mkOutcome (with_connections conns bc)
                [Log (BridgeAdded sourcePlatform sourceChannelID
                                  targetPlatform targetChannelID)]
                None
          end
      end
  end.

Definition removeBridgeFromDatabase
    (sourcePlatform sourceChannelID targetPlatform : string) (now : Z)
    (d : database.Database) : option string * database.Database :=
  match database.GetRoomMappingByPlatformRoom sourcePlatform sourceChannelID d with
  | (inl e, d) => (Some ("source room mapping not found: " +:+ e), d)
  | (inr sourceMapping, d) =>
      match database.RemoveRoomMapping (RoomMapping.RoomID sourceMapping)
              targetPlatform now d with
      | (Some e, d) => (Some ("failed to remove target room mapping: " +:+ e), d)
      | (None, d) => (None, d)
      end
  end.

Definition RemoveBridge (sourceChannelID targetPlatform : string) (now : Z)
    (bc : BridgeCore) : Outcome :=
  match connections bc !! sourceChannelID with
  | None =>
      mkOutcome bc []
        (Some ("no bridges found for channel " +:+ sourceChannelID))
  | Some conns =>
      match list_find
              (λ conn, BridgeConnection.TargetPlatform conn = targetPlatform)
              conns with
      | None =>
          mkOutcome bc []
            (Some ("bridge to " +:+ targetPlatform +:+ " not found for channel "
                     +:+ sourceChannelID))
      | Some (i, conn) =>
          let graph := <[sourceChannelID := cut i conns]> (connections bc) in
          let reverseConnections :=
            default [] (graph !! BridgeConnection.TargetChannelID conn) in
          let graph :=
            match list_find
                    (λ reverseConn,
                       BridgeConnection.TargetChannelID reverseConn = sourceChannelID
                       ∧ BridgeConnection.TargetPlatform reverseConn
                         = BridgeConnection.SourcePlatform conn)
                    reverseConnections with
            | Some (j, _) =>
                <[BridgeConnection.TargetChannelID conn := cut j reverseConnections]>
                  graph
            | None => graph
            end in
          let bc := with_connections graph bc in
          let removed :=
            match db bc with
            | Some d =>
                let '(e, d) :=
                  removeBridgeFromDatabase (BridgeConnection.SourcePlatform conn)
                    sourceChannelID targetPlatform now d in
                (match e with
                 | Some e => [Log (RemoveFromDatabaseFailed e)]
                 | None => []
                 end, with_db d bc)
            | None => ([], bc)
            end in
          mkOutcome removed.2
            (removed.1 ++
             [Log (BridgeRemoved (BridgeConnection.SourcePlatform conn)
                     sourceChannelID targetPlatform
                     (BridgeConnection.TargetChannelID conn))])
            None
      end
  end.

(** The generic path: [FormatMessage], then [SendMessage]. *)
Definition sendRegular (targetPlatform : Platform)
    (connection : BridgeConnection.t) (message : BridgeMessage.t)
  : list Event * option string :=
  let formattedMessage := FormatMessage targetPlatform message in
  let e := SendMessage targetPlatform
             (BridgeConnection.TargetChannelID connection) formattedMessage in
  ([CallSendMessage (BridgeConnection.TargetPlatform connection)
      (BridgeConnection.TargetChannelID connection) formattedMessage e], e).

(** The generic path as the two branches that check its error use it. *)
Definition sendRegularChecked (targetPlatform : Platform)
    (connection : BridgeConnection.t) (message : BridgeMessage.t)
  : list Event :=
  let '(sent, e) := sendRegular targetPlatform connection message in
  match e with
  | Some e =>
      sent ++ [Log (BridgeFailed (BridgeConnection.TargetPlatform connection) e)]
  | None =>
      sent ++ [Log (Bridged (BridgeMessage.SourcePlatform message)
                            (BridgeConnection.TargetPlatform connection))]
  end.

(** The body of [for _, connection := range connections]. *)
Definition bridgeTo (bc : BridgeCore) (message : BridgeMessage.t)
    (connection : BridgeConnection.t) : list Event :=
  if negb (BridgeConnection.IsActive connection) then
    [Log (SkippingInactive (BridgeConnection.SourcePlatform connection)
                           (BridgeConnection.TargetPlatform connection))]
  else
    Log (Attempting (BridgeConnection.SourcePlatform connection)
                    (BridgeConnection.TargetPlatform connection)
                    (BridgeConnection.TargetChannelID connection)) ::
    match platforms bc !! BridgeConnection.TargetPlatform connection with
    | None => [Log (TargetNotAvailable (BridgeConnection.TargetPlatform connection))]
    | Some targetPlatform =>
        if negb (IsConnected targetPlatform) then
          [Log (TargetNotAvailable (BridgeConnection.TargetPlatform connection))]
        else if decide (BridgeConnection.TargetPlatform connection = PlatformDiscord)
        then
          match targetPlatform with
          | Discord discordAdapter =>
              let e := DiscordAdapter.SendBridgeMessage discordAdapter
                         (BridgeConnection.TargetChannelID connection) message in
              CallSendBridgeMessage
                (BridgeConnection.TargetChannelID connection) message e ::
              match e with
              | Some e =>
                  Log (WebhookFailed e) ::
                  (sendRegular targetPlatform connection message).1 ++
                  [Log (Bridged (BridgeMessage.SourcePlatform message)
                                (BridgeConnection.TargetPlatform connection))]
              | None =>
                  [Log (Bridged (BridgeMessage.SourcePlatform message)
                                (BridgeConnection.TargetPlatform connection))]
              end
          | _ => sendRegularChecked targetPlatform connection message
          end
        else sendRegularChecked targetPlatform connection message
    end.

Definition ProcessMessage (message : BridgeMessage.t) (bc : BridgeCore)
  : Outcome :=
  let connections :=
    default [] (connections bc !! BridgeMessage.SourceChannelID message) in
  if decide (length connections = 0%nat) then
    mkOutcome bc
      [Log (NoBridgesConfigured (BridgeMessage.SourcePlatform message)
                                (BridgeMessage.SourceChannelID message))]
      None
  else
    mkOutcome bc
      (Log (Processing (BridgeMessage.SourcePlatform message)
                       (BridgeMessage.SourceChannelID message)
                       (BridgeMessage.Content message)) ::
       Log (FoundConnections (length connections)) ::
       (connection ← connections; bridgeTo bc message connection))
      None.

(** [GetBridges]: the contract's [routesFor]. *)
Definition GetBridges (channelID : string) (bc : BridgeCore)
  : list BridgeConnection.t :=
  default [] (connections bc !! channelID).

(** *** Display names and the legacy entry point *)

Definition SetUserMapping (platform userID displayName : string)
    (bc : BridgeCore) : BridgeCore :=
  let users :=
    match userMappings bc !! platform with
    | None => <[platform := ∅]> (userMappings bc)
    | Some _ => userMappings bc
    end in
  mkBridgeCore (platforms bc) (connections bc)
    (<[platform := <[userID := displayName]> (default ∅ (users !! platform))]>
       users)
    (db bc).

Definition getDisplayName (platform userID : string) (bc : BridgeCore)
  : string :=
  match userMappings bc !! platform with
  | Some users =>
      match users !! userID with
      | Some displayName => displayName
      | None => userID
      end
  | None => userID
  end.

(** [t.Unix()], a [time.Time] being counted in nanoseconds since the
    epoch. *)
Definition Unix (t : Z) : Z := t `div` 1000000000.

(** One constructor per [log.Printf] site of [ProcessMessageLegacy]. *)
Inductive LegacyLine : Type :=
| LegacyCalled
| LegacyPlatform (sourcePlatform : string)
| LegacyChannel (channelID : string)
| LegacyUser (userID : string)
| LegacyType (messageType : string)
| LegacyContent (content : string)
| ConnectionsFound (n : nat)
| NoConnectionsFound (channelID : string).

(** The message [ProcessMessageLegacy] builds. *)
Definition legacyMessage
    (sourcePlatform channelID userID messageType content : string) (now : Z)
    (bc : BridgeCore) : BridgeMessage.t :=
  BridgeMessage.mk
    (sourcePlatform +:+ "_" +:+ channelID +:+ "_" +:+ fmt_d (Unix now))
    sourcePlatform channelID userID
    (getDisplayName sourcePlatform userID bc)
    content messageType now [].

(** The lines it logs itself, all of them before it hands the message to
    [ProcessMessage], and the outcome. *)
Definition ProcessMessageLegacy
    (sourcePlatform channelID userID messageType content : string) (now : Z)
    (bc : BridgeCore) : list LegacyLine * Outcome :=
  let connections := default [] (connections bc !! channelID) in
  let lines := [LegacyCalled; LegacyPlatform sourcePlatform;
                LegacyChannel channelID; LegacyUser userID;
                LegacyType messageType; LegacyContent content;
                ConnectionsFound (length connections)] in
  if decide (length connections = 0%nat) then
    (lines ++ [NoConnectionsFound channelID], mkOutcome bc [] None)
  else
    (lines,
     ProcessMessage
       (legacyMessage sourcePlatform channelID userID messageType content
          now bc)
       bc).

Definition GetAllBridges (bc : BridgeCore)
  : gmap string (list BridgeConnection.t) :=
  connections bc.

(** [range_platforms] is the order in which the loop visits the entries of
    [bc.platforms]. *)
Definition GetPlatformStatus
    (range_platforms : gmap string Platform → list (string * Platform))
    (bc : BridgeCore) : gmap string bool :=
  foldl (λ status '(name, platform), <[name := IsConnected platform]> status)
        ∅ (range_platforms (platforms bc)).

(** [range_connections] is the order in which the outer loop visits the
    entries of [bc.connections]. *)
Definition GetBridgeStats
    (range_connections : gmap string (list BridgeConnection.t)
                         → list (string * list BridgeConnection.t))
    (bc : BridgeCore) : gmap string Z :=
  let counted :=
    foldl (λ st '(_, connections),
             foldl (λ '(totalBridges, activeBridges) conn,
                      (totalBridges + 1,
                       if BridgeConnection.IsActive conn
                       then activeBridges + 1 else activeBridges))
                   st connections)
          (0, 0) (range_connections (connections bc)) in
  <["bridged_channels" := Z.of_nat (size (connections bc))]>
    (<["registered_platforms" := Z.of_nat (size (platforms bc))]>
       (<["active_bridges" := counted.2 `quot` 2]>
          (<["total_bridges" := counted.1 `quot` 2]> ∅))).

(** *** The helpers that clean a user name *)

(** [strings.ReplaceAll(s, old, "")] for an [old] of one byte. *)
Fixpoint removeByte (old : ascii) (s : string) : string :=
  match s with
  | EmptyString => EmptyString
  | String a rest =>
      if Ascii.eqb a old then removeByte old rest
      else String a (removeByte old rest)
  end.

(** [s[:n]] *)
Fixpoint sliceTo (n : nat) (s : string) : string :=
  match n, s with
  | S n, String a rest => String a (sliceTo n rest)
  | _, _ => EmptyString
  end.

Definition cleanUsername (username : string) : string :=
  let username := removeByte "@" username in
  let username := removeByte "#" username in
  let username := removeByte "`" username in
  let username := removeByte "*" username in
  let username := removeByte "_" username in
  let username := removeByte "~" username in
  let username :=
    if (32 <? String.length username)%nat
    then sliceTo 29 username +:+ "..." else username in
  if decide (username = "") then "Unknown" else username.

Definition cleanUsernameTelegram (username : string) : string :=
  let username := removeByte "@" username in
  let username := removeByte "*" username in
  let username := removeByte "_" username in
  let username := removeByte "`" username in
  let username := removeByte "[" username in
  let username := removeByte "]" username in
  let username :=
    if (32 <? String.length username)%nat
    then sliceTo 29 username +:+ "..." else username in
  if decide (username = "") then "Unknown" else username.

End bridge.

(** ** Package [config] *)

Module config.

Record Config : Type := mkConfig {
  EnableTelegram : bool;
  EnableDiscord : bool;
  TelegramBotToken : string;
  TelegramChatID : string;
  DiscordBotToken : string;
  DiscordGuildID : string;
  DiscordChannelID : string;
  DatabasePath : string;
  LogLevel : string;
  LogFile : string;
  APIPort : Z;
  APIEnable : bool
}.

(** The environment of the process; [os.Getenv] gives [""] for a variable
    that is not set. *)
Definition Getenv (env : gmap string string) (key : string) : string :=
  default "" (env !! key).

Definition getEnv (env : gmap string string) (key defaultValue : string)
  : string :=
  let value := Getenv env key in
  if negb (bool_decide (value = "")) then value else defaultValue.

Definition Load (env : gmap string string) : Config :=
  let apiPort := (strconv.Atoi (getEnv env "API_PORT" "8080")).1 in
  let apiEnable := (strconv.ParseBool (getEnv env "API_ENABLE" "false")).1 in
  let enableTelegram :=
    (strconv.ParseBool (getEnv env "ENABLE_TELEGRAM" "true")).1 in
  let enableDiscord :=
    (strconv.ParseBool (getEnv env "ENABLE_DISCORD" "true")).1 in
  mkConfig enableTelegram enableDiscord
    (getEnv env "TELEGRAM_BOT_TOKEN" "")
    (getEnv env "TELEGRAM_CHAT_ID" "")
    (getEnv env "DISCORD_BOT_TOKEN" "")
    (getEnv env "DISCORD_GUILD_ID" "")
    (getEnv env "DISCORD_CHANNEL_ID" "")
    (getEnv env "DATABASE_PATH" "./bridge.db")
    (getEnv env "LOG_LEVEL" "info")
    (getEnv env "LOG_FILE" "./logs/bridge.log")
    apiPort apiEnable.

End config.

(** ** Package [main]: how the handlers are wired to the core *)

Module main.
Import types.

(** All that the closures of [main] can reach: the core [bridgeCore]
    points to, the display names of package [telegram], what
    [time.Now()] reads, and what the core has logged and sent so far. *)
Record World : Type := mkWorld {
  bridgeCore : bridge.BridgeCore;
  userMappings : gmap string string;
  now : Z;
  range_platforms : gmap string bridge.Platform
                    → list (string * bridge.Platform);
  trace : list (bridge.LegacyLine + bridge.Event)
}.

(** The world after a method of the core has run. *)
Definition after (o : bridge.Outcome) (lines : list bridge.LegacyLine)
    (w : World) : World :=
  mkWorld (bridge.core o) (userMappings w) (now w) (range_platforms w)
          (trace w ++ (inl <$> lines) ++ (inr <$> bridge.events o)).

Definition with_core (bc : bridge.BridgeCore) (w : World) : World :=
  mkWorld bc (userMappings w) (now w) (range_platforms w) (trace w).

(** [bridgeCore] as a value of the interface [types.BridgeCore]. *)
Definition asBridgeCore : BridgeCore.t World bridge.Platform :=
  BridgeCore.mk
    (λ platform w, after (bridge.RegisterPlatform platform (bridgeCore w)) [] w)
    (λ sp sc tp tc w,
       let o := bridge.AddBridge sp sc tp tc (now w) (bridgeCore w) in
       (bridge.err o, after o [] w))
    (λ sc tp w,
       let o := bridge.RemoveBridge sc tp (now w) (bridgeCore w) in
       (bridge.err o, after o [] w))
    (λ channelID w, bridge.GetBridges channelID (bridgeCore w))
    (λ w, bridge.GetPlatformStatus (range_platforms w) (bridgeCore w))
    (λ message w,
       let o := bridge.ProcessMessage message (bridgeCore w) in
       (bridge.err o, after o [] w))
    (λ platform userID displayName w,
       with_core (bridge.SetUserMapping platform userID displayName
                    (bridgeCore w)) w).

(** [bridgeCore.ProcessMessageLegacy(...)] *)
Definition ProcessMessageLegacy
    (platform channelID userID messageType content : string) (w : World)
  : option string * World :=
  let '(lines, o) :=
    bridge.ProcessMessageLegacy platform channelID userID messageType content
      (now w) (bridgeCore w) in
  (bridge.err o, after o lines w).

(** The closure [main] gives to [telegram.NewMessageHandler]. *)
Definition telegramBridgeFunc : telegram.BridgeFunc World :=
  λ platform chatID userID messageType content w,
    let username := telegram.GetUserDisplayName userID (userMappings w) in
    let w :=
      if negb (bool_decide (username = ""))
      then with_core (bridge.SetUserMapping platform userID username
                        (bridgeCore w)) w
      else w in
    ProcessMessageLegacy platform chatID userID messageType content w.

(** The closure [main] gives to [discord.NewMessageHandler]. *)
Definition discordBridgeFunc : discord.BridgeFunc World :=
  λ platform channelID userID messageType content w,
    ProcessMessageLegacy platform channelID userID messageType content w.

(** The two handlers as [main] leaves them. *)
Definition telegramHandler (telegramClient : telegram.Client)
  : telegram.MessageHandler World :=
  telegram.NewMessageHandler telegramClient (Some telegramBridgeFunc).

Definition discordHandler (discordClient : discord.Client)
  : discord.MessageHandler World bridge.Platform :=
  (discord.SetAdminUsers ["1359619658214412298"]
     (discord.SetBridgeCore asBridgeCore
        (discord.NewMessageHandler discordClient (Some discordBridgeFunc)))).1.

End main.

(** ** Vocabulary of the properties *)

Module props.
Import types models bridge.

(** A call of a sending method, as opposed to a log line. *)
Definition is_call (ev : Event) : bool :=
  match ev with
  | Log _ => false
  | CallSendBridgeMessage _ _ _ | CallSendMessage _ _ _ _ => true
  end.

(** The delivery attempts in a sequence of events. *)
Definition calls (evs : list Event) : list Event :=
  filter (λ ev, is_call ev) evs.

(** The call [ev] is directed at channel [channelID] of [platform]. *)
Definition addressed (platform channelID : string) (ev : Event) : Prop :=
  match ev with
  | Log _ => False
  | CallSendBridgeMessage c _ _ => platform = PlatformDiscord ∧ c = channelID
  | CallSendMessage p c _ _ => p = platform ∧ c = channelID
  end.

#[global] Instance addressed_dec platform channelID ev :
  Decision (addressed platform channelID ev).
Proof. destruct ev; simpl; apply _. Defined.

(** An edge the fan-out can use: it is active and its target platform has
    a registered adapter that reports connected. *)
Definition reachable (bc : BridgeCore) (e : BridgeConnection.t) : bool :=
  BridgeConnection.IsActive e
  && match platforms bc !! BridgeConnection.TargetPlatform e with
     | Some p => IsConnected p
     | None => false
     end.

(** The edge [e] leads to channel [channelID] of [platform]. *)
Definition targets (platform channelID : string) (e : BridgeConnection.t)
  : Prop :=
  BridgeConnection.TargetPlatform e = platform
  ∧ BridgeConnection.TargetChannelID e = channelID.

(** The edge [e] leaves channel [channelID] of [platform]. *)
Definition leaves (platform channelID : string) (e : BridgeConnection.t)
  : Prop :=
  BridgeConnection.SourcePlatform e = platform
  ∧ BridgeConnection.SourceChannelID e = channelID.

(** The core without its store ([bc.db == nil]). *)
Definition without_db (bc : BridgeCore) : BridgeCore :=
  mkBridgeCore (platforms bc) (connections bc) (userMappings bc) None.

(** The channel a mapping binds, and the two ends of an edge: a platform
    and the platform's own identifier of the channel. *)
Definition channel (m : RoomMapping.t) : string * string :=
  (RoomMapping.Platform m, RoomMapping.PlatformRoomID m).

Definition source (e : BridgeConnection.t) : string * string :=
  (BridgeConnection.SourcePlatform e, BridgeConnection.SourceChannelID e).

Definition target (e : BridgeConnection.t) : string * string :=
  (BridgeConnection.TargetPlatform e, BridgeConnection.TargetChannelID e).

(** What the schema keeps true of the store:
    [UNIQUE(platform, platform_room_id)] on [room_mappings] and
    [UNIQUE(room_id)] on [bridge_config]. *)
Definition store_ok (d : database.Database) : Prop :=
  NoDup (channel <$> database.room_mappings d)
  ∧ NoDup (BridgeConfig.RoomID <$> database.bridge_config d).

(** The active mappings of a room, and whether its configuration is
    active. *)
Definition active_mappings (d : database.Database) (roomID : Z)
  : list RoomMapping.t :=
  filter (λ m, RoomMapping.RoomID m = roomID ∧ RoomMapping.IsActive m = true)
         (database.room_mappings d).

Definition config_active (d : database.Database) (roomID : Z) : Prop :=
  Exists (λ c, BridgeConfig.RoomID c = roomID ∧ BridgeConfig.IsActive c = true)
         (database.bridge_config d).

(** The edge [e] belongs to the room: it leaves one of the room's active
    channels. *)
Definition from_room (d : database.Database) (roomID : Z)
    (e : BridgeConnection.t) : Prop :=
  Exists (λ m, channel m = source e) (active_mappings d roomID).

(** The store answers the query of the startup rebuild: the statement
    about to be sent meets no fault, nor does the scan of its rows. *)
Definition answers (d : database.Database) : Prop :=
  database.faults d (database.issued d) = None
  ∧ database.scan_faults d (database.issued d) = None.

(** The connection graph after the startup rebuild from store [d], the
    run time following schedule [s]. *)
Definition rebuilt (s : Schedule) (d : database.Database)
  : gmap string (list BridgeConnection.t) :=
  connections (NewBridgeCore s (Some d)).1.

(** The edges of a graph, and those of one room. *)
Definition edges (g : gmap string (list BridgeConnection.t))
  : list BridgeConnection.t := elems g.

Definition room_edges (d : database.Database) (roomID : Z)
    (g : gmap string (list BridgeConnection.t)) : list BridgeConnection.t :=
  filter (from_room d roomID) (edges g).

(** The loops of [loadBridgesFromDB] as lists.  [group key l m] is the
    multimap after [m[key(x)] = append(m[key(x)], x)] for each [x] of [l];
    [roomEdges] lists the connections one room contributes, in the order
    the two nested loops build them. *)
Definition group `{Countable K} {V : Type} (key : V → K) (l : list V)
    (m : gmap K (list V)) : gmap K (list V) :=
  foldl (λ m x, append_at (key x) x m) m l.

Definition roomEdges (entry : Z * list RoomMapping.t)
  : list BridgeConnection.t :=
  if (length entry.2 <? 2)%nat then []
  else
    p ← enumerate entry.2;
    q ← enumerate entry.2;
    if decide (p.1 = q.1) then [] else [dbConnection entry.1 p.2 q.2].

(** The edges the rows [l] of the query stand for: one for every ordered
    pair of rows of the same room that bind different channels. *)
Definition pairs (l : list RoomMapping.t) : list BridgeConnection.t :=
  s ← l;
  t ← l;
  if decide (RoomMapping.RoomID s = RoomMapping.RoomID t
             ∧ channel s ≠ channel t)
  then [dbConnection (RoomMapping.RoomID s) s t] else [].

#[global] Instance targets_dec platform channelID e :
  Decision (targets platform channelID e).
Proof. unfold targets. apply _. Defined.

#[global] Instance leaves_dec platform channelID e :
  Decision (leaves platform channelID e).
Proof. unfold leaves. apply _. Defined.

#[global] Instance config_active_dec d roomID : Decision (config_active d roomID).
Proof. unfold config_active. apply _. Defined.

#[global] Instance from_room_dec d roomID e : Decision (from_room d roomID e).
Proof. unfold from_room. apply _. Defined.

(** The graph computed by [RemoveBridge] when it finds the edge. *)
Definition unlinked (c : string) (i : nat) (conns : list BridgeConnection.t)
    (conn : BridgeConnection.t) (g : gmap string (list BridgeConnection.t))
  : gmap string (list BridgeConnection.t) :=
  let g1 := <[c := cut i conns]> g in
  let reverseConnections :=
    default [] (g1 !! BridgeConnection.TargetChannelID conn) in
  match list_find
          (λ reverseConn,
             BridgeConnection.TargetChannelID reverseConn = c
             ∧ BridgeConnection.TargetPlatform reverseConn
               = BridgeConnection.SourcePlatform conn)
          reverseConnections with
  | Some (j, _) =>
      <[BridgeConnection.TargetChannelID conn := cut j reverseConnections]> g1
  | None => g1
  end.

(** One step of the loops: a connection is appended under its source
    channel and counted. *)
Definition link (st : Loading) (e : BridgeConnection.t) : Loading :=
  (append_at (BridgeConnection.SourceChannelID e) e st.1, S st.2).

(** The store of a core, if it has one, keeps its constraints. *)
Definition core_store_ok (bc : BridgeCore) : Prop :=
  match db bc with
  | Some d => store_ok d
  | None => True
  end.

(** The calls of the core's API, each with the reading of the clock it
    makes, and a core serving a sequence of them. *)
Inductive Request : Type :=
| DoRegisterPlatform (platform : Platform)
| DoAddBridge (sourcePlatform sourceChannelID targetPlatform
                 targetChannelID : string) (now : Z)
| DoRemoveBridge (sourceChannelID targetPlatform : string) (now : Z)
| DoProcessMessage (message : BridgeMessage.t)
| DoProcessMessageLegacy (sourcePlatform channelID userID messageType
                            content : string) (now : Z)
| DoSetUserMapping (platform userID displayName : string).

Definition serve (bc : BridgeCore) (r : Request) : BridgeCore :=
  match r with
  | DoRegisterPlatform platform => core (RegisterPlatform platform bc)
  | DoAddBridge sp sc tp tc now => core (AddBridge sp sc tp tc now bc)
  | DoRemoveBridge sc tp now => core (RemoveBridge sc tp now bc)
  | DoProcessMessage message => core (ProcessMessage message bc)
  | DoProcessMessageLegacy sp ch u ty content now =>
      core (ProcessMessageLegacy sp ch u ty content now bc).2
  | DoSetUserMapping platform userID displayName =>
      SetUserMapping platform userID displayName bc
  end.

Definition run (rs : list Request) (bc : BridgeCore) : BridgeCore :=
  foldl serve bc rs.

(** Every edge is filed under its own source channel and is active. *)
Definition graph_ok (g : gmap string (list BridgeConnection.t)) : Prop :=
  ∀ c l e, g !! c = Some l → e ∈ l →
    BridgeConnection.SourceChannelID e = c
    ∧ BridgeConnection.IsActive e = true.

(** The tag the formatters put in front of a message. *)
Definition telegramTag (sourcePlatform : string) : string :=
  if decide (sourcePlatform = PlatformDiscord) then "[DISCORD]"
  else if decide (sourcePlatform = PlatformTelegram) then "[TELEGRAM]"
  else "[BRIDGE]".
(** The store binds channel [(platform, platformRoomID)] to room [roomID]
    by an active row. *)
Definition bound (d : database.Database) (roomID : Z)
    (platform platformRoomID : string) : Prop :=
  Exists (λ m, RoomMapping.RoomID m = roomID
               ∧ channel m = (platform, platformRoomID)
               ∧ RoomMapping.IsActive m = true)
         (database.room_mappings d).

(** No configuration of the store is switched off. *)
Definition configs_active (d : database.Database) : Prop :=
  Forall (λ c, BridgeConfig.IsActive c = true) (database.bridge_config d).

(** The driver answers the next [n] statements. *)
Definition answering (n : nat) (d : database.Database) : Prop :=
  ∀ k, (k < n)%nat → database.faults d (database.issued d + k)%nat = None.

(** The name of the room [saveBridgeToDatabase] files a bridge under. *)
Definition bridgeRoomName
    (sourcePlatform sourceChannelID targetPlatform targetChannelID : string)
  : string :=
  "bridge_" +:+ sourcePlatform +:+ "_" +:+ sourceChannelID
    +:+ "_" +:+ targetPlatform +:+ "_" +:+ targetChannelID.

(** The bytes of a string, and a string with the bytes [forbidden] taken
    out one after the other, cut to the length limit of the two helpers
    that clean a user name. *)
Definition bytes (s : string) : list ascii := list_ascii_of_string s.

Definition scrubbed (forbidden : list ascii) (s : string) : string :=
  foldl (λ s old, removeByte old s) s forbidden.

Definition limited (s : string) : string :=
  let s := if (32 <? String.length s)%nat then sliceTo 29 s +:+ "..." else s in
  if decide (s = "") then "Unknown" else s.

(** The Telegram handler hands the message to its [bridgeFunc]: the chat
    identifier is a decimal [int64], the chat is allowed, and the content
    is no command. *)
Definition forwards {W : Type} (h : telegram.MessageHandler W)
    (chatID content : string) : Prop :=
  (strconv.ParseInt chatID).2 = None
  ∧ telegram.isChatAllowed h (strconv.ParseInt chatID).1 = true
  ∧ telegram.HasPrefix content "/" = false.

(** The name [onMessageCreate] records for the author of a message. *)
Definition authorName (m : discord.Message.t) : string :=
  if decide (discord.Message.AuthorUsername m = "")
  then if decide (discord.Message.AuthorGlobalName m = "")
       then "User" +:+ discord.Message.AuthorID m
       else discord.Message.AuthorGlobalName m
  else discord.Message.AuthorUsername m.

(** The target the Discord handler's own table gives for a channel and a
    platform, and a table without an entry that holds nothing. *)
Definition legacyTarget {W Platform : Type}
    (h : discord.MessageHandler W Platform) (channelID platform : string)
  : option string :=
  discord.bridgedChannels h !! channelID ≫= λ bridges, bridges !! platform.

Definition tidy {W Platform : Type} (h : discord.MessageHandler W Platform)
  : Prop :=
  ∀ channelID bridges,
    discord.bridgedChannels h !! channelID = Some bridges → bridges ≠ ∅.

(** No display name kept by package [telegram] is empty. *)
Definition named (userMappings : gmap string string) : Prop :=
  ∀ userID displayName,
    userMappings !! userID = Some displayName → displayName ≠ "".

(** The values [strconv.ParseBool] reads as [true]. *)
Definition truthy : list string := ["1"; "t"; "T"; "true"; "TRUE"; "True"].

(** A row under other time stamps.  The struct a [CreateOrGet] method
    returns after an insert and the row it has written differ in nothing
    else. *)
Definition restamped_room (r : Room.t) (createdAt updatedAt : Z) : Room.t :=
  Room.mk (Room.ID r) (Room.Name r) createdAt updatedAt.

Definition restamped_mapping (m : RoomMapping.t) (createdAt updatedAt : Z)
  : RoomMapping.t :=
  RoomMapping.mk (RoomMapping.ID m) (RoomMapping.RoomID m)
    (RoomMapping.Platform m) (RoomMapping.PlatformRoomID m)
    (RoomMapping.RoomName m) (RoomMapping.RoomType m)
    (RoomMapping.IsActive m) createdAt updatedAt.

Definition restamped_config (c : BridgeConfig.t) (createdAt updatedAt : Z)
  : BridgeConfig.t :=
  BridgeConfig.mk (BridgeConfig.ID c) (BridgeConfig.RoomID c)
    (BridgeConfig.IsActive c) (BridgeConfig.AllowMedia c)
    (BridgeConfig.AllowEdits c) (BridgeConfig.AllowDeletes c)
    (BridgeConfig.FilterWords c) (BridgeConfig.MaxMessageLength c)
    createdAt updatedAt.

End props.

Import types models bridge props.

(** ** Scenarios

    The concrete stores, clients and cores on which the theorems below are
    run. *)

Module scenarios.
Import types models bridge props.

Definition no_faults : nat → option string := λ _, None.

Definition fault_at (n : nat) (e : string) : nat → option string :=
  λ k, if decide (k = n) then Some e else None.

(** A store with nothing in it. *)
Definition empty_store (faults : nat → option string) : database.Database :=
  database.mkDatabase [] [] [] 0 0 0 0 faults no_faults.

(** Clients that are connected and whose requests succeed. *)
Definition up_discord : discord.Client :=
  discord.mkClient true (λ _ _, None) (λ _ _ _, "avatar.png") (λ _ _ _ _, None).

Definition up_telegram : telegram.Client :=
  telegram.mkClient true (λ _ _, None).

(** The core as [main] builds it on store [d]: the startup rebuild, then
    the two adapters. *)
Definition started (d : option database.Database) : BridgeCore :=
  core (RegisterPlatform (Telegram up_telegram)
          (core (RegisterPlatform (Discord up_discord)
                   (NewBridgeCore a_schedule d).1))).

(** A message from user "bob". *)
Definition hello (platform channelID : string) : BridgeMessage.t :=
  BridgeMessage.mk "m1" platform channelID "u1" "bob" "hello" "text" 7 [].

(** A core whose graph has an emptied entry and nothing else. *)
Definition quiet_core : BridgeCore :=
  mkBridgeCore ∅ (<["300" := []]> ∅) ∅ None.

(** Channel "100" has two active routes: to Telegram chat "200", whose
    adapter is not running, and to channel "7" of a third platform. *)
Definition matrix : Implementation :=
  mkImplementation "matrix" true (λ _ _, None)
    (λ m, "<" +:+ BridgeMessage.Username m +:+ "> " +:+ BridgeMessage.Content m).

Definition two_routes_core : BridgeCore :=
  mkBridgeCore
    (<["matrix" := Other matrix]>
       (<["telegram" := Telegram (telegram.mkClient false (λ _ _, None))]> ∅))
    (<["100" := [newConnection "discord" "100" "telegram" "200" 1;
                 newConnection "discord" "100" "matrix" "7" 2]]> ∅)
    ∅ None.

(** Channel "5" has a route to Discord, whose webhook and regular send
    both fail, followed by a route to Telegram. *)
Definition flaky_discord : discord.Client :=
  discord.mkClient true (λ _ _, Some "HTTP 500") (λ _ _ _, "avatar.png")
                   (λ _ _ _ _, Some "HTTP 503").

Definition rich_core : BridgeCore :=
  mkBridgeCore
    (<["telegram" := Telegram (telegram.mkClient true (λ _ _, None))]>
       (<["discord" := Discord flaky_discord]> ∅))
    (<["5" := [newConnection "matrix" "5" "discord" "100" 1;
               newConnection "matrix" "5" "telegram" "200" 2]]> ∅)
    ∅ None.

(** The schedule that ranges over the maps the other way round. *)
Definition b_schedule : Schedule :=
  mkSchedule (merge_sort database.row_le)
             (λ m, reverse (map_to_list m)) (λ m, reverse (map_to_list m)).

(** A store with three rooms.  Room 1 links three channels; room 2 links
    a Discord channel and a Telegram chat that carry the same identifier,
    and has a third mapping that is no longer active; room 3 has two
    active mappings and a configuration that is switched off. *)
Definition a_mapping (id roomID : Z) (platform platformRoomID : string)
    (active : bool) : RoomMapping.t :=
  RoomMapping.mk id roomID platform platformRoomID
    (platform +:+ "_" +:+ platformRoomID) "channel" active 10 10.

Definition a_config (id roomID : Z) (active : bool) : BridgeConfig.t :=
  BridgeConfig.mk id roomID active true true true "[]" 4000 10 10.

Definition three_rooms : database.Database :=
  database.mkDatabase
    [Room.mk 1 "lobby" 10 10; Room.mk 2 "ops" 10 10; Room.mk 3 "old" 10 10]
    [a_mapping 1 1 "discord" "100" true;
     a_mapping 2 2 "telegram" "7" true;
     a_mapping 3 1 "telegram" "200" true;
     a_mapping 4 2 "discord" "7" true;
     a_mapping 5 1 "telegram" "300" true;
     a_mapping 6 2 "telegram" "8" false;
     a_mapping 7 3 "discord" "900" true;
     a_mapping 8 3 "telegram" "901" true]
    [a_config 1 1 true; a_config 2 2 true; a_config 3 3 false]
    3 8 3 0 no_faults no_faults.

(** A clock that advances by one between two readings of a call. *)
Definition ticking (k : nat) : Z := 10 + Z.of_nat k.

End scenarios.

Import scenarios.

(** Closed goals about the fixtures are settled by evaluation. *)
Ltac evaluate := vm_compute; reflexivity.
Ltac decide_by_evaluation :=
  match goal with
  | |- ?P => apply (bool_decide_unpack P); vm_compute; exact I
  end.
Ltac conjuncts := repeat match goal with |- _ ∧ _ => split end.

(** ** The fan-out *)

Lemma calls_app evs1 evs2 : calls (evs1 ++ evs2) = calls evs1 ++ calls evs2.
Proof. apply filter_app. Qed.

Lemma calls_bind {A} (f : A → list Event) (l : list A) :
  calls (l ≫= f) = l ≫= (λ x, calls (f x)).
Proof.
  induction l as [|x l IH]; [done|].
  rewrite !bind_cons, calls_app, IH. done.
Qed.

Lemma bind_filter_nil {A B} (P : A → Prop) `{!∀ x, Decision (P x)}
    (f : A → list B) (l : list A) :
  (∀ x, x ∈ l → ¬ P x → f x = []) →
  l ≫= f = filter P l ≫= f.
Proof.
  induction l as [|x l IH]; intros Hnil; [done|].
  rewrite bind_cons, filter_cons.
  rewrite IH by (intros y Hy; apply Hnil; by right).
  destruct (decide (P x)) as [|Hx]; [by rewrite bind_cons|].
  rewrite (Hnil x) by (done || by left). done.
Qed.

Lemma sendRegular_events p e message :
  (sendRegular p e message).1 =
    [CallSendMessage (BridgeConnection.TargetPlatform e)
       (BridgeConnection.TargetChannelID e) (FormatMessage p message)
       (SendMessage p (BridgeConnection.TargetChannelID e)
          (FormatMessage p message))].
Proof. reflexivity. Qed.

Lemma calls_sendRegularChecked p e message :
  calls (sendRegularChecked p e message) =
    [CallSendMessage (BridgeConnection.TargetPlatform e)
       (BridgeConnection.TargetChannelID e) (FormatMessage p message)
       (SendMessage p (BridgeConnection.TargetChannelID e)
          (FormatMessage p message))].
Proof.
  unfold sendRegularChecked, sendRegular.
  by destruct (SendMessage _ _ _).
Qed.

Lemma calls_bridgeTo_unreachable bc message e :
  reachable bc e = false → calls (bridgeTo bc message e) = [].
Proof.
  unfold reachable, bridgeTo. intros Hr.
  destruct (BridgeConnection.IsActive e); simpl in *; [|done].
  destruct (platforms bc !! BridgeConnection.TargetPlatform e) as [p|]; [|done].
  by rewrite Hr.
Qed.

Lemma calls_bridgeTo_reachable bc message e :
  reachable bc e = true →
  ∃ ev rest, calls (bridgeTo bc message e) = ev :: rest
    ∧ addressed (BridgeConnection.TargetPlatform e)
                (BridgeConnection.TargetChannelID e) ev.
Proof.
  unfold reachable, bridgeTo. intros Hr.
  destruct (BridgeConnection.IsActive e); simpl in *; [|done].
  destruct (platforms bc !! BridgeConnection.TargetPlatform e) as [p|]; [|done].
  rewrite Hr. simpl.
  assert (Hreg : ∃ ev rest, calls (sendRegularChecked p e message) = ev :: rest
            ∧ addressed (BridgeConnection.TargetPlatform e)
                        (BridgeConnection.TargetChannelID e) ev).
  { rewrite calls_sendRegularChecked. eexists _, _. split; [done|]. by simpl. }
  unfold calls.
  destruct (decide (BridgeConnection.TargetPlatform e = PlatformDiscord)) as [Hd|];
    [|rewrite filter_cons; simpl; exact Hreg].
  destruct p as [client| |]; try (rewrite filter_cons; simpl; exact Hreg).
  rewrite filter_cons. simpl. rewrite filter_cons. simpl.
  eexists _, _. split; [done|]. by simpl.
Qed.

Lemma ProcessMessage_events message bc :
  let routes := GetBridges (BridgeMessage.SourceChannelID message) bc in
  calls (events (ProcessMessage message bc))
  = routes ≫= (λ e, calls (bridgeTo bc message e)).
Proof.
  unfold ProcessMessage, GetBridges. simpl.
  destruct (default [] _) as [|e l]; [done|].
  simpl decide. cbv iota. simpl events.
  unfold calls at 1. rewrite !filter_cons. simpl.
  fold (calls (bridgeTo bc message e ++ (l ≫= bridgeTo bc message))).
  rewrite calls_app, calls_bind. done.
Qed.

Lemma ProcessMessage_err message bc : err (ProcessMessage message bc) = None.
Proof. unfold ProcessMessage. by case_decide. Qed.

Lemma ProcessMessage_core message bc : core (ProcessMessage message bc) = bc.
Proof. unfold ProcessMessage. by case_decide. Qed.

(** C9.  A message whose source channel has no route in the connection
    graph (no entry, or an entry that has become empty) makes
    [ProcessMessage] log one line and return [nil]: it calls no sending
    method of any adapter and leaves the core as it was. *)
Theorem ProcessMessage_without_routes message bc :
  GetBridges (BridgeMessage.SourceChannelID message) bc = [] →
  let o := ProcessMessage message bc in
  err o = None
  ∧ calls (events o) = []
  ∧ events o = [Log (NoBridgesConfigured (BridgeMessage.SourcePlatform message)
                       (BridgeMessage.SourceChannelID message))]
  ∧ core o = bc.
Proof.
  unfold GetBridges, ProcessMessage. intros ->. simpl. done.
Qed.

Lemma ProcessMessage_without_routes_witness :
  let o300 := ProcessMessage (hello "telegram" "300") quiet_core in
  let o400 := ProcessMessage (hello "telegram" "400") quiet_core in
  (err o300 = None ∧ calls (events o300) = [])
  ∧ (err o400 = None ∧ calls (events o400) = []).
Proof.
  split.
  - pose proof (ProcessMessage_without_routes (hello "telegram" "300") quiet_core
                  eq_refl) as H.
    split; apply H.
  - pose proof (ProcessMessage_without_routes (hello "telegram" "400") quiet_core
                  eq_refl) as H.
    split; apply H.
Defined.

(** C7.  [ProcessMessage] always returns [nil] and leaves the core alone.
    The sending calls it makes are those of the usable routes of the source
    channel, route after route: an active route whose target platform has no
    registered adapter, or an adapter that reports not connected, contributes
    no call, and every usable route contributes at least one call, the first
    of which is directed at that route's target, whatever the other routes
    are. *)
Theorem fanout_skips_unavailable_routes message bc :
  let o := ProcessMessage message bc in
  let routes := GetBridges (BridgeMessage.SourceChannelID message) bc in
  err o = None
  ∧ core o = bc
  ∧ calls (events o)
    = filter (λ e, reachable bc e) routes ≫= (λ e, calls (bridgeTo bc message e))
  ∧ (∀ e, e ∈ routes → reachable bc e = false →
       calls (bridgeTo bc message e) = [])
  ∧ (∀ e, e ∈ routes → reachable bc e = true →
       ∃ ev rest, calls (bridgeTo bc message e) = ev :: rest
         ∧ addressed (BridgeConnection.TargetPlatform e)
                     (BridgeConnection.TargetChannelID e) ev).
Proof.
  simpl. split; [apply ProcessMessage_err|].
  split; [apply ProcessMessage_core|].
  split.
  - rewrite ProcessMessage_events. simpl.
    apply bind_filter_nil. intros e _ Hr.
    apply calls_bridgeTo_unreachable. by destruct (reachable bc e).
  - split; intros e _ Hr.
    + by apply calls_bridgeTo_unreachable.
    + by apply calls_bridgeTo_reachable.
Qed.

(** The scenario of C7, on [two_routes_core]: the only call made is the one
    to the third platform, it succeeds, and the message is logged as bridged
    there. *)
Example fanout_with_one_target_down :
  ProcessMessage (hello "discord" "100") two_routes_core
  = mkOutcome two_routes_core
      [Log (Processing "discord" "100" "hello");
       Log (FoundConnections 2);
       Log (Attempting "discord" "telegram" "200");
       Log (TargetNotAvailable "telegram");
       Log (Attempting "discord" "matrix" "7");
       CallSendMessage "matrix" "7" "<bob> hello" None;
       Log (Bridged "discord" "matrix")]
      None.
Proof. vm_compute. reflexivity. Qed.

(** The fallback of the rich path.  Let [e] be an active route to Discord,
    served by a connected [DiscordAdapter] whose webhook send fails with
    [werr].  For this route
    [ProcessMessage] calls [SendBridgeMessage] once, logs the failure, then
    calls the generic [FormatMessage] and [SendMessage] exactly once, and
    goes on to the next route: the routes before and after [e] are handled
    as they are without it, and the method returns [nil].  (The error of the
    fallback send is dropped and the route is logged as bridged.) *)
Theorem rich_failure_falls_back_once message bc before e after client werr :
  GetBridges (BridgeMessage.SourceChannelID message) bc = before ++ e :: after →
  BridgeConnection.IsActive e = true →
  BridgeConnection.TargetPlatform e = PlatformDiscord →
  platforms bc !! PlatformDiscord = Some (Discord client) →
  DiscordAdapter.IsConnected client = true →
  DiscordAdapter.SendBridgeMessage client
    (BridgeConnection.TargetChannelID e) message = Some werr →
  let o := ProcessMessage message bc in
  let fallback :=
    CallSendMessage PlatformDiscord (BridgeConnection.TargetChannelID e)
      (DiscordAdapter.FormatMessage message)
      (DiscordAdapter.SendMessage client (BridgeConnection.TargetChannelID e)
         (DiscordAdapter.FormatMessage message)) in
  bridgeTo bc message e
  = [Log (Attempting (BridgeConnection.SourcePlatform e) PlatformDiscord
            (BridgeConnection.TargetChannelID e));
     CallSendBridgeMessage (BridgeConnection.TargetChannelID e) message (Some werr);
     Log (WebhookFailed werr);
     fallback;
     Log (Bridged (BridgeMessage.SourcePlatform message) PlatformDiscord)]
  ∧ events o
    = Log (Processing (BridgeMessage.SourcePlatform message)
             (BridgeMessage.SourceChannelID message)
             (BridgeMessage.Content message))
      :: Log (FoundConnections (length (before ++ e :: after)))
      :: (before ≫= bridgeTo bc message)
      ++ bridgeTo bc message e
      ++ (after ≫= bridgeTo bc message)
  ∧ calls (events o)
    = (before ≫= (λ x, calls (bridgeTo bc message x)))
      ++ [CallSendBridgeMessage (BridgeConnection.TargetChannelID e) message
            (Some werr); fallback]
      ++ (after ≫= (λ x, calls (bridgeTo bc message x)))
  ∧ err o = None.
Proof.
  intros Hroutes Hact Htp Hreg Hconn Hrich. simpl.
  assert (Hbody : bridgeTo bc message e
    = [Log (Attempting (BridgeConnection.SourcePlatform e) PlatformDiscord
              (BridgeConnection.TargetChannelID e));
       CallSendBridgeMessage (BridgeConnection.TargetChannelID e) message
         (Some werr);
       Log (WebhookFailed werr);
       CallSendMessage PlatformDiscord (BridgeConnection.TargetChannelID e)
         (DiscordAdapter.FormatMessage message)
         (DiscordAdapter.SendMessage client (BridgeConnection.TargetChannelID e)
            (DiscordAdapter.FormatMessage message));
       Log (Bridged (BridgeMessage.SourcePlatform message) PlatformDiscord)]).
  { unfold bridgeTo. rewrite Hact, Htp, Hreg. simpl negb. cbv iota.
    rewrite Hconn. simpl negb. cbv iota.
    rewrite decide_True by done. rewrite Hrich.
    rewrite sendRegular_events, Htp. done. }
  split; [exact Hbody|].
  split; [|split; [|apply ProcessMessage_err]].
  - unfold ProcessMessage. unfold GetBridges in Hroutes. rewrite Hroutes.
    rewrite decide_False by (rewrite length_app; simpl; lia).
    simpl. by rewrite bind_app, bind_cons.
  - rewrite ProcessMessage_events. simpl. rewrite Hroutes.
    rewrite bind_app, bind_cons, Hbody. done.
Qed.

(** The same on [rich_core]: the webhook fails, the fallback is tried
    once and fails too, and the Telegram route is served. *)
Lemma rich_failure_falls_back_once_witness :
  calls (events (ProcessMessage (hello "matrix" "5") rich_core))
  = [CallSendBridgeMessage "100" (hello "matrix" "5") (Some "HTTP 503");
     CallSendMessage "discord" "100" "[BRIDGE] **bob**: hello"
       (Some "error sending message to Discord: HTTP 500");
     CallSendMessage "telegram" "200" "[BRIDGE] @bob: hello" None].
Proof.
  pose proof (rich_failure_falls_back_once (hello "matrix" "5") rich_core []
    (newConnection "matrix" "5" "discord" "100" 1)
    [newConnection "matrix" "5" "telegram" "200" 2]
    flaky_discord "HTTP 503"
    eq_refl eq_refl eq_refl eq_refl eq_refl eq_refl) as (_ & _ & H & _).
  exact H.
Defined.

(** C8.  A failed fallback is not counted as a failure.  On [rich_core]
    channel "5" is routed to Discord channel "100", whose adapter fails
    the webhook send and the regular send alike, and then to Telegram chat
    "200".  For the Discord route [ProcessMessage] tries the webhook, logs
    its failure and falls back once to [FormatMessage] and [SendMessage];
    the error of that send is assigned and never read, so no failure is
    logged for the route: it is logged as bridged.  The Telegram route is
    then served and the method returns [nil].  The same failed send on the
    generic path, whose two branches check the error, is logged as a
    failure. *)
Example failed_fallback_is_logged_as_bridged :
  let message := hello "matrix" "5" in
  let o := ProcessMessage message rich_core in
  events o
  = [Log (Processing "matrix" "5" "hello");
     Log (FoundConnections 2);
     Log (Attempting "matrix" "discord" "100");
     CallSendBridgeMessage "100" message (Some "HTTP 503");
     Log (WebhookFailed "HTTP 503");
     CallSendMessage "discord" "100" "[BRIDGE] **bob**: hello"
       (Some "error sending message to Discord: HTTP 500");
     Log (Bridged "matrix" "discord");
     Log (Attempting "matrix" "telegram" "200");
     CallSendMessage "telegram" "200" "[BRIDGE] @bob: hello" None;
     Log (Bridged "matrix" "telegram")]
  ∧ err o = None
  ∧ sendRegularChecked (Discord flaky_discord)
      (newConnection "matrix" "5" "discord" "100" 1) message
    = [CallSendMessage "discord" "100" "[BRIDGE] **bob**: hello"
         (Some "error sending message to Discord: HTTP 500");
       Log (BridgeFailed "discord"
              "error sending message to Discord: HTTP 500")].
Proof. vm_compute. repeat split; reflexivity. Qed.

(** ** The connection graph under [AddBridge] and [RemoveBridge] *)

Lemma lookup_append_at `{Countable K} {V} (k k' : K) (x : V)
    (m : gmap K (list V)) :
  default [] (append_at k x m !! k')
  = default [] (m !! k') ++ (if decide (k = k') then [x] else []).
Proof.
  unfold append_at. destruct (decide (k = k')) as [->|Hne].
  - by rewrite lookup_insert_eq.
  - rewrite lookup_insert_ne by done. by rewrite app_nil_r.
Qed.

Lemma length_cut {A} (i : nat) (s : list A) :
  (i < length s)%nat → S (length (cut i s)) = length s.
Proof.
  intros Hi. unfold cut. rewrite length_app, length_take, length_drop. lia.
Qed.

Lemma cut_middle {A} (l r : list A) (x : A) : cut (length l) (l ++ x :: r) = l ++ r.
Proof.
  unfold cut. rewrite take_app_length.
  replace (S (length l)) with (length (l ++ [x])) by (rewrite length_app; simpl; lia).
  by rewrite (cons_middle x l r), app_assoc, drop_app_length.
Qed.

Lemma list_find_middle {A} (P : A → Prop) `{!∀ x, Decision (P x)}
    (l r : list A) (x : A) :
  (∀ y, y ∈ l → ¬ P y) → P x →
  list_find P (l ++ x :: r) = Some (length l, x).
Proof.
  intros Hl Hx. apply list_find_Some. split; [|split; [done|]].
  - by rewrite list_lookup_middle.
  - intros j y Hj Hlt. rewrite lookup_app_l in Hj by done.
    apply Hl. by eapply list_elem_of_lookup_2.
Qed.

Lemma list_find_none {A} (P : A → Prop) `{!∀ x, Decision (P x)} (l : list A) :
  (∀ y, y ∈ l → ¬ P y) → list_find P l = None.
Proof. intros Hl. apply list_find_None, Forall_forall. exact Hl. Qed.

(** What a successful [AddBridge] does to the graph, and that a failed one
    does nothing to it. *)
Lemma AddBridge_ok sp sc tp tc now bc :
  err (AddBridge sp sc tp tc now bc) = None →
  is_Some (platforms bc !! sp) ∧ is_Some (platforms bc !! tp)
  ∧ platforms (core (AddBridge sp sc tp tc now bc)) = platforms bc
  ∧ connections (core (AddBridge sp sc tp tc now bc))
    = append_at tc (newConnection tp tc sp sc now)
        (append_at sc (newConnection sp sc tp tc now) (connections bc)).
Proof.
  unfold AddBridge.
  destruct (platforms bc !! sp); [|done].
  destruct (platforms bc !! tp); [|done].
  destruct (db bc) as [d|].
  - destruct (saveBridgeToDatabase sp sc tp tc now d) as [[e|] d']; [done|].
    simpl. eauto.
  - simpl. eauto.
Qed.

Lemma AddBridge_failed sp sc tp tc now bc e :
  err (AddBridge sp sc tp tc now bc) = Some e →
  connections (core (AddBridge sp sc tp tc now bc)) = connections bc.
Proof.
  unfold AddBridge.
  destruct (platforms bc !! sp); [|done].
  destruct (platforms bc !! tp); [|done].
  destruct (db bc) as [d|].
  - by destruct (saveBridgeToDatabase sp sc tp tc now d) as [[e'|] d'].
  - done.
Qed.

Lemma AddBridge_persisted sp sc tp tc now bc :
  is_Some (platforms bc !! sp) → is_Some (platforms bc !! tp) →
  match db bc with
  | Some d => (saveBridgeToDatabase sp sc tp tc now d).1 = None
  | None => True
  end →
  err (AddBridge sp sc tp tc now bc) = None.
Proof.
  unfold AddBridge. intros [? ->] [? ->].
  destruct (db bc) as [d|]; [|done].
  destruct (saveBridgeToDatabase sp sc tp tc now d) as [[e'|] d']; [done|].
  done.
Qed.

Lemma GetBridges_AddBridge sp sc tp tc now bc c :
  err (AddBridge sp sc tp tc now bc) = None →
  GetBridges c (core (AddBridge sp sc tp tc now bc))
  = GetBridges c bc
    ++ (if decide (sc = c) then [newConnection sp sc tp tc now] else [])
    ++ (if decide (tc = c) then [newConnection tp tc sp sc now] else []).
Proof.
  intros Hok. destruct (AddBridge_ok _ _ _ _ _ _ Hok) as (_ & _ & _ & Hg).
  unfold GetBridges. rewrite Hg. by rewrite !lookup_append_at, <-app_assoc.
Qed.

Lemma RemoveBridge_found c P now bc conns i conn :
  connections bc !! c = Some conns →
  list_find (λ conn, BridgeConnection.TargetPlatform conn = P) conns
    = Some (i, conn) →
  err (RemoveBridge c P now bc) = None
  ∧ connections (core (RemoveBridge c P now bc))
    = unlinked c i conns conn (connections bc).
Proof.
  intros Hc Hfind. unfold RemoveBridge. rewrite Hc, Hfind.
  split; [done|]. simpl.
  destruct (db bc) as [d|]; simpl.
  - destruct (removeBridgeFromDatabase _ _ _ _ _) as [e d']. simpl.
    unfold unlinked. by destruct (list_find _ _) as [[j ?]|].
  - unfold unlinked. by destruct (list_find _ _) as [[j ?]|].
Qed.

Lemma unlinked_shrinks c i conns conn g :
  g !! c = Some conns → conns !! i = Some conn →
  (length (default [] (unlinked c i conns conn g !! c)) < length conns)%nat.
Proof.
  intros Hc Hi. apply lookup_lt_Some in Hi as Hlt.
  pose proof (length_cut i conns Hlt) as Hcut.
  unfold unlinked.
  destruct (list_find _ _) as [[j x]|] eqn:Hfind.
  - destruct (decide (BridgeConnection.TargetChannelID conn = c)) as [Heq|Hne].
    + rewrite Heq in *. rewrite lookup_insert_eq in Hfind. simpl in Hfind.
      rewrite !lookup_insert_eq. simpl.
      apply list_find_Some in Hfind as (Hj & _).
      apply lookup_lt_Some in Hj.
      pose proof (length_cut j (cut i conns) Hj). lia.
    + rewrite lookup_insert_ne by done. rewrite lookup_insert_eq. simpl. lia.
  - rewrite lookup_insert_eq. simpl. lia.
Qed.

(** C3.  A successful [AddBridge(A, c1, B, c2)] was given two registered
    platforms and leaves in [GetBridges(c1)] an active edge from (A, c1) to
    (B, c2) and in [GetBridges(c2)] an active edge from (B, c2) to (A, c1). *)
Theorem AddBridge_bidirectional A c1 B c2 now bc :
  err (AddBridge A c1 B c2 now bc) = None →
  let bc' := core (AddBridge A c1 B c2 now bc) in
  (is_Some (platforms bc !! A) ∧ is_Some (platforms bc !! B))
  ∧ (∃ e, e ∈ GetBridges c1 bc' ∧ leaves A c1 e ∧ targets B c2 e
          ∧ BridgeConnection.IsActive e = true)
  ∧ (∃ e, e ∈ GetBridges c2 bc' ∧ leaves B c2 e ∧ targets A c1 e
          ∧ BridgeConnection.IsActive e = true).
Proof.
  intros Hok. simpl.
  split; [destruct (AddBridge_ok _ _ _ _ _ _ Hok) as (? & ? & _); done|].
  split.
  - exists (newConnection A c1 B c2 now). split; [|done].
    rewrite GetBridges_AddBridge by done. rewrite decide_True by done.
    set_solver.
  - exists (newConnection B c2 A c1 now). split; [|done].
    rewrite GetBridges_AddBridge by done. rewrite (decide_True (P:=c2 = c2)) by done.
    set_solver.
Qed.

Lemma AddBridge_bidirectional_witness :
  let bc' := core (AddBridge "discord" "100" "telegram" "200" 5
                     (started (Some (empty_store no_faults)))) in
  (∃ e, e ∈ GetBridges "100" bc' ∧ targets "telegram" "200" e)
  ∧ (∃ e, e ∈ GetBridges "200" bc' ∧ targets "discord" "100" e).
Proof.
  destruct (AddBridge_bidirectional "discord" "100" "telegram" "200" 5
              (started (Some (empty_store no_faults))) eq_refl)
    as (_ & (e1 & H1 & _ & T1 & _) & (e2 & H2 & _ & T2 & _)).
  split; [exists e1 | exists e2]; done.
Defined.

(** C5.  When no edge of [GetBridges(c)] targets platform [P],
    [RemoveBridge(c, P)] returns one of its two not-found errors and the
    core, graph and store included, is what it was: no statement is sent to
    the store. *)
Theorem RemoveBridge_not_found c P now bc :
  (∀ e, e ∈ GetBridges c bc → BridgeConnection.TargetPlatform e ≠ P) →
  let o := RemoveBridge c P now bc in
  core o = bc
  ∧ events o = []
  ∧ (err o = Some ("no bridges found for channel " +:+ c)
     ∨ err o = Some ("bridge to " +:+ P +:+ " not found for channel " +:+ c)).
Proof.
  unfold GetBridges, RemoveBridge. intros Hnone.
  destruct (connections bc !! c) as [conns|]; simpl in *; [|by eauto].
  rewrite list_find_none by exact Hnone. simpl. by eauto.
Qed.

Lemma RemoveBridge_not_found_witness :
  let bc := core (AddBridge "discord" "100" "telegram" "200" 5
                    (started (Some (empty_store no_faults)))) in
  (core (RemoveBridge "100" "discord" 6 bc) = bc
   ∧ err (RemoveBridge "100" "discord" 6 bc)
     = Some "bridge to discord not found for channel 100")
  ∧ (core (RemoveBridge "300" "telegram" 6 bc) = bc
     ∧ err (RemoveBridge "300" "telegram" 6 bc)
       = Some "no bridges found for channel 300").
Proof.
  set (bc := core (AddBridge "discord" "100" "telegram" "200" 5
                     (started (Some (empty_store no_faults))))).
  cbv zeta. split.
  - assert (H : ∀ e, e ∈ GetBridges "100" bc →
                     BridgeConnection.TargetPlatform e ≠ "discord").
    { intros e He. vm_compute in He.
      apply list_elem_of_singleton in He. by subst. }
    split; [apply (RemoveBridge_not_found "100" "discord" 6 bc H)|].
    reflexivity.
  - assert (H : ∀ e, e ∈ GetBridges "300" bc →
                     BridgeConnection.TargetPlatform e ≠ "telegram").
    { intros e He. vm_compute in He. by apply elem_of_nil in He. }
    split; [apply (RemoveBridge_not_found "300" "telegram" 6 bc H)|].
    reflexivity.
Defined.

Lemma addressed_call_of_reachable bc message l e :
  e ∈ l → reachable bc e = true →
  (1 ≤ length (filter (addressed (BridgeConnection.TargetPlatform e)
                                 (BridgeConnection.TargetChannelID e))
                      (l ≫= (λ x, calls (bridgeTo bc message x)))))%nat.
Proof.
  intros He Hr. apply list_elem_of_split in He as (l1 & l2 & ->).
  destruct (calls_bridgeTo_reachable bc message e Hr) as (ev & rest & Hev & Haddr).
  rewrite bind_app, bind_cons, Hev, filter_app, length_app.
  simpl. rewrite filter_cons_True by done. simpl. lia.
Qed.

(** C10.  [AddBridge] does not look for an existing edge.  In a state whose
    graph already holds an active edge (sp, sc) to (tp, tc) and the edge
    back, a further [AddBridge(sp, sc, tp, tc)] with both platforms
    registered and the store accepting the write succeeds and appends a
    forward and a reverse edge with the same identifier, end points and
    flag as those of any earlier [AddBridge] of the pair.  [GetBridges(sc)]
    then holds at least two edges to (tp, tc), [GetBridges(tc)] at least two
    edges to (sp, sc), and, the target adapter being connected, the fan-out
    of a message from [sc] makes at least two calls directed at (tp, tc). *)
Theorem AddBridge_again_duplicates sp sc tp tc now bc fwd0 rev0 p message :
  fwd0 ∈ GetBridges sc bc → targets tp tc fwd0 →
  BridgeConnection.IsActive fwd0 = true →
  rev0 ∈ GetBridges tc bc → targets sp sc rev0 →
  is_Some (platforms bc !! sp) → platforms bc !! tp = Some p →
  match db bc with
  | Some d => (saveBridgeToDatabase sp sc tp tc now d).1 = None
  | None => True
  end →
  IsConnected p = true →
  BridgeMessage.SourceChannelID message = sc →
  let o := AddBridge sp sc tp tc now bc in
  let fwd := newConnection sp sc tp tc now in
  let rev := newConnection tp tc sp sc now in
  err o = None
  ∧ GetBridges sc (core o)
    = GetBridges sc bc ++ [fwd] ++ (if decide (tc = sc) then [rev] else [])
  ∧ GetBridges tc (core o)
    = GetBridges tc bc ++ (if decide (sc = tc) then [fwd] else []) ++ [rev]
  ∧ (2 ≤ length (filter (targets tp tc) (GetBridges sc (core o))))%nat
  ∧ (2 ≤ length (filter (targets sp sc) (GetBridges tc (core o))))%nat
  ∧ (2 ≤ length (filter (addressed tp tc)
                   (calls (events (ProcessMessage message (core o))))))%nat.
Proof.
  intros Hfwd0 Tfwd0 Afwd0 Hrev0 Trev0 Hsp Htp Hsave Hconn Hsrc. simpl.
  assert (Hok : err (AddBridge sp sc tp tc now bc) = None).
  { apply AddBridge_persisted; [done|by eexists|done]. }
  pose proof (GetBridges_AddBridge sp sc tp tc now bc sc Hok) as Hsc.
  pose proof (GetBridges_AddBridge sp sc tp tc now bc tc Hok) as Htc.
  rewrite (decide_True (P:=sc = sc)) in Hsc by done.
  rewrite (decide_True (P:=tc = tc)) in Htc by done.
  split; [done|]. split; [done|]. split; [done|].
  apply list_elem_of_split in Hfwd0 as Hs1. destruct Hs1 as (a1 & a2 & Ha).
  apply list_elem_of_split in Hrev0 as Hs2. destruct Hs2 as (b1 & b2 & Hb).
  split; [|split].
  - rewrite Hsc, Ha. rewrite !filter_app, !length_app.
    rewrite filter_cons_True by done.
    rewrite (filter_cons_True _ (newConnection sp sc tp tc now)) by done.
    simpl. lia.
  - rewrite Htc, Hb. rewrite !filter_app, !length_app.
    rewrite filter_cons_True by done.
    rewrite (filter_cons_True _ (newConnection tp tc sp sc now)) by done.
    simpl. lia.
  - rewrite ProcessMessage_events. simpl. rewrite Hsrc, Hsc.
    destruct (AddBridge_ok _ _ _ _ _ _ Hok) as (_ & _ & Hplat & _).
    set (bc' := core (AddBridge sp sc tp tc now bc)) in *.
    assert (Hr0 : reachable bc' fwd0 = true).
    { unfold reachable. destruct Tfwd0 as [-> _].
      by rewrite Afwd0, Hplat, Htp. }
    assert (Hr1 : reachable bc' (newConnection sp sc tp tc now) = true).
    { unfold reachable. simpl. by rewrite Hplat, Htp. }
    rewrite bind_app, filter_app, length_app.
    pose proof (addressed_call_of_reachable bc' message (GetBridges sc bc)
                  fwd0 Hfwd0 Hr0) as H0.
    destruct Tfwd0 as [Tp Tc]. rewrite Tp, Tc in H0.
    pose proof (addressed_call_of_reachable bc' message
                  ([newConnection sp sc tp tc now]
                     ++ (if decide (tc = sc)
                         then [newConnection tp tc sp sc now] else []))
                  (newConnection sp sc tp tc now)
                  ltac:(set_solver) Hr1) as H1.
    simpl in H1. simpl. lia.
Qed.

Lemma AddBridge_again_duplicates_witness :
  let bc := core (AddBridge "discord" "100" "telegram" "200" 5
                    (started (Some (empty_store no_faults)))) in
  let o := AddBridge "discord" "100" "telegram" "200" 6 bc in
  err o = None
  ∧ GetBridges "100" (core o)
    = [newConnection "discord" "100" "telegram" "200" 5;
       newConnection "discord" "100" "telegram" "200" 6]
  ∧ (2 ≤ length (filter (addressed "telegram" "200")
                   (calls (events (ProcessMessage (hello "discord" "100")
                                     (core o))))))%nat.
Proof.
  set (bc := core (AddBridge "discord" "100" "telegram" "200" 5
                     (started (Some (empty_store no_faults))))).
  cbv zeta.
  pose proof (AddBridge_again_duplicates "discord" "100" "telegram" "200" 6 bc
    (newConnection "discord" "100" "telegram" "200" 5)
    (newConnection "telegram" "200" "discord" "100" 5)
    (Telegram up_telegram) (hello "discord" "100")
    ltac:(vm_compute; left) ltac:(done) eq_refl
    ltac:(vm_compute; left) ltac:(done)
    ltac:(by eexists) eq_refl
    ltac:(vm_compute; reflexivity) eq_refl eq_refl)
    as (H1 & H2 & _ & _ & _ & H6).
  split; [exact H1|]. split; [exact H2|exact H6].
Defined.

(** C2, as the code has it.  When the store write of [AddBridge] fails, the
    method returns that error, wrapped, and the graph is what it was.
    [RemoveBridge] unlinks the edges in memory before it turns to the
    store: when the store write then fails, the failure is logged, the
    method returns [nil], and the graph is the one a core without a store
    is left with, which is no longer the graph before the call. *)
Theorem store_failure_on_add_and_on_remove
    sp sc tp tc now bc d e d'
    c P now' bc' conns i conn dr er dr' :
  is_Some (platforms bc !! sp) → is_Some (platforms bc !! tp) →
  db bc = Some d →
  saveBridgeToDatabase sp sc tp tc now d = (Some e, d') →
  connections bc' !! c = Some conns →
  list_find (λ x, BridgeConnection.TargetPlatform x = P) conns = Some (i, conn) →
  db bc' = Some dr →
  removeBridgeFromDatabase (BridgeConnection.SourcePlatform conn) c P now' dr
    = (Some er, dr') →
  let added := AddBridge sp sc tp tc now bc in
  let removed := RemoveBridge c P now' bc' in
  (err added = Some ("failed to save bridge to database: " +:+ e)
   ∧ connections (core added) = connections bc)
  ∧ (err removed = None
     ∧ Log (RemoveFromDatabaseFailed er) ∈ events removed
     ∧ connections (core removed)
       = connections (core (RemoveBridge c P now' (without_db bc')))
     ∧ connections (core removed) ≠ connections bc').
Proof.
  intros [? Hsp] [? Htp] Hdb Hsave Hc Hfind Hdb' Hrm. simpl.
  split.
  - assert (Herr : err (AddBridge sp sc tp tc now bc)
                   = Some ("failed to save bridge to database: " +:+ e)).
    { unfold AddBridge. by rewrite Hsp, Htp, Hdb, Hsave. }
    split; [done|]. by eapply AddBridge_failed.
  - destruct (RemoveBridge_found c P now' bc' conns i conn Hc Hfind) as [He Hg].
    destruct (RemoveBridge_found c P now' (without_db bc') conns i conn Hc Hfind)
      as [_ Hg'].
    split; [done|]. split; [|split].
    + unfold RemoveBridge. rewrite Hc, Hfind. simpl. rewrite Hdb', Hrm. simpl.
      set_solver.
    + by rewrite Hg, Hg'.
    + rewrite Hg. intros Heq.
      apply list_find_Some in Hfind as (Hi & _).
      pose proof (unlinked_shrinks c i conns conn (connections bc') Hc Hi) as Hlt.
      rewrite Heq, Hc in Hlt. simpl in Hlt. lia.
Qed.

(** The store of the scenarios below has answered the query of the startup
    rebuild (statement 0).  In the first it fails on statement 1, the first
    of [AddBridge]; in the second on statement 9, the first of
    [RemoveBridge]. *)
Lemma store_failure_on_add_and_on_remove_witness :
  let bc := started (Some (empty_store (fault_at 1 "disk I/O error"))) in
  let bc' := core (AddBridge "discord" "100" "telegram" "200" 5
                     (started (Some (empty_store (fault_at 9 "disk I/O error"))))) in
  (err (AddBridge "discord" "100" "telegram" "200" 5 bc)
   = Some "failed to save bridge to database: failed to create/get room: failed to query room: disk I/O error"
   ∧ connections (core (AddBridge "discord" "100" "telegram" "200" 5 bc))
     = connections bc)
  ∧ (err (RemoveBridge "100" "telegram" 9 bc') = None
     ∧ connections (core (RemoveBridge "100" "telegram" 9 bc')) ≠ connections bc').
Proof.
  set (bc := started (Some (empty_store (fault_at 1 "disk I/O error")))).
  set (bc' := core (AddBridge "discord" "100" "telegram" "200" 5
                 (started (Some (empty_store (fault_at 9 "disk I/O error")))))).
  cbv zeta.
  set (d := database.sent (empty_store (fault_at 1 "disk I/O error"))).
  set (dr := default d (db bc')).
  set (conn := newConnection "discord" "100" "telegram" "200" 5).
  pose proof (store_failure_on_add_and_on_remove
    "discord" "100" "telegram" "200" 5 bc d
    "failed to create/get room: failed to query room: disk I/O error"
    (saveBridgeToDatabase "discord" "100" "telegram" "200" 5 d).2
    "100" "telegram" 9 bc' [conn] 0%nat conn dr
    "source room mapping not found: disk I/O error"
    (removeBridgeFromDatabase "discord" "100" "telegram" 9 dr).2
    ltac:(by eexists) ltac:(by eexists) eq_refl
    ltac:(vm_compute; reflexivity)
    ltac:(vm_compute; reflexivity) ltac:(vm_compute; reflexivity)
    ltac:(vm_compute; reflexivity) ltac:(vm_compute; reflexivity))
    as [[H1 H2] (H3 & _ & _ & H4)].
  split; [split; [exact H1|exact H2]|split; [exact H3|exact H4]].
Defined.

(** C2, the counterexample: the edge from channel "100" to Telegram is in
    the graph, the store fails on the statement [RemoveBridge] sends, and
    yet the method returns [nil] and the edges are gone. *)
Lemma RemoveBridge_store_failure_counterexample :
  let bc := core (AddBridge "discord" "100" "telegram" "200" 5
                    (started (Some (empty_store (fault_at 9 "disk I/O error"))))) in
  let o := RemoveBridge "100" "telegram" 9 bc in
  (db bc ≫= λ d, (removeBridgeFromDatabase "discord" "100" "telegram" 9 d).1)
  = Some "source room mapping not found: disk I/O error"
  ∧ err o = None
  ∧ events o
    = [Log (RemoveFromDatabaseFailed "source room mapping not found: disk I/O error");
       Log (BridgeRemoved "discord" "100" "telegram" "200")]
  ∧ GetBridges "100" bc = [newConnection "discord" "100" "telegram" "200" 5]
  ∧ GetBridges "200" bc = [newConnection "telegram" "200" "discord" "100" 5]
  ∧ GetBridges "100" (core o) = []
  ∧ GetBridges "200" (core o) = [].
Proof. cbv zeta. conjuncts; evaluate. Qed.

(** C4, as the code has it.  [RemoveBridge(c1, B)] unlinks one forward
    edge, the first of [GetBridges(c1)] that targets platform [B], and one
    edge back.  So when, before [AddBridge(A, c1, B, c2)], [GetBridges(c1)]
    holds no edge to platform [B] and [GetBridges(c2)] no edge to platform
    [A] (a graph without the two channels, for one), the [RemoveBridge] that
    follows the successful [AddBridge] returns [nil] and takes both
    directions away: the two lists are what they were before the pair of
    calls, without any edge to [B] in the first and to [A] in the second. *)
Theorem RemoveBridge_after_AddBridge A c1 B c2 t1 t2 bc :
  (∀ e, e ∈ GetBridges c1 bc → BridgeConnection.TargetPlatform e ≠ B) →
  (∀ e, e ∈ GetBridges c2 bc → BridgeConnection.TargetPlatform e ≠ A) →
  err (AddBridge A c1 B c2 t1 bc) = None →
  let o := RemoveBridge c1 B t2 (core (AddBridge A c1 B c2 t1 bc)) in
  err o = None
  ∧ (∀ e, e ∈ GetBridges c1 (core o) → BridgeConnection.TargetPlatform e ≠ B)
  ∧ (∀ e, e ∈ GetBridges c2 (core o) → BridgeConnection.TargetPlatform e ≠ A)
  ∧ GetBridges c1 (core o) = GetBridges c1 bc
  ∧ GetBridges c2 (core o) = GetBridges c2 bc.
Proof.
  intros HnoB HnoA Hok. cbv zeta.
  set (bc1 := core (AddBridge A c1 B c2 t1 bc)).
  set (fwd := newConnection A c1 B c2 t1).
  set (rev := newConnection B c2 A c1 t1).
  set (l1 := GetBridges c1 bc) in *.
  set (l2 := GetBridges c2 bc) in *.
  pose proof (GetBridges_AddBridge A c1 B c2 t1 bc c1 Hok) as H1.
  pose proof (GetBridges_AddBridge A c1 B c2 t1 bc c2 Hok) as H2.
  rewrite (decide_True (P:=c1 = c1)) in H1 by done.
  rewrite (decide_True (P:=c2 = c2)) in H2 by done.
  fold bc1 fwd rev l1 in H1. fold bc1 fwd rev l2 in H2.
  set (r1 := if decide (c2 = c1) then [rev] else []) in *.
  assert (Hc1 : connections bc1 !! c1 = Some (l1 ++ fwd :: r1)).
  { destruct (AddBridge_ok _ _ _ _ _ _ Hok) as (_ & _ & _ & Hg).
    fold bc1 fwd rev in Hg. unfold GetBridges in H1.
    destruct (connections bc1 !! c1) as [x|] eqn:Hx.
    - simpl in H1. by rewrite H1.
    - simpl in H1. by destruct l1. }
  assert (Hfind : list_find (λ x, BridgeConnection.TargetPlatform x = B)
                    (l1 ++ fwd :: r1) = Some (length l1, fwd)).
  { by apply list_find_middle. }
  destruct (RemoveBridge_found c1 B t2 bc1 _ _ _ Hc1 Hfind) as [Herr Hg].
  split; [done|].
  assert (Hlists : GetBridges c1 (core (RemoveBridge c1 B t2 bc1)) = l1
                   ∧ GetBridges c2 (core (RemoveBridge c1 B t2 bc1)) = l2).
  { unfold GetBridges at 1 2. rewrite Hg. unfold unlinked.
    rewrite cut_middle. change (BridgeConnection.TargetChannelID fwd) with c2.
    change (BridgeConnection.SourcePlatform fwd) with A.
    destruct (decide (c2 = c1)) as [->|Hne].
    - subst r1. rewrite decide_True in H2 by done.
      rewrite lookup_insert_eq. simpl.
      rewrite (list_find_middle _ l1 [] rev) by (try done; intros y Hy [_ Hp];
        by apply (HnoA y)).
      rewrite cut_middle, app_nil_r, !lookup_insert_eq. done.
    - subst r1. rewrite decide_False in H2 by done. simpl in H2.
      rewrite lookup_insert_ne by done.
      unfold GetBridges in H2. fold bc1.
      assert (Hc2 : connections bc1 !! c2 = Some (l2 ++ [rev])).
      { destruct (connections bc1 !! c2) as [x|] eqn:Hx.
        - simpl in H2. by rewrite H2.
        - simpl in H2. by destruct l2. }
      rewrite Hc2. simpl.
      rewrite (list_find_middle _ l2 [] rev) by (try done; intros y Hy [_ Hp];
        by apply (HnoA y)).
      rewrite cut_middle, app_nil_r.
      rewrite lookup_insert_eq, lookup_insert_ne, lookup_insert_eq by done.
      by rewrite app_nil_r. }
  destruct Hlists as [-> ->]. done.
Qed.

Lemma RemoveBridge_after_AddBridge_witness :
  let bc := started (Some (empty_store no_faults)) in
  let o := RemoveBridge "100" "telegram" 6
             (core (AddBridge "discord" "100" "telegram" "200" 5 bc)) in
  err o = None ∧ GetBridges "100" (core o) = [] ∧ GetBridges "200" (core o) = [].
Proof.
  set (bc := started (Some (empty_store no_faults))). cbv zeta.
  assert (H1 : ∀ e, e ∈ GetBridges "100" bc →
                    BridgeConnection.TargetPlatform e ≠ "telegram").
  { intros e He. vm_compute in He. by apply elem_of_nil in He. }
  assert (H2 : ∀ e, e ∈ GetBridges "200" bc →
                    BridgeConnection.TargetPlatform e ≠ "discord").
  { intros e He. vm_compute in He. by apply elem_of_nil in He. }
  pose proof (RemoveBridge_after_AddBridge "discord" "100" "telegram" "200" 5 6
                bc H1 H2 ltac:(evaluate)) as (E & _ & _ & G1 & G2).
  split; [exact E|]. split; [exact G1|exact G2].
Defined.

(** C4, the counterexample: the bridge is added twice (the second call is
    the one of C10), then removed once; an edge to Telegram is still in
    [GetBridges("100")] and an edge to Discord in [GetBridges("200")]. *)
Lemma RemoveBridge_leaves_duplicate_counterexample :
  let bc := core (AddBridge "discord" "100" "telegram" "200" 5
                    (started (Some (empty_store no_faults)))) in
  let added := AddBridge "discord" "100" "telegram" "200" 6 bc in
  let removed := RemoveBridge "100" "telegram" 7 (core added) in
  err added = None
  ∧ err removed = None
  ∧ GetBridges "100" (core removed)
    = [newConnection "discord" "100" "telegram" "200" 6]
  ∧ GetBridges "200" (core removed)
    = [newConnection "telegram" "200" "discord" "100" 6]
  ∧ Exists (λ e, BridgeConnection.TargetPlatform e = "telegram")
           (GetBridges "100" (core removed))
  ∧ Exists (λ e, BridgeConnection.TargetPlatform e = "discord")
           (GetBridges "200" (core removed)).
Proof.
  cbv zeta. conjuncts; try evaluate.
  - apply Exists_exists. eexists. split; [vm_compute; left|reflexivity].
  - apply Exists_exists. eexists. split; [vm_compute; left|reflexivity].
Qed.

(** The scenario of the specification, evaluated: with the two adapters
    registered and the bridge added, a message from Discord channel "100"
    makes one call, to Telegram chat "200", with the sender's name behind
    the platform tag; once the bridge is removed the same message makes
    none. *)
Example add_send_remove_send :
  let added := AddBridge "discord" "100" "telegram" "200" 5
                 (started (Some (empty_store no_faults))) in
  let sent := ProcessMessage (hello "discord" "100") (core added) in
  let removed := RemoveBridge "100" "telegram" 6 (core added) in
  let resent := ProcessMessage (hello "discord" "100") (core removed) in
  err added = None
  ∧ calls (events sent)
    = [CallSendMessage "telegram" "200" "[DISCORD] @bob: hello" None]
  ∧ err removed = None
  ∧ calls (events resent) = [].
Proof. cbv zeta. conjuncts; evaluate. Qed.

(** ** The multimaps *)

Section multimap.
Context `{Countable K} {V : Type}.
Implicit Types (m : gmap K (list V)) (l : list V) (k : K) (x : V).

Lemma is_Some_append_at k k' x m :
  is_Some (append_at k x m !! k') ↔ k = k' ∨ is_Some (m !! k').
Proof.
  unfold append_at. destruct (decide (k = k')) as [->|Hne].
  - rewrite lookup_insert_eq. split; [by left|by eexists].
  - rewrite lookup_insert_ne by done. split; [by right|]. by intros [?|?].
Qed.

Lemma lookup_group (key : V → K) l m k :
  default [] (group key l m !! k)
  = default [] (m !! k) ++ filter (λ x, key x = k) l.
Proof.
  revert m. induction l as [|x l IH]; intros m; simpl.
  - by rewrite app_nil_r.
  - fold (group key l (append_at (key x) x m)).
    rewrite IH, lookup_append_at, filter_cons, <-app_assoc.
    by destruct (decide (key x = k)).
Qed.

Lemma is_Some_group (key : V → K) l m k :
  is_Some (group key l m !! k) ↔ is_Some (m !! k) ∨ k ∈ key <$> l.
Proof.
  revert m. induction l as [|x l IH]; intros m; simpl.
  - rewrite elem_of_nil. tauto.
  - fold (group key l (append_at (key x) x m)).
    rewrite IH, is_Some_append_at, elem_of_cons.
    intuition congruence.
Qed.

Lemma group_empty_lookup (key : V → K) l k :
  group key l ∅ !! k
  = if decide (k ∈ key <$> l) then Some (filter (λ x, key x = k) l) else None.
Proof.
  pose proof (lookup_group key l ∅ k) as Hl.
  pose proof (is_Some_group key l ∅ k) as Hs.
  rewrite lookup_empty in Hl, Hs. simpl in Hl.
  destruct (decide (k ∈ key <$> l)) as [Hin|Hin].
  - destruct Hs as [_ [v Hv]]; [by right|]. rewrite Hv in Hl |- *.
    simpl in Hl. by rewrite Hl.
  - apply eq_None_not_Some. intros Hsome. apply Hs in Hsome as [[? ?]|?]; done.
Qed.

Lemma elems_append_at k x m : elems (append_at k x m) ≡ₚ elems m ++ [x].
Proof.
  unfold elems, append_at. destruct (m !! k) as [v|] eqn:Hk; simpl.
  - rewrite <-(map_to_list_delete m k v Hk).
    rewrite <-(insert_delete_eq m k (v ++ [x])).
    rewrite map_to_list_insert by apply lookup_delete_eq. simpl.
    rewrite <-!app_assoc. apply Permutation_app_head, Permutation_app_comm.
  - rewrite map_to_list_insert by done. simpl.
    apply (Permutation_app_comm [x]).
Qed.

Lemma elems_group (key : V → K) l m : elems (group key l m) ≡ₚ elems m ++ l.
Proof.
  revert m. induction l as [|x l IH]; intros m; simpl.
  - by rewrite app_nil_r.
  - fold (group key l (append_at (key x) x m)).
    by rewrite IH, elems_append_at, <-app_assoc.
Qed.

Lemma elems_empty : elems (∅ : gmap K (list V)) = [].
Proof. unfold elems. by rewrite map_to_list_empty. Qed.

(** The entries of a multimap filled from [l]: one per key, with the
    elements of that key in the order of [l]. *)
Lemma map_to_list_group (key : V → K) l :
  map_to_list (group key l ∅)
  ≡ₚ (λ k, (k, filter (λ x, key x = k) l)) <$> remove_dups (key <$> l).
Proof.
  apply NoDup_Permutation.
  - apply NoDup_map_to_list.
  - apply NoDup_fmap_2_strong; [|apply NoDup_remove_dups].
    by intros k k' _ _ [= ->].
  - intros [k v]. rewrite elem_of_map_to_list, group_empty_lookup. split.
    + destruct (decide (k ∈ key <$> l)) as [Hin|Hin]; [|done].
      intros [= <-]. apply list_elem_of_fmap. exists k.
      split; [done|]. by apply elem_of_remove_dups.
    + intros (k' & [= -> ->] & Hin)%list_elem_of_fmap.
      rewrite elem_of_remove_dups in Hin. by rewrite decide_True.
Qed.

End multimap.

(** ** Loops and list comprehensions *)

Lemma foldl_ext_in {A B} (f g : A → B → A) (l : list B) (a : A) :
  (∀ a x, x ∈ l → f a x = g a x) → foldl f a l = foldl g a l.
Proof.
  revert a. induction l as [|x l IH]; intros a Hfg; [done|]. simpl.
  rewrite Hfg by left. apply IH. intros a' y Hy. apply Hfg. by right.
Qed.

Lemma foldl_bind {A B C} (f : A → B → A) (g : C → list B) (l : list C) (a : A) :
  foldl f a (l ≫= g) = foldl (λ a x, foldl f a (g x)) a l.
Proof.
  revert a. induction l as [|x l IH]; intros a; [done|].
  rewrite bind_cons, foldl_app, IH. done.
Qed.

Lemma bind_imap_ext {A B C} (f : nat → A → B) (F : B → list C)
    (G : A → list C) (l : list A) :
  (∀ i x, l !! i = Some x → F (f i x) = G x) →
  imap f l ≫= F = l ≫= G.
Proof.
  revert f. induction l as [|x l IH]; intros f Hfg; [done|].
  rewrite imap_cons, !bind_cons. rewrite (Hfg 0%nat x) by done.
  f_equal. apply IH. intros i y Hy. apply (Hfg (S i)). done.
Qed.

Lemma bind_ext_in {A B} (f g : A → list B) (l : list A) :
  (∀ x, x ∈ l → f x = g x) → l ≫= f = l ≫= g.
Proof.
  induction l as [|x l IH]; intros Hfg; [done|].
  rewrite !bind_cons, Hfg by left. f_equal. apply IH.
  intros y Hy. apply Hfg. by right.
Qed.

Lemma bind_perm_in {A B} (f g : A → list B) (l : list A) :
  (∀ x, x ∈ l → f x ≡ₚ g x) → l ≫= f ≡ₚ l ≫= g.
Proof.
  induction l as [|x l IH]; intros Hfg; [done|].
  rewrite !bind_cons. rewrite Hfg by left. apply Permutation_app_head, IH.
  intros y Hy. apply Hfg. by right.
Qed.

Lemma bind_all_nil {A B} (f : A → list B) (l : list A) :
  (∀ x, x ∈ l → f x = []) → l ≫= f = [].
Proof.
  induction l as [|x l IH]; intros Hf; [done|].
  rewrite bind_cons, Hf by left. simpl. apply IH.
  intros y Hy. apply Hf. by right.
Qed.

Lemma bind_filter {A B} (P : A → Prop) `{!∀ x, Decision (P x)}
    (f : A → list B) (l : list A) :
  filter P l ≫= f = l ≫= (λ x, if decide (P x) then f x else []).
Proof.
  induction l as [|x l IH]; [done|].
  rewrite filter_cons, bind_cons.
  destruct (decide (P x)); [by rewrite bind_cons, IH|by rewrite IH].
Qed.

Lemma bind_app_pointwise {A B} (f g : A → list B) (l : list A) :
  l ≫= (λ x, f x ++ g x) ≡ₚ (l ≫= f) ++ (l ≫= g).
Proof.
  induction l as [|x l IH]; [done|].
  rewrite !bind_cons, IH. rewrite <-!app_assoc.
  apply Permutation_app_head.
  rewrite !app_assoc. apply Permutation_app_tail, Permutation_app_comm.
Qed.

Lemma bind_comm {A B C} (f : A → B → list C) (l1 : list A) (l2 : list B) :
  l1 ≫= (λ x, l2 ≫= f x) ≡ₚ l2 ≫= (λ y, l1 ≫= (λ x, f x y)).
Proof.
  induction l1 as [|x l1 IH].
  - simpl. by rewrite bind_all_nil.
  - rewrite bind_cons, IH.
    rewrite <-bind_app_pointwise.
    apply bind_perm_in. intros y _. by rewrite bind_cons.
Qed.

Lemma bind_unique {A B} `{EqDecision A} (a : A → list B) (ks : list A) (k0 : A) :
  NoDup ks → k0 ∈ ks →
  ks ≫= (λ k, if decide (k0 = k) then a k else []) = a k0.
Proof.
  induction 1 as [|k ks Hk Hnd IH]; intros Hin; [by apply elem_of_nil in Hin|].
  rewrite bind_cons. destruct (decide (k0 = k)) as [->|Hne].
  - rewrite bind_all_nil; [by rewrite app_nil_r|].
    intros y Hy. rewrite decide_False; [done|]. by intros ->.
  - simpl. apply IH. apply elem_of_cons in Hin as [?|?]; done.
Qed.

Lemma length_bind_const {A B} (f : A → list B) (l : list A) (n : nat) :
  (∀ x, x ∈ l → length (f x) = n) → length (l ≫= f) = (length l * n)%nat.
Proof.
  induction l as [|x l IH]; intros Hf; [done|].
  rewrite bind_cons, length_app, Hf by left. simpl.
  rewrite IH; [lia|]. intros y Hy. apply Hf. by right.
Qed.

Lemma length_filter_ne {A} `{EqDecision A} (l : list A) (x : A) :
  NoDup l → x ∈ l → S (length (filter (λ y, x ≠ y) l)) = length l.
Proof.
  induction 1 as [|y l Hy Hnd IH]; intros Hin; [by apply elem_of_nil in Hin|].
  rewrite filter_cons. destruct (decide (x ≠ y)) as [Hne|Heq].
  - simpl. f_equal. apply IH. apply elem_of_cons in Hin as [?|?]; done.
  - assert (x = y) as -> by (by destruct (decide (x = y))).
    simpl. f_equal.
    assert (Hall : filter (λ z, y ≠ z) l = l); [|by rewrite Hall].
    clear IH Hin Heq Hnd. induction l as [|z l IHl]; [done|].
    rewrite filter_cons, decide_True.
    + f_equal. apply IHl. intros ?. apply Hy. by right.
    + intros ->. apply Hy. by left.
Qed.

(** ** [loadBridgesFromDB] *)

Lemma foldl_link st E :
  foldl link st E
  = (group BridgeConnection.SourceChannelID E st.1, (st.2 + length E)%nat).
Proof.
  revert st. induction E as [|e E IH]; intros [g n]; simpl.
  - by rewrite Nat.add_0_r.
  - rewrite IH. simpl. f_equal. lia.
Qed.

Lemma bridgeRoom_roomEdges st entry :
  bridgeRoom st entry = foldl link st (roomEdges entry).
Proof.
  destruct entry as [roomID mappings]. unfold bridgeRoom, roomEdges. simpl.
  destruct (length mappings <? 2)%nat; [done|].
  rewrite foldl_bind. apply foldl_ext_in. intros st1 [i source] _.
  rewrite foldl_bind. apply foldl_ext_in. intros st2 [j target] _. simpl.
  by destruct (decide (i = j)).
Qed.

Lemma foldl_bridgeRoom st visited :
  foldl bridgeRoom st visited = foldl link st (visited ≫= roomEdges).
Proof.
  rewrite foldl_bind. apply foldl_ext_in. intros st' entry _.
  apply bridgeRoom_roomEdges.
Qed.

Lemma groupByRoom_group visited :
  groupByRoom visited = group RoomMapping.RoomID (visited ≫= snd) ∅.
Proof.
  unfold groupByRoom, group. rewrite foldl_bind.
  apply foldl_ext_in. by intros rg [c mappings] _.
Qed.

(** The rows one room contributes, when no two of them bind the same
    channel: index against index is channel against channel. *)
Lemma roomEdges_channels roomID (mappings : list RoomMapping.t) :
  NoDup (channel <$> mappings) →
  roomEdges (roomID, mappings)
  = s ← mappings;
    t ← mappings;
    if decide (channel s ≠ channel t) then [dbConnection roomID s t] else [].
Proof.
  intros Hnd. unfold roomEdges. simpl.
  destruct (length mappings <? 2)%nat eqn:Hlen.
  - apply Nat.ltb_lt in Hlen.
    destruct mappings as [|x [|y l]]; [done| |simpl in Hlen; lia].
    simpl. by rewrite decide_False by (by intros []).
  - unfold enumerate. apply bind_imap_ext. intros i s Hi.
    apply bind_imap_ext. intros j t Hj. simpl.
    destruct (decide (i = j)) as [->|Hne].
    + rewrite Hi in Hj. injection Hj as ->.
      by rewrite decide_False by (by intros []).
    + rewrite decide_True; [done|]. intros Heq. apply Hne.
      apply (NoDup_lookup (channel <$> mappings) i j (channel s)); [done| |].
      * by rewrite list_lookup_fmap, Hi.
      * by rewrite list_lookup_fmap, Hj, Heq.
Qed.

Lemma NoDup_channels_filter (P : RoomMapping.t → Prop) `{!∀ x, Decision (P x)}
    (l : list RoomMapping.t) :
  NoDup (channel <$> l) → NoDup (channel <$> filter P l).
Proof.
  intros Hnd. apply (sublist_NoDup _ _ Hnd).
  apply fmap_sublist, sublist_filter.
Qed.

(** The edges of the rooms of a grouping are the [pairs] of the rows that
    were grouped. *)
Lemma grouped_roomEdges (l : list RoomMapping.t) :
  NoDup (channel <$> l) →
  map_to_list (group RoomMapping.RoomID l ∅) ≫= roomEdges ≡ₚ pairs l.
Proof.
  intros Hnd. rewrite map_to_list_group, list_fmap_bind.
  set (ks := remove_dups (RoomMapping.RoomID <$> l)).
  set (A := λ (r : Z) (s : RoomMapping.t),
         t ← l;
         if decide (RoomMapping.RoomID t = r)
         then (if decide (channel s ≠ channel t)
               then [dbConnection r s t] else [])
         else []).
  transitivity (ks ≫= (λ r, s ← l;
                  if decide (RoomMapping.RoomID s = r) then A r s else [])).
  { apply bind_perm_in. intros r _. simpl.
    rewrite roomEdges_channels by (by apply NoDup_channels_filter).
    rewrite bind_filter. apply reflexive_eq, bind_ext_in. intros s _.
    destruct (decide (RoomMapping.RoomID s = r)); [|done].
    by rewrite bind_filter. }
  rewrite (bind_comm (λ r s, if decide (RoomMapping.RoomID s = r)
                             then A r s else []) ks l).
  unfold pairs. apply bind_perm_in. intros s Hs.
  rewrite (bind_unique (λ r, A r s) ks (RoomMapping.RoomID s)).
  - unfold A. apply reflexive_eq, bind_ext_in. intros t _.
    destruct (decide (RoomMapping.RoomID t = RoomMapping.RoomID s)) as [Heq|Hne].
    + destruct (decide (channel s ≠ channel t)).
      * by rewrite decide_True.
      * rewrite decide_False; [done|]. by intros [_ ?].
    + rewrite decide_False; [done|]. by intros [? _].
  - apply NoDup_remove_dups.
  - apply elem_of_remove_dups, list_elem_of_fmap. by exists s.
Qed.

Lemma pairs_Permutation (l l' : list RoomMapping.t) :
  l ≡ₚ l' → pairs l ≡ₚ pairs l'.
Proof.
  intros Hp. unfold pairs.
  transitivity (l' ≫= (λ s, l ≫= (λ t,
     if decide (RoomMapping.RoomID s = RoomMapping.RoomID t
                ∧ channel s ≠ channel t)
     then [dbConnection (RoomMapping.RoomID s) s t] else []))).
  - by rewrite Hp.
  - apply bind_perm_in. intros s _. by rewrite Hp.
Qed.

Lemma bind_snd_elems `{Countable K} {V} (m : gmap K (list V)) :
  map_to_list m ≫= snd = elems m.
Proof.
  unfold elems. induction (map_to_list m) as [|[k v] l IH]; [done|].
  rewrite bind_cons, fmap_cons. simpl. by rewrite IH.
Qed.

(** The graph of the startup rebuild, as a grouping of lists. *)
Lemma rebuilt_group s d :
  fair s →
  database.faults d (database.issued d) = None →
  database.scan_faults d (database.issued d) = None ∨ database.joined d = [] →
  rebuilt s d
  = group BridgeConnection.SourceChannelID
      (range_roomGroups s
         (group RoomMapping.RoomID
            (range_bridges s
               (group RoomMapping.PlatformRoomID
                  (order_by s (database.joined d)) ∅) ≫= snd) ∅)
       ≫= roomEdges) ∅.
Proof.
  intros Hfair Hfault Hscan.
  unfold rebuilt, NewBridgeCore, loadBridgesFromDB. simpl db.
  unfold database.GetAllActiveBridges, database.Query. rewrite Hfault.
  assert (Hrows : match order_by s (database.joined d),
                        database.scan_faults d (database.issued d) with
                  | _ :: _, Some _ => False
                  | _, _ => True
                  end).
  { destruct Hscan as [->|Hnil]; [by destruct (order_by s _)|].
    pose proof (order_by_perm s Hfair (database.joined d)) as Hp.
    rewrite Hnil in Hp |- *. by apply Permutation_nil_r in Hp as ->. }
  destruct (order_by s (database.joined d)) as [|row rows] eqn:Hord.
  - rewrite foldl_bridgeRoom, foldl_link, groupByRoom_group. reflexivity.
  - destruct (database.scan_faults d (database.issued d)); [done|].
    rewrite foldl_bridgeRoom, foldl_link, groupByRoom_group. reflexivity.
Qed.

(** When the query of the rebuild fails, or the scan of its rows, the core
    starts with an empty graph. *)
Lemma rebuilt_failed s d e :
  database.faults d (database.issued d) = Some e → rebuilt s d = ∅.
Proof.
  intros Hfault.
  unfold rebuilt, NewBridgeCore, loadBridgesFromDB. simpl db.
  unfold database.GetAllActiveBridges, database.Query. by rewrite Hfault.
Qed.

Lemma rebuilt_scan_failed s d e :
  fair s →
  database.faults d (database.issued d) = None →
  database.scan_faults d (database.issued d) = Some e →
  database.joined d ≠ [] →
  rebuilt s d = ∅.
Proof.
  intros Hfair Hfault Hscan Hrows.
  unfold rebuilt, NewBridgeCore, loadBridgesFromDB. simpl db.
  unfold database.GetAllActiveBridges, database.Query. rewrite Hfault, Hscan.
  destruct (order_by s (database.joined d)) as [|row rows] eqn:Hord; [|done].
  pose proof (order_by_perm s Hfair (database.joined d)) as Hp.
  rewrite Hord in Hp. by apply Permutation_nil_l in Hp.
Qed.

Section rebuild.
Context (s : Schedule) (d : database.Database).
Hypothesis Hfair : fair s.
Hypothesis Hquery : database.faults d (database.issued d) = None.
Hypothesis Hscan :
  database.scan_faults d (database.issued d) = None ∨ database.joined d = [].
Hypothesis Hrows : NoDup (channel <$> database.joined d).

(** The rows as [loadBridgesFromDB] meets them when it ranges over
    [bridges]. *)
Let visited : list RoomMapping.t :=
  range_bridges s
    (group RoomMapping.PlatformRoomID (order_by s (database.joined d)) ∅)
  ≫= snd.

Lemma visited_rows : visited ≡ₚ database.joined d.
Proof using Hfair.
  unfold visited. rewrite (range_bridges_perm s Hfair), bind_snd_elems.
  rewrite elems_group, elems_empty. simpl. apply (order_by_perm s Hfair).
Qed.

Lemma loaded_edges :
  range_roomGroups s (group RoomMapping.RoomID visited ∅) ≫= roomEdges
  ≡ₚ pairs (database.joined d).
Proof using Hfair Hrows.
  rewrite (range_roomGroups_perm s Hfair).
  rewrite grouped_roomEdges by (by rewrite visited_rows).
  apply pairs_Permutation, visited_rows.
Qed.

Lemma rebuilt_edges : edges (rebuilt s d) ≡ₚ pairs (database.joined d).
Proof using Hfair Hquery Hscan Hrows.
  unfold edges. rewrite rebuilt_group by done. fold visited.
  rewrite elems_group, elems_empty. simpl. apply loaded_edges.
Qed.

Lemma rebuilt_routes c :
  default [] (rebuilt s d !! c)
  ≡ₚ filter (λ e, BridgeConnection.SourceChannelID e = c)
            (pairs (database.joined d)).
Proof using Hfair Hquery Hscan Hrows.
  rewrite rebuilt_group by done. fold visited.
  rewrite lookup_group, lookup_empty. simpl.
  apply filter_Permutation, loaded_edges.
Qed.

Lemma rebuilt_keys c :
  is_Some (rebuilt s d !! c)
  ↔ c ∈ BridgeConnection.SourceChannelID <$> pairs (database.joined d).
Proof using Hfair Hquery Hscan Hrows.
  rewrite rebuilt_group by done. fold visited.
  rewrite is_Some_group, lookup_empty, loaded_edges.
  split; [intros [[? ?]|?]; done|by right].
Qed.

End rebuild.

(** ** The rows of the query *)

Lemma fmap_filter_bind {A B} (P : A → Prop) `{!∀ x, Decision (P x)}
    (f : A → B) (l : list A) :
  f <$> filter P l = l ≫= (λ x, if decide (P x) then [f x] else []).
Proof.
  induction l as [|x l IH]; [done|].
  rewrite filter_cons, bind_cons.
  destruct (decide (P x)); [by rewrite fmap_cons, IH|by rewrite IH].
Qed.

Lemma filter_fmap_pre {A B} (P : B → Prop) `{!∀ x, Decision (P x)}
    (f : A → B) (l : list A) :
  filter P (f <$> l) = f <$> filter (λ x, P (f x)) l.
Proof.
  induction l as [|x l IH]; [done|].
  rewrite fmap_cons, !filter_cons, IH.
  by destruct (decide (P (f x))).
Qed.

Lemma filter_bind {A B} (P : B → Prop) `{!∀ x, Decision (P x)}
    (f : A → list B) (l : list A) :
  filter P (l ≫= f) = l ≫= (λ x, filter P (f x)).
Proof.
  induction l as [|x l IH]; [done|].
  by rewrite !bind_cons, filter_app, IH.
Qed.

Lemma filter_all_or_nothing {A} (P : A → Prop) `{!∀ x, Decision (P x)}
    (Q : Prop) `{!Decision Q} (l : list A) :
  (∀ x, x ∈ l → P x ↔ Q) → filter P l = if decide Q then l else [].
Proof.
  intros HPQ. induction l as [|x l IH]; [by destruct (decide Q)|].
  rewrite filter_cons, IH by (intros y Hy; apply HPQ; by right).
  destruct (decide Q) as [HQ|HQ].
  - rewrite decide_True; [done|]. apply HPQ; [by left|done].
  - rewrite decide_False; [done|]. intros HP. apply HQ, (HPQ x); [by left|done].
Qed.

Lemma length_bind_if {A B} (P : A → Prop) `{!∀ x, Decision (P x)}
    (g : A → B) (l : list A) :
  length (l ≫= (λ x, if decide (P x) then [g x] else []))
  = length (filter P l).
Proof. by rewrite <-fmap_filter_bind, length_fmap. Qed.

Lemma NoDup_fmap_eq {A B} (f : A → B) (l : list A) (x y : A) :
  NoDup (f <$> l) → x ∈ l → y ∈ l → f x = f y → x = y.
Proof.
  intros Hnd (i & Hi)%list_elem_of_lookup (j & Hj)%list_elem_of_lookup Hf.
  assert (i = j) as ->.
  { apply (NoDup_lookup (f <$> l) i j (f x)); [done| |].
    - by rewrite list_lookup_fmap, Hi.
    - by rewrite list_lookup_fmap, Hj, Hf. }
  congruence.
Qed.

(** With at most one configuration per room, the join keeps each active
    mapping of a room whose configuration is active, once. *)
Lemma joined_configs {A} (x : A) (roomID : Z) (act : bool)
    (configs : list BridgeConfig.t) :
  NoDup (BridgeConfig.RoomID <$> configs) →
  configs ≫= (λ bc,
    if decide (roomID = BridgeConfig.RoomID bc ∧ act = true
               ∧ BridgeConfig.IsActive bc = true)
    then [x] else [])
  = if decide (act = true
               ∧ Exists (λ c, BridgeConfig.RoomID c = roomID
                              ∧ BridgeConfig.IsActive c = true) configs)
    then [x] else [].
Proof.
  induction configs as [|c cs IH]; intros Hnd.
  - simpl. rewrite decide_False; [done|]. intros [_ Hex]. by inversion Hex.
  - rewrite fmap_cons in Hnd. apply NoDup_cons in Hnd as [Hc Hnd].
    rewrite bind_cons. destruct (decide (roomID = BridgeConfig.RoomID c)) as [->|Hne].
    + rewrite bind_all_nil; last first.
      { intros c' Hc'. rewrite decide_False; [done|]. intros (Heq & _).
        apply Hc. rewrite Heq. by apply list_elem_of_fmap_2. }
      rewrite app_nil_r. apply decide_ext. split.
      * intros (_ & ? & ?). split; [done|]. by left.
      * intros (? & Hex). split; [done|]. split; [done|].
        apply Exists_cons in Hex as [[_ ?]|Hex]; [done|].
        apply Exists_exists in Hex as (c' & Hc' & Heq & _).
        exfalso. apply Hc. rewrite <-Heq. by apply list_elem_of_fmap_2.
    + rewrite decide_False by (by intros [? _]). simpl. rewrite IH by done.
      apply decide_ext. split.
      * intros [? ?]. split; [done|]. by right.
      * intros [? Hex]. split; [done|].
        apply Exists_cons in Hex as [[? _]|?]; [congruence|done].
Qed.

Lemma joined_rows d :
  NoDup (BridgeConfig.RoomID <$> database.bridge_config d) →
  database.joined d
  = database.scanned
    <$> filter (λ m, RoomMapping.IsActive m = true
                     ∧ config_active d (RoomMapping.RoomID m))
               (database.room_mappings d).
Proof.
  intros Hnd. unfold database.joined. rewrite fmap_filter_bind.
  apply bind_ext_in. intros rm _.
  by rewrite (joined_configs _ _ _ _ Hnd).
Qed.

Lemma channel_scanned (l : list RoomMapping.t) :
  channel <$> (database.scanned <$> l) = channel <$> l.
Proof. rewrite <-list_fmap_compose. by apply list_fmap_ext. Qed.

Lemma joined_NoDup d : store_ok d → NoDup (channel <$> database.joined d).
Proof.
  intros [Hm Hc]. rewrite joined_rows, channel_scanned by done.
  by apply NoDup_channels_filter.
Qed.

Lemma joined_elem d s :
  store_ok d → s ∈ database.joined d →
  ∃ m, m ∈ database.room_mappings d ∧ s = database.scanned m
       ∧ RoomMapping.IsActive m = true
       ∧ config_active d (RoomMapping.RoomID m).
Proof.
  intros [_ Hc] Hs. rewrite joined_rows in Hs by done.
  apply list_elem_of_fmap in Hs as (m & -> & Hm).
  apply list_elem_of_filter in Hm as [[? ?] ?]. by exists m.
Qed.

Lemma joined_room d roomID :
  store_ok d → config_active d roomID →
  filter (λ m, RoomMapping.RoomID m = roomID) (database.joined d)
  = database.scanned <$> active_mappings d roomID.
Proof.
  intros [_ Hc] Hact. rewrite joined_rows by done.
  rewrite filter_fmap_pre, list_filter_filter. f_equal.
  apply list_filter_iff. intros m. simpl. split.
  - by intros (? & ? & ?).
  - intros [<- ?]. done.
Qed.

(** ** The edges of a room *)

Lemma pairs_elem l e :
  e ∈ pairs l →
  ∃ s t, s ∈ l ∧ t ∈ l ∧ RoomMapping.RoomID s = RoomMapping.RoomID t
         ∧ channel s ≠ channel t
         ∧ e = dbConnection (RoomMapping.RoomID s) s t.
Proof.
  unfold pairs. intros (s & He & Hs)%list_elem_of_bind.
  apply list_elem_of_bind in He as (t & He & Ht).
  destruct (decide _) as [[? ?]|]; [|by apply elem_of_nil in He].
  apply list_elem_of_singleton in He. by exists s, t.
Qed.

Lemma pairs_of_room d roomID :
  store_ok d → config_active d roomID →
  length (filter (from_room d roomID) (pairs (database.joined d)))
  = (length (active_mappings d roomID)
     * (length (active_mappings d roomID) - 1))%nat.
Proof.
  intros Hok Hact. pose proof Hok as [Hm Hc].
  pose proof (joined_NoDup d Hok) as Hnd.
  pose proof (joined_room d roomID Hok Hact) as Hroom.
  set (J := database.joined d) in *.
  set (N := length (active_mappings d roomID)).
  set (inner := λ s : RoomMapping.t,
         t ← J;
         if decide (RoomMapping.RoomID s = RoomMapping.RoomID t
                    ∧ channel s ≠ channel t)
         then [dbConnection (RoomMapping.RoomID s) s t] else []).
  assert (HN : length (filter (λ m, RoomMapping.RoomID m = roomID) J) = N).
  { by rewrite Hroom, length_fmap. }
  change (pairs J) with (J ≫= inner). rewrite filter_bind.
  rewrite (bind_ext_in _
    (λ s, if decide (RoomMapping.RoomID s = roomID) then inner s else [])).
  - rewrite <-(bind_filter (λ s, RoomMapping.RoomID s = roomID) inner J).
    rewrite (length_bind_const _ _ (N - 1)); [by rewrite HN|].
    intros s [Hs HsJ]%list_elem_of_filter. unfold inner.
    rewrite length_bind_if.
    rewrite (list_filter_iff _
      (λ t, channel s ≠ channel t ∧ RoomMapping.RoomID t = roomID))
      by (intros t; rewrite Hs; intuition congruence).
    rewrite <-(list_filter_filter (λ t, channel s ≠ channel t)
                 (λ t, RoomMapping.RoomID t = roomID)).
    set (Jr := filter (λ t, RoomMapping.RoomID t = roomID) J) in *.
    assert (HsJr : s ∈ Jr) by (by apply list_elem_of_filter).
    pose proof (NoDup_channels_filter
                  (λ t, RoomMapping.RoomID t = roomID) J Hnd) as HndJr.
    fold Jr in HndJr.
    pose proof (length_filter_ne (channel <$> Jr) (channel s) HndJr
                  (list_elem_of_fmap_2 channel Jr s HsJr)) as Hlen.
    rewrite filter_fmap_pre, !length_fmap in Hlen. lia.
  - intros s HsJ. apply filter_all_or_nothing. intros e He.
    unfold inner in He. apply list_elem_of_bind in He as (t & He & Ht).
    destruct (decide _) as [[? ?]|]; [|by apply elem_of_nil in He].
    apply list_elem_of_singleton in He as ->.
    unfold from_room. rewrite Exists_exists.
    destruct (joined_elem d s Hok HsJ) as (m0 & Hm0 & -> & Hact0 & _).
    split.
    + intros (m & Hmr & Hch).
      apply list_elem_of_filter in Hmr as [[Hr _] Hmin].
      assert (m = m0) as -> by (by apply (NoDup_fmap_eq channel _ _ _ Hm)).
      done.
    + intros Hr. exists m0. split; [|done].
      apply list_elem_of_filter. done.
Qed.

Lemma pairs_no_self_loop l e : e ∈ pairs l → source e ≠ target e.
Proof. intros (s & t & _ & _ & _ & Hne & ->)%pairs_elem. exact Hne. Qed.

(** C1.  Let the store satisfy its two uniqueness constraints and answer
    the query of the startup rebuild.  Whatever orders the run time picks,
    a room whose configuration is active and that has [N] active mappings
    ([N >= 2] in particular) has exactly [N * (N - 1)] edges in the rebuilt
    graph, and no edge of the graph leads from a channel (a platform and
    the platform's channel identifier) to that same channel. *)
Theorem rebuild_edges_per_room s d roomID :
  fair s →
  store_ok d →
  answers d →
  config_active d roomID →
  length (room_edges d roomID (rebuilt s d))
  = (length (active_mappings d roomID)
     * (length (active_mappings d roomID) - 1))%nat
  ∧ ∀ e, e ∈ edges (rebuilt s d) → source e ≠ target e.
Proof.
  intros Hfair Hok [Hquery Hscan] Hact.
  pose proof (rebuilt_edges s d Hfair Hquery (or_introl Hscan)
                (joined_NoDup d Hok)) as Hedges.
  split.
  - unfold room_edges. rewrite Hedges. by apply pairs_of_room.
  - intros e He. rewrite Hedges in He. by eapply pairs_no_self_loop.
Qed.

(** The order of [ORDER BY] is total, so a merge sort sorts by it, and the
    schedules [a_schedule] and [b_schedule] are fair. *)
#[global] Instance row_le_total : Total database.row_le.
Proof.
  intros a b. unfold database.row_le, database.row_leb.
  destruct (Z.lt_trichotomy (RoomMapping.RoomID a) (RoomMapping.RoomID b))
    as [Hlt|[Heq|Hgt]].
  - left. apply orb_true_iff. left. by apply Z.ltb_lt.
  - destruct (String.leb_total (RoomMapping.Platform a) (RoomMapping.Platform b))
      as [Hab|Hba].
    + left. apply orb_true_iff. right. apply andb_true_iff.
      split; [by apply Z.eqb_eq|done].
    + right. apply orb_true_iff. right. apply andb_true_iff.
      split; [by apply Z.eqb_eq|done].
  - right. apply orb_true_iff. left. by apply Z.ltb_lt.
Qed.

Lemma a_schedule_fair : fair a_schedule.
Proof.
  split; simpl; intros.
  - apply merge_sort_Permutation.
  - apply Sorted_merge_sort. apply _.
  - done.
  - done.
Qed.

Lemma b_schedule_fair : fair b_schedule.
Proof.
  split; simpl; intros.
  - apply merge_sort_Permutation.
  - apply Sorted_merge_sort. apply _.
  - apply reverse_Permutation.
  - apply reverse_Permutation.
Qed.

Lemma three_rooms_ok : store_ok three_rooms.
Proof. split; decide_by_evaluation. Qed.

Lemma rebuild_edges_per_room_witness :
  (length (room_edges three_rooms 1 (rebuilt a_schedule three_rooms)) = 6%nat
   ∧ length (room_edges three_rooms 2 (rebuilt a_schedule three_rooms)) = 2%nat)
  ∧ ∀ e, e ∈ edges (rebuilt a_schedule three_rooms) → source e ≠ target e.
Proof.
  pose proof (rebuild_edges_per_room a_schedule three_rooms 1
                a_schedule_fair three_rooms_ok (conj eq_refl eq_refl)
                ltac:(decide_by_evaluation))
    as [H1 Hloop].
  pose proof (rebuild_edges_per_room a_schedule three_rooms 2
                a_schedule_fair three_rooms_ok (conj eq_refl eq_refl)
                ltac:(decide_by_evaluation))
    as [H2 _].
  split; [split|exact Hloop].
  - rewrite H1. evaluate.
  - rewrite H2. evaluate.
Defined.

(** The rebuilt graph of [three_rooms], evaluated: channel "7" carries the
    two edges of room 2, each from one platform's "7" to the other's. *)
Example rebuilt_three_rooms_channel_7 :
  (λ e, (source e, target e)) <$> default [] (rebuilt a_schedule three_rooms !! "7")
  = [(("discord", "7"), ("telegram", "7"));
     (("telegram", "7"), ("discord", "7"))].
Proof. evaluate. Qed.

(** C6.  Two startup rebuilds from the same store, whatever orders the run
    time picks in each, give the same edges: the same channels have an
    entry, every channel has the same edges in both graphs (as multisets:
    their order in the list may differ), and so has the graph as a whole.
    When the store answers the query, a room with an active configuration
    and exactly 2 active mappings has exactly 2 edges, one with 3 has 6. *)
Theorem rebuild_idempotent s1 s2 d :
  fair s1 → fair s2 → store_ok d →
  (∀ c, (rebuilt s1 d !! c = None ↔ rebuilt s2 d !! c = None)
        ∧ default [] (rebuilt s1 d !! c) ≡ₚ default [] (rebuilt s2 d !! c))
  ∧ edges (rebuilt s1 d) ≡ₚ edges (rebuilt s2 d)
  ∧ (answers d →
     ∀ roomID, config_active d roomID →
       (length (active_mappings d roomID) = 2%nat →
        length (room_edges d roomID (rebuilt s1 d)) = 2%nat)
       ∧ (length (active_mappings d roomID) = 3%nat →
          length (room_edges d roomID (rebuilt s1 d)) = 6%nat)).
Proof.
  intros Hf1 Hf2 Hok. pose proof (joined_NoDup d Hok) as Hnd.
  assert (Hcases :
    rebuilt s1 d = ∅ ∧ rebuilt s2 d = ∅
    ∨ database.faults d (database.issued d) = None
      ∧ (database.scan_faults d (database.issued d) = None
         ∨ database.joined d = [])).
  { destruct (database.faults d (database.issued d)) as [e|] eqn:Hquery.
    { left. by rewrite !(rebuilt_failed _ d e Hquery). }
    destruct (database.scan_faults d (database.issued d)) as [e|] eqn:Hscan;
      [|by right; split; [|left]].
    destruct (database.joined d) as [|row rows] eqn:Hrows;
      [by right; split; [|right]|].
    left. split; eapply rebuilt_scan_failed; try done; by rewrite Hrows. }
  split; [|split].
  - destruct Hcases as [[-> ->]|[Hquery Hscan]]; [done|].
    intros c. split.
    + rewrite !eq_None_not_Some, !rebuilt_keys by done. done.
    + by rewrite !rebuilt_routes.
  - destruct Hcases as [[-> ->]|[Hquery Hscan]]; [done|].
    by rewrite !rebuilt_edges.
  - intros [Hquery Hscan] roomID Hact. unfold room_edges.
    rewrite rebuilt_edges, pairs_of_room by (done || by left).
    split; intros ->; done.
Qed.

Lemma rebuild_idempotent_witness :
  default [] (rebuilt a_schedule three_rooms !! "100")
  ≡ₚ default [] (rebuilt b_schedule three_rooms !! "100")
  ∧ edges (rebuilt a_schedule three_rooms) ≡ₚ edges (rebuilt b_schedule three_rooms)
  ∧ length (room_edges three_rooms 2 (rebuilt a_schedule three_rooms)) = 2%nat
  ∧ length (room_edges three_rooms 1 (rebuilt a_schedule three_rooms)) = 6%nat.
Proof.
  pose proof (rebuild_idempotent a_schedule b_schedule three_rooms
                a_schedule_fair b_schedule_fair three_rooms_ok)
    as (Hroutes & Hedges & Hcount).
  split; [apply Hroutes|]. split; [exact Hedges|].
  split.
  - apply (Hcount (conj eq_refl eq_refl) 2 ltac:(decide_by_evaluation)).
    evaluate.
  - apply (Hcount (conj eq_refl eq_refl) 1 ltac:(decide_by_evaluation)).
    evaluate.
Defined.

(** The two schedules do not build the same lists: the order of the edges
    of channel "100" differs between them. *)
Example rebuilt_orders_differ :
  BridgeConnection.TargetChannelID
    <$> default [] (rebuilt a_schedule three_rooms !! "100") = ["300"; "200"]
  ∧ BridgeConnection.TargetChannelID
    <$> default [] (rebuilt b_schedule three_rooms !! "100") = ["200"; "300"].
Proof. split; evaluate. Qed.

(** [loadBridgesFromDB] appends to the graph it finds.  [NewBridgeCore] runs
    it once, on an empty graph; run again on the core it has just loaded,
    it would add every edge a second time. *)
Example loadBridgesFromDB_appends :
  let once := loadBridgesFromDB a_schedule
                (mkBridgeCore ∅ ∅ ∅ (Some three_rooms)) in
  let twice := loadBridgesFromDB a_schedule (core once) in
  length (edges (connections (core once))) = 8%nat
  ∧ length (edges (connections (core twice))) = 16%nat.
Proof. cbv zeta. split; evaluate. Qed.

(** ** The store keeps its constraints

    [store_ok] holds of the empty store and survives every statement the
    core sends, whether it meets a fault or not: the hypothesis of the two
    theorems on the rebuild holds of every store the core has written. *)

Lemma store_ok_same_keys d d' :
  channel <$> database.room_mappings d' = channel <$> database.room_mappings d →
  BridgeConfig.RoomID <$> database.bridge_config d'
  = BridgeConfig.RoomID <$> database.bridge_config d →
  store_ok d → store_ok d'.
Proof. intros Hm Hc [? ?]. split; by rewrite ?Hm, ?Hc. Qed.

Lemma store_ok_sent d : store_ok d → store_ok (database.sent d).
Proof. by apply store_ok_same_keys. Qed.

Lemma store_ok_QueryRow {A} (first : database.Database → option A) d :
  store_ok d → store_ok (database.QueryRow first d).2.
Proof.
  intros Hok. unfold database.QueryRow.
  destruct (database.faults d _); [by apply store_ok_sent|].
  destruct (first d); by apply store_ok_sent.
Qed.

Lemma store_ok_Exec {A} (run : database.Database → string + A * database.Database) d :
  (∀ d0 a d1, store_ok d0 → run d0 = inr (a, d1) → store_ok d1) →
  store_ok d → store_ok (database.Exec run d).2.
Proof.
  intros Hrun Hok. unfold database.Exec.
  destruct (database.faults d _); [by apply store_ok_sent|].
  destruct (run (database.sent d)) as [e|[a d1]] eqn:Hr; [by apply store_ok_sent|].
  simpl. eapply Hrun; [|exact Hr]. by apply store_ok_sent.
Qed.

Lemma store_ok_CreateOrGetRoom name now d :
  store_ok d → store_ok (database.CreateOrGetRoom name now d).2.
Proof.
  intros Hok. unfold database.CreateOrGetRoom.
  pose proof (store_ok_QueryRow (database.select_room name) d Hok) as Hq.
  destruct (database.QueryRow _ d) as [[room| |e] d1]; [done| |done].
  simpl in Hq.
  pose proof (store_ok_Exec (database.insert_room name now) d1) as He.
  destruct (database.Exec _ d1) as [[e|id] d2]; simpl in *; apply He; try done.
  - intros d0 a d3 H0 [= _ <-]. revert H0. by apply store_ok_same_keys.
  - intros d0 a d3 H0 [= _ <-]. revert H0. by apply store_ok_same_keys.
Qed.

Lemma store_ok_update_room_mapping roomName roomType now id d0 a d1 :
  store_ok d0 →
  database.update_room_mapping roomName roomType now id d0 = inr (a, d1) →
  store_ok d1.
Proof.
  intros H0 [= _ <-]. revert H0. apply store_ok_same_keys; [|done]. simpl.
  rewrite <-list_fmap_compose. apply list_fmap_ext. intros i m _. simpl.
  by destruct (decide _).
Qed.

Lemma store_ok_insert_room_mapping roomID platform platformRoomID roomName
    roomType now d0 a d1 :
  store_ok d0 →
  database.insert_room_mapping roomID platform platformRoomID roomName roomType
    now d0 = inr (a, d1) →
  store_ok d1.
Proof.
  intros [Hm Hc]. unfold database.insert_room_mapping.
  destruct (decide _) as [|Hfree]; [done|]. intros [= _ <-].
  split; [|done]. simpl. rewrite fmap_app. simpl.
  apply NoDup_app. split; [done|]. split; [|apply NoDup_singleton].
  intros ch Hch Hnew. apply list_elem_of_singleton in Hnew as ->.
  apply Hfree, Exists_exists.
  apply list_elem_of_fmap in Hch as (m & Heq & Hin).
  exists m. split; [done|]. by injection Heq as <- <-.
Qed.

Lemma store_ok_CreateOrGetRoomMapping roomID platform platformRoomID roomName
    roomType now d :
  store_ok d →
  store_ok (database.CreateOrGetRoomMapping roomID platform platformRoomID
              roomName roomType now d).2.
Proof.
  intros Hok. unfold database.CreateOrGetRoomMapping.
  pose proof (store_ok_QueryRow
                (database.select_room_mapping roomID platform platformRoomID)
                d Hok) as Hq.
  destruct (database.QueryRow _ d) as [[mapping| |e] d1]; simpl in Hq; [| |done].
  - pose proof (store_ok_Exec
                  (database.update_room_mapping roomName roomType now
                     (RoomMapping.ID mapping)) d1
                  (store_ok_update_room_mapping _ _ _ _) Hq) as He.
    by destruct (database.Exec _ d1) as [[e|u] d2].
  - pose proof (store_ok_Exec
                  (database.insert_room_mapping roomID platform platformRoomID
                     roomName roomType now) d1
                  (store_ok_insert_room_mapping _ _ _ _ _ _) Hq) as He.
    by destruct (database.Exec _ d1) as [[e|id] d2].
Qed.

Lemma store_ok_insert_bridge_config roomID now d0 a d1 :
  store_ok d0 →
  database.insert_bridge_config roomID now d0 = inr (a, d1) → store_ok d1.
Proof.
  intros [Hm Hc]. unfold database.insert_bridge_config.
  destruct (decide _) as [|Hfree]; [done|]. intros [= _ <-].
  split; [done|]. simpl. rewrite fmap_app. simpl.
  apply NoDup_app. split; [done|]. split; [|apply NoDup_singleton].
  intros r Hr Hnew. apply list_elem_of_singleton in Hnew as ->.
  apply Hfree, Exists_exists.
  apply list_elem_of_fmap in Hr as (c & Heq & Hin). by exists c.
Qed.

Lemma store_ok_CreateOrGetBridgeConfig roomID now d :
  store_ok d → store_ok (database.CreateOrGetBridgeConfig roomID now d).2.
Proof.
  intros Hok. unfold database.CreateOrGetBridgeConfig.
  pose proof (store_ok_QueryRow (database.select_bridge_config roomID) d Hok)
    as Hq.
  destruct (database.QueryRow _ d) as [[config| |e] d1]; simpl in Hq; [done| |done].
  pose proof (store_ok_Exec (database.insert_bridge_config roomID now) d1
                (store_ok_insert_bridge_config _ _) Hq) as He.
  by destruct (database.Exec _ d1) as [[e|id] d2].
Qed.

Lemma store_ok_RemoveRoomMapping roomID platform now d :
  store_ok d → store_ok (database.RemoveRoomMapping roomID platform now d).2.
Proof.
  intros Hok. unfold database.RemoveRoomMapping.
  pose proof (store_ok_Exec
                (database.deactivate_room_mapping roomID platform now) d) as He.
  destruct (database.Exec _ d) as [[e|u] d1]; simpl in *; apply He; try done.
  - intros d0 a d2 H0 [= _ <-]. revert H0. apply store_ok_same_keys; [|done].
    simpl. rewrite <-list_fmap_compose. apply list_fmap_ext. intros i m _.
    simpl. by destruct (decide _).
  - intros d0 a d2 H0 [= _ <-]. revert H0. apply store_ok_same_keys; [|done].
    simpl. rewrite <-list_fmap_compose. apply list_fmap_ext. intros i m _.
    simpl. by destruct (decide _).
Qed.

Lemma store_ok_saveBridgeToDatabase sp sc tp tc now d :
  store_ok d → store_ok (saveBridgeToDatabase sp sc tp tc now d).2.
Proof.
  intros Hok. unfold saveBridgeToDatabase.
  match goal with |- context [database.CreateOrGetRoom ?n now d] =>
    pose proof (store_ok_CreateOrGetRoom n now d Hok) as H1;
    destruct (database.CreateOrGetRoom n now d) as [[e|room] d1] end; [done|].
  simpl in H1.
  match goal with |- context [database.CreateOrGetRoomMapping ?r ?p ?c ?n ?t now d1] =>
    pose proof (store_ok_CreateOrGetRoomMapping r p c n t now d1 H1) as H2;
    destruct (database.CreateOrGetRoomMapping r p c n t now d1) as [[e|m1] d2] end;
    [done|].
  simpl in H2.
  match goal with |- context [database.CreateOrGetRoomMapping ?r ?p ?c ?n ?t now d2] =>
    pose proof (store_ok_CreateOrGetRoomMapping r p c n t now d2 H2) as H3;
    destruct (database.CreateOrGetRoomMapping r p c n t now d2) as [[e|m2] d3] end;
    [done|].
  simpl in H3.
  pose proof (store_ok_CreateOrGetBridgeConfig (Room.ID room) now d3 H3) as H4.
  by destruct (database.CreateOrGetBridgeConfig _ now d3) as [[e|c] d4].
Qed.

Lemma store_ok_removeBridgeFromDatabase sp sc tp now d :
  store_ok d → store_ok (removeBridgeFromDatabase sp sc tp now d).2.
Proof.
  intros Hok. unfold removeBridgeFromDatabase, database.GetRoomMappingByPlatformRoom.
  pose proof (store_ok_QueryRow (database.select_active_mapping sp sc) d Hok)
    as Hq.
  destruct (database.QueryRow _ d) as [[mapping| |e] d1]; simpl in Hq; [|done..].
  pose proof (store_ok_RemoveRoomMapping (RoomMapping.RoomID mapping) tp now d1 Hq)
    as Hr.
  by destruct (database.RemoveRoomMapping _ tp now d1) as [[e|] d2].
Qed.

Lemma store_ok_empty faults : store_ok (empty_store faults).
Proof. split; simpl; constructor. Qed.

Lemma core_store_ok_NewBridgeCore s d :
  store_ok d → core_store_ok (NewBridgeCore s (Some d)).1.
Proof.
  intros Hok. unfold NewBridgeCore, loadBridgesFromDB. simpl db.
  unfold database.GetAllActiveBridges, database.Query.
  destruct (database.faults d _); [by apply store_ok_sent|].
  destruct (order_by s _); [by apply store_ok_sent|].
  destruct (database.scan_faults d _); by apply store_ok_sent.
Qed.

Lemma core_store_ok_AddBridge sp sc tp tc now bc :
  core_store_ok bc → core_store_ok (core (AddBridge sp sc tp tc now bc)).
Proof.
  unfold core_store_ok, AddBridge. intros Hok.
  destruct (platforms bc !! sp); [|done].
  destruct (platforms bc !! tp); [|done].
  destruct (db bc) as [d|] eqn:Hdb.
  - pose proof (store_ok_saveBridgeToDatabase sp sc tp tc now d Hok) as Hs.
    by destruct (saveBridgeToDatabase sp sc tp tc now d) as [[e|] d'].
  - simpl. by rewrite Hdb.
Qed.

Lemma core_store_ok_RemoveBridge c P now bc :
  core_store_ok bc → core_store_ok (core (RemoveBridge c P now bc)).
Proof.
  unfold core_store_ok, RemoveBridge. intros Hok.
  destruct (connections bc !! c) as [conns|]; [|done].
  destruct (list_find _ conns) as [[i conn]|]; [|done].
  simpl. destruct (db bc) as [d|] eqn:Hdb; simpl.
  - pose proof (store_ok_removeBridgeFromDatabase
                  (BridgeConnection.SourcePlatform conn) c P now d Hok) as Hs.
    by destruct (removeBridgeFromDatabase _ c P now d) as [e d'].
  - by rewrite Hdb.
Qed.

(** ** Registration and display names *)

Lemma getDisplayName_users bc bc' :
  (∀ p u, (userMappings bc' !! p ≫= λ users, users !! u)
          = (userMappings bc !! p ≫= λ users, users !! u)) →
  ∀ p u, getDisplayName p u bc' = getDisplayName p u bc.
Proof.
  intros H p u. specialize (H p u). unfold getDisplayName.
  destruct (userMappings bc' !! p) as [us'|], (userMappings bc !! p) as [us|];
    simpl in H; rewrite ?H; try done.
  - by rewrite <- H.
Qed.

(** X1. [RegisterPlatform] never fails; the adapter is found under its own
    name afterwards, replacing the one that was there; the adapters under
    other names, the graph, the store and every display name recorded so
    far stay as they were. *)
Theorem RegisterPlatform_registers platform bc :
  let o := RegisterPlatform platform bc in
  err o = None
  ∧ platforms (core o) !! GetName platform = Some platform
  ∧ (∀ name, name ≠ GetName platform →
       platforms (core o) !! name = platforms bc !! name)
  ∧ (∀ p u, getDisplayName p u (core o) = getDisplayName p u bc)
  ∧ connections (core o) = connections bc
  ∧ db (core o) = db bc.
Proof.
  cbv zeta. unfold RegisterPlatform. simpl. conjuncts; try done.
  - apply lookup_insert_eq.
  - intros name Hne. by apply lookup_insert_ne.
  - apply getDisplayName_users. intros p u. simpl.
    destruct (userMappings bc !! GetName platform) eqn:Hn; [done|].
    destruct (decide (GetName platform = p)) as [<-|Hne].
    + by rewrite lookup_insert_eq, Hn.
    + by rewrite lookup_insert_ne.
Qed.

Lemma getDisplayName_set platform userID displayName p u bc :
  getDisplayName p u (SetUserMapping platform userID displayName bc)
  = if decide (p = platform ∧ u = userID) then displayName
    else getDisplayName p u bc.
Proof.
  unfold getDisplayName, SetUserMapping. simpl.
  destruct (decide (p = platform)) as [->|Hp].
  - rewrite lookup_insert_eq.
    destruct (decide (u = userID)) as [->|Hu].
    + rewrite lookup_insert_eq. by rewrite decide_True.
    + rewrite lookup_insert_ne by done.
      rewrite decide_False by (by intros [_ ?]).
      destruct (userMappings bc !! platform) as [users|] eqn:Hus.
      * by rewrite Hus.
      * by rewrite lookup_insert_eq.
  - rewrite lookup_insert_ne by done.
    rewrite decide_False by (by intros [? _]).
    destruct (userMappings bc !! platform) eqn:Hus; [done|].
    by rewrite lookup_insert_ne by done.
Qed.

(** X2. A display name set for a user of a platform is the one read back,
    the last one set winning; the names of all other users and platforms,
    the adapters, the graph and the store are not touched. *)
Theorem getDisplayName_SetUserMapping platform userID displayName p u bc :
  let bc' := SetUserMapping platform userID displayName bc in
  getDisplayName p u bc'
  = (if decide (p = platform ∧ u = userID) then displayName
     else getDisplayName p u bc)
  ∧ platforms bc' = platforms bc
  ∧ connections bc' = connections bc
  ∧ db bc' = db bc.
Proof. cbv zeta. conjuncts; try done. apply getDisplayName_set. Qed.

Lemma bridgeTo_telegram bc message e client :
  platforms bc !! PlatformTelegram = Some (Telegram client) →
  telegram.IsRunning client = true →
  BridgeConnection.IsActive e = true →
  BridgeConnection.TargetPlatform e = PlatformTelegram →
  calls (bridgeTo bc message e)
  = [CallSendMessage PlatformTelegram (BridgeConnection.TargetChannelID e)
       (TelegramAdapter.FormatMessage message)
       (telegram.SendMessage client (BridgeConnection.TargetChannelID e)
          (TelegramAdapter.FormatMessage message))].
Proof.
  intros Hp Hrun Hact Htp. unfold bridgeTo.
  rewrite Hact, Htp, Hp. simpl. unfold TelegramAdapter.IsConnected.
  rewrite Hrun. simpl.
  unfold calls. rewrite filter_cons_False by (by intros []).
  pose proof (calls_sendRegularChecked (Telegram client) e message) as H.
  rewrite Htp in H. exact H.
Qed.

Lemma FormatMessage_named message name :
  BridgeMessage.Username message = name →
  name ≠ "" → HasPrefix name "@" = false →
  TelegramAdapter.FormatMessage message
  = telegramTag (BridgeMessage.SourcePlatform message)
      +:+ " @" +:+ name +:+ ": " +:+ BridgeMessage.Content message.
Proof.
  intros Hn Hne Hat. unfold TelegramAdapter.FormatMessage, telegramTag.
  cbv zeta. rewrite Hn, Hat. rewrite (bool_decide_eq_false_2 _ Hne). simpl.
  rewrite bool_decide_eq_false_2; [done|].
  intros H. apply Hne. by injection H.
Qed.

Lemma legacy_to_telegram sp ch u name ty content now bc client e :
  platforms bc !! PlatformTelegram = Some (Telegram client) →
  telegram.IsRunning client = true →
  e ∈ GetBridges ch bc →
  BridgeConnection.IsActive e = true →
  BridgeConnection.TargetPlatform e = PlatformTelegram →
  getDisplayName sp u bc = name →
  name ≠ "" → HasPrefix name "@" = false →
  let o := (ProcessMessageLegacy sp ch u ty content now bc).2 in
  let text := telegramTag sp +:+ " @" +:+ name +:+ ": " +:+ content in
  err o = None
  ∧ core o = bc
  ∧ CallSendMessage PlatformTelegram (BridgeConnection.TargetChannelID e) text
      (telegram.SendMessage client (BridgeConnection.TargetChannelID e) text)
    ∈ calls (events o).
Proof.
  intros Hp Hrun He Hact Htp Hname Hne Hat. cbv zeta.
  unfold ProcessMessageLegacy.
  fold (GetBridges ch bc).
  destruct (decide (length (GetBridges ch bc) = 0%nat)) as [Hlen|Hlen].
  { apply length_zero_iff_nil in Hlen. rewrite Hlen in He.
    by apply elem_of_nil in He. }
  cbn [snd].
  split; [apply ProcessMessage_err|]. split; [apply ProcessMessage_core|].
  rewrite ProcessMessage_events. cbv zeta.
  apply list_elem_of_bind. exists e. split; [|exact He].
  rewrite (bridgeTo_telegram bc _ e client) by done.
  rewrite (FormatMessage_named _ name); [apply list_elem_of_here| |done|done].
  exact Hname.
Qed.

(** X3. A message that comes in through [ProcessMessageLegacy] is shown
    under the display name last set for its author: on every active route
    of the channel to a running Telegram adapter the text sent is the tag
    of the source platform, the name with a leading at sign, a colon and
    the content.  The call never fails. *)
Theorem legacy_message_carries_display_name
    sp ch u name ty content now bc client e :
  platforms bc !! PlatformTelegram = Some (Telegram client) →
  telegram.IsRunning client = true →
  e ∈ GetBridges ch bc →
  BridgeConnection.IsActive e = true →
  BridgeConnection.TargetPlatform e = PlatformTelegram →
  name ≠ "" → HasPrefix name "@" = false →
  let bc' := SetUserMapping sp u name bc in
  let o := (ProcessMessageLegacy sp ch u ty content now bc').2 in
  let text := telegramTag sp +:+ " @" +:+ name +:+ ": " +:+ content in
  err o = None
  ∧ core o = bc'
  ∧ CallSendMessage PlatformTelegram (BridgeConnection.TargetChannelID e) text
      (telegram.SendMessage client (BridgeConnection.TargetChannelID e) text)
    ∈ calls (events o).
Proof.
  intros Hp Hrun He Hact Htp Hne Hat.
  apply legacy_to_telegram; try done.
  rewrite getDisplayName_set. by rewrite decide_True.
Qed.

Lemma legacy_message_carries_display_name_witness :
  let bc := core (AddBridge "discord" "100" "telegram" "200" 5 (started None)) in
  let o := (ProcessMessageLegacy "discord" "100" "42" "text" "hi" 6000000000
              (SetUserMapping "discord" "42" "alice" bc)).2 in
  err o = None
  ∧ CallSendMessage "telegram" "200" "[DISCORD] @alice: hi" None
    ∈ calls (events o).
Proof.
  cbv zeta.
  pose proof (legacy_message_carries_display_name
    "discord" "100" "42" "alice" "text" "hi" 6000000000
    (core (AddBridge "discord" "100" "telegram" "200" 5 (started None)))
    up_telegram (newConnection "discord" "100" "telegram" "200" 5)
    ltac:(vm_compute; reflexivity) ltac:(reflexivity)
    ltac:(vm_compute; apply list_elem_of_here)
    ltac:(reflexivity) ltac:(reflexivity)
    ltac:(discriminate) ltac:(reflexivity)) as H.
  cbv zeta in H. destruct H as (H1 & _ & H3). split; [exact H1|exact H3].
Defined.

(** ** Status and statistics *)

Lemma foldl_insert_lookup `{Countable K} {A B} (f : A → B) (l : list (K * A))
    (acc : gmap K B) (k : K) :
  NoDup l.*1 →
  foldl (λ m '(k, v), <[k := f v]> m) acc l !! k
  = match (list_to_map l : gmap K A) !! k with
    | Some v => Some (f v)
    | None => acc !! k
    end.
Proof.
  revert acc. induction l as [|[k0 v0] l IH]; intros acc Hnd; [done|].
  rewrite fmap_cons in Hnd. apply NoDup_cons in Hnd as [Hk0 Hnd].
  simpl in Hk0. simpl. rewrite IH by done.
  destruct (decide (k0 = k)) as [->|Hne].
  - rewrite (not_elem_of_list_to_map_1 l k) by done.
    by rewrite !lookup_insert_eq.
  - rewrite (lookup_insert_ne (list_to_map l)) by done.
    destruct (list_to_map l !! k); [done|]. by apply lookup_insert_ne.
Qed.

(** X4. Whatever the order in which the run time ranges over the
    registered adapters, [GetPlatformStatus] maps each registered name, and
    no other, to what the adapter's [IsConnected] reports; a route is one
    the fan-out serves exactly when it is active and the status of its
    target platform is [true]. *)
Theorem GetPlatformStatus_snapshot range_platforms bc :
  (∀ m, range_platforms m ≡ₚ map_to_list m) →
  GetPlatformStatus range_platforms bc = IsConnected <$> platforms bc
  ∧ ∀ e, reachable bc e
         = BridgeConnection.IsActive e
           && default false (GetPlatformStatus range_platforms bc
                               !! BridgeConnection.TargetPlatform e).
Proof.
  intros Hperm.
  assert (Heq : GetPlatformStatus range_platforms bc
                = IsConnected <$> platforms bc).
  { apply map_eq. intros name. unfold GetPlatformStatus.
    assert (Hnd : NoDup (range_platforms (platforms bc)).*1).
    { rewrite Hperm. apply NoDup_fst_map_to_list. }
    rewrite foldl_insert_lookup by done.
    rewrite (list_to_map_proper _ (map_to_list (platforms bc)))
      by (done || apply Hperm).
    rewrite list_to_map_to_list, lookup_fmap, lookup_empty.
    by destruct (platforms bc !! name). }
  split; [exact Heq|].
  intros e. rewrite Heq, lookup_fmap. unfold reachable.
  by destruct (platforms bc !! BridgeConnection.TargetPlatform e).
Qed.

Lemma GetPlatformStatus_snapshot_witness :
  GetPlatformStatus map_to_list two_routes_core
  = <["matrix" := true]> (<["telegram" := false]> ∅).
Proof.
  destruct (GetPlatformStatus_snapshot map_to_list two_routes_core
              ltac:(reflexivity)) as [-> _].
  vm_compute. reflexivity.
Defined.

Lemma count_edges (l : list BridgeConnection.t) (st : Z * Z) :
  foldl (λ '(totalBridges, activeBridges) conn,
           (totalBridges + 1,
            if BridgeConnection.IsActive conn
            then activeBridges + 1 else activeBridges))
        st l
  = (st.1 + Z.of_nat (length l),
     st.2 + Z.of_nat (length (filter (λ e, BridgeConnection.IsActive e = true) l))).
Proof.
  revert st. induction l as [|e l IH]; intros [t a].
  - simpl. f_equal; lia.
  - simpl foldl. rewrite IH. rewrite filter_cons. simpl.
    destruct (BridgeConnection.IsActive e) eqn:He.
    + rewrite decide_True by done. simpl. f_equal; lia.
    + rewrite decide_False by done. f_equal; lia.
Qed.

(** What [GetBridgeStats] reports, whatever the order of the loop. *)
Lemma GetBridgeStats_counts range_connections bc :
  (∀ m, range_connections m ≡ₚ map_to_list m) →
  GetBridgeStats range_connections bc
  = <["bridged_channels" := Z.of_nat (size (connections bc))]>
      (<["registered_platforms" := Z.of_nat (size (platforms bc))]>
         (<["active_bridges" :=
              Z.of_nat (length (filter (λ e, BridgeConnection.IsActive e = true)
                                       (edges (connections bc)))) `quot` 2]>
            (<["total_bridges" :=
                 Z.of_nat (length (edges (connections bc))) `quot` 2]> ∅))).
Proof.
  intros Hperm. unfold GetBridgeStats. cbv zeta.
  rewrite (foldl_ext_in _
             (λ st entry,
                foldl (λ '(totalBridges, activeBridges) conn,
                         (totalBridges + 1,
                          if BridgeConnection.IsActive conn
                          then activeBridges + 1 else activeBridges))
                      st (snd entry)))
    by (by intros ? [? ?] ?).
  rewrite <- (foldl_bind _ snd), count_edges. simpl.
  assert (Hel : range_connections (connections bc) ≫= snd
                ≡ₚ edges (connections bc)).
  { rewrite Hperm. by rewrite bind_snd_elems. }
  by rewrite !Hel.
Qed.

Lemma quot_succ (n : nat) : Z.of_nat (n + 2) `quot` 2 = Z.of_nat n `quot` 2 + 1.
Proof.
  rewrite !Z.quot_div_nonneg by lia.
  replace (Z.of_nat (n + 2)) with (Z.of_nat n + 1 * 2) by lia.
  by rewrite Z.div_add by lia.
Qed.

(** X5. A successful [AddBridge] raises both [total_bridges] and
    [active_bridges] of [GetBridgeStats] by exactly one, whatever the graph
    was and whatever the order of the counting loops; the number of
    registered platforms stays, and the number of bridged channels grows by
    at most two. *)
Theorem GetBridgeStats_AddBridge range1 range2 sp sc tp tc now bc :
  (∀ m, range1 m ≡ₚ map_to_list m) →
  (∀ m, range2 m ≡ₚ map_to_list m) →
  err (AddBridge sp sc tp tc now bc) = None →
  let before := GetBridgeStats range1 bc in
  let after := GetBridgeStats range2 (core (AddBridge sp sc tp tc now bc)) in
  after !! "total_bridges" = (λ n, n + 1) <$> before !! "total_bridges"
  ∧ after !! "active_bridges" = (λ n, n + 1) <$> before !! "active_bridges"
  ∧ after !! "registered_platforms" = before !! "registered_platforms"
  ∧ ∃ n m, before !! "bridged_channels" = Some n
           ∧ after !! "bridged_channels" = Some m
           ∧ n ≤ m ≤ n + 2.
Proof.
  intros H1 H2 Hok. cbv zeta.
  rewrite !GetBridgeStats_counts by done.
  destruct (AddBridge_ok _ _ _ _ _ _ Hok) as (_ & _ & Hp & Hc).
  rewrite Hp, Hc. unfold edges.
  set (fwd := newConnection sp sc tp tc now).
  set (rev := newConnection tp tc sp sc now).
  assert (Hel : elems (append_at tc rev (append_at sc fwd (connections bc)))
                ≡ₚ elems (connections bc) ++ [fwd; rev]).
  { rewrite !elems_append_at. by rewrite <- app_assoc. }
  conjuncts.
  - rewrite lookup_insert_ne, lookup_insert_ne, lookup_insert_ne,
      lookup_insert_eq by done.
    rewrite lookup_insert_ne, lookup_insert_ne, lookup_insert_ne,
      lookup_insert_eq by done.
    simpl. f_equal. rewrite Hel, length_app. simpl. apply quot_succ.
  - rewrite lookup_insert_ne, lookup_insert_ne, lookup_insert_eq by done.
    rewrite lookup_insert_ne, lookup_insert_ne, lookup_insert_eq by done.
    simpl. f_equal. rewrite Hel, filter_app, length_app. simpl.
    apply quot_succ.
  - rewrite lookup_insert_ne, lookup_insert_eq by done.
    by rewrite lookup_insert_ne, lookup_insert_eq by done.
  - eexists _, _. rewrite !lookup_insert_eq. split; [done|]. split; [done|].
    unfold append_at.
    pose proof (map_size_insert tc (default [] (<[sc:=default [] (connections bc !! sc) ++ [fwd]]> (connections bc) !! tc) ++ [rev])
                  (<[sc:=default [] (connections bc !! sc) ++ [fwd]]> (connections bc))) as Ht.
    pose proof (map_size_insert sc (default [] (connections bc !! sc) ++ [fwd])
                  (connections bc)) as Hs.
    rewrite Ht, Hs. repeat case_match; unfold id; lia.
Qed.

Lemma GetBridgeStats_AddBridge_witness :
  let bc := started None in
  let added := AddBridge "discord" "100" "telegram" "200" 5 bc in
  GetBridgeStats map_to_list bc !! "total_bridges" = Some 0
  ∧ GetBridgeStats map_to_list (core added) !! "total_bridges" = Some 1
  ∧ GetBridgeStats map_to_list (core added) !! "active_bridges" = Some 1.
Proof.
  cbv zeta.
  destruct (GetBridgeStats_AddBridge map_to_list map_to_list
              "discord" "100" "telegram" "200" 5 (started None)
              ltac:(reflexivity) ltac:(reflexivity)
              ltac:(vm_compute; reflexivity)) as (Ht & Ha & _).
  split; [vm_compute; reflexivity|].
  split; [rewrite Ht|rewrite Ha]; vm_compute; reflexivity.
Defined.

Lemma unlinked_keys c i conns conn g k :
  g !! c = Some conns →
  is_Some (unlinked c i conns conn g !! k) ↔ is_Some (g !! k).
Proof.
  intros Hc. unfold unlinked. cbv zeta.
  set (g1 := <[c := cut i conns]> g).
  assert (H1 : ∀ k, is_Some (g1 !! k) ↔ is_Some (g !! k)).
  { intros k'. unfold g1. rewrite lookup_insert_is_Some'.
    split; [intros [->|?]; [by rewrite Hc|done]|by right]. }
  destruct (list_find _ _) as [[j r]|] eqn:Hfind; [|apply H1].
  rewrite lookup_insert_is_Some', H1.
  split; [intros [<-|?]; [|done]|by right].
  apply H1. destruct (g1 !! BridgeConnection.TargetChannelID conn); [done|].
  simpl in Hfind. discriminate.
Qed.

(** X6. [RemoveBridge] never deletes an entry of the graph: the channels
    with an entry are the same after the call as before, whether it
    succeeds or not, so a channel whose last bridge was removed is still
    counted by [GetBridgeStats] among the bridged channels. *)
Theorem RemoveBridge_keeps_channels c P now bc range_connections :
  let bc' := core (RemoveBridge c P now bc) in
  (∀ k, is_Some (connections bc' !! k) ↔ is_Some (connections bc !! k))
  ∧ GetBridgeStats range_connections bc' !! "bridged_channels"
    = GetBridgeStats range_connections bc !! "bridged_channels"
  ∧ GetBridgeStats range_connections bc' !! "registered_platforms"
    = GetBridgeStats range_connections bc !! "registered_platforms".
Proof.
  cbv zeta.
  assert (Hkeys : ∀ k, is_Some (connections (core (RemoveBridge c P now bc)) !! k)
                       ↔ is_Some (connections bc !! k)).
  { intros k.
    destruct (connections bc !! c) as [conns|] eqn:Hc;
      [|by unfold RemoveBridge; rewrite Hc].
    destruct (list_find (λ conn, BridgeConnection.TargetPlatform conn = P) conns)
      as [[i conn]|] eqn:Hfind;
      [|by unfold RemoveBridge; rewrite Hc, Hfind].
    destruct (RemoveBridge_found c P now bc conns i conn Hc Hfind) as [_ ->].
    by apply unlinked_keys. }
  assert (Hplat : platforms (core (RemoveBridge c P now bc)) = platforms bc).
  { unfold RemoveBridge. repeat case_match; done. }
  split; [exact Hkeys|]. unfold GetBridgeStats. cbv zeta.
  rewrite !lookup_insert_eq.
  rewrite lookup_insert_ne, lookup_insert_eq by done.
  rewrite lookup_insert_ne, lookup_insert_eq by done.
  rewrite Hplat. split; [|done]. do 2 f_equal.
  rewrite <- !size_dom. f_equal. apply set_eq. intros k.
  by rewrite !elem_of_dom.
Qed.

(** X7. [AddBridge] with a platform that has no registered adapter is
    refused before anything is written: the error names the source
    platform if it is the one missing, else the target platform; nothing
    is logged, and the core, its store included, is exactly as before. *)
Theorem AddBridge_unregistered sp sc tp tc now bc :
  platforms bc !! sp = None ∨ platforms bc !! tp = None →
  let o := AddBridge sp sc tp tc now bc in
  core o = bc
  ∧ events o = []
  ∧ err o = Some (if decide (platforms bc !! sp = None)
                  then "source platform " +:+ sp +:+ " not registered"
                  else "target platform " +:+ tp +:+ " not registered").
Proof.
  intros H. cbv zeta. unfold AddBridge.
  destruct (platforms bc !! sp) eqn:Hsp.
  - destruct H as [?|Htp]; [done|]. rewrite Htp.
    by rewrite decide_False.
  - by rewrite decide_True.
Qed.

Lemma AddBridge_unregistered_witness :
  let bc := core (RegisterPlatform (Discord up_discord)
                    (NewBridgeCore a_schedule (Some (empty_store no_faults))).1) in
  let o := AddBridge "discord" "100" "telegram" "200" 5 bc in
  core o = bc ∧ err o = Some "target platform telegram not registered".
Proof.
  cbv zeta.
  destruct (AddBridge_unregistered "discord" "100" "telegram" "200" 5
              (core (RegisterPlatform (Discord up_discord)
                 (NewBridgeCore a_schedule (Some (empty_store no_faults))).1))
              ltac:(right; vm_compute; reflexivity)) as (Hc & _ & He).
  split; [exact Hc|]. rewrite He. vm_compute. reflexivity.
Defined.

(** ** What every core the program can reach keeps true *)

Lemma graph_ok_empty : graph_ok ∅.
Proof. intros c l e Hc. by rewrite lookup_empty in Hc. Qed.

Lemma graph_ok_append_at k x g :
  BridgeConnection.SourceChannelID x = k →
  BridgeConnection.IsActive x = true →
  graph_ok g → graph_ok (append_at k x g).
Proof.
  intros Hk Hx Hg c l e Hc He. unfold append_at in Hc.
  destruct (decide (k = c)) as [<-|Hne].
  - rewrite lookup_insert_eq in Hc. injection Hc as <-.
    apply elem_of_app in He as [He|He].
    + destruct (g !! k) as [l0|] eqn:Hl0; [by apply (Hg k l0)|].
      by apply elem_of_nil in He.
    + apply list_elem_of_singleton in He as ->. done.
  - rewrite lookup_insert_ne in Hc by done. by apply (Hg c l).
Qed.

Lemma graph_ok_group (E : list BridgeConnection.t) g :
  (∀ e, e ∈ E → BridgeConnection.IsActive e = true) →
  graph_ok g → graph_ok (group BridgeConnection.SourceChannelID E g).
Proof.
  revert g. induction E as [|x E IH]; intros g HE Hg; [done|].
  simpl. apply IH.
  - intros e He. apply HE. by right.
  - apply graph_ok_append_at; [done| |done]. apply HE. by left.
Qed.

Lemma graph_ok_shrink k l' g :
  (∀ l, g !! k = Some l → l' ⊆ l) → is_Some (g !! k) →
  graph_ok g → graph_ok (<[k := l']> g).
Proof.
  intros Hsub [l0 Hl0] Hg c l e Hc He.
  destruct (decide (k = c)) as [<-|Hne].
  - rewrite lookup_insert_eq in Hc. injection Hc as <-.
    apply (Hg k l0 e Hl0). by apply (Hsub l0).
  - rewrite lookup_insert_ne in Hc by done. by apply (Hg c l).
Qed.

Lemma cut_subseteq {A} (i : nat) (s : list A) : cut i s ⊆ s.
Proof.
  intros x Hx. unfold cut in Hx. apply elem_of_app in Hx as [Hx|Hx].
  - by apply subseteq_take in Hx.
  - by apply subseteq_drop in Hx.
Qed.

Lemma graph_ok_unlinked c i conns conn g :
  g !! c = Some conns → graph_ok g → graph_ok (unlinked c i conns conn g).
Proof.
  intros Hc Hg. unfold unlinked. cbv zeta.
  assert (H1 : graph_ok (<[c := cut i conns]> g)).
  { apply graph_ok_shrink; [|by rewrite Hc|done].
    intros l Hl. rewrite Hc in Hl. injection Hl as <-. apply cut_subseteq. }
  set (g1 := <[c := cut i conns]> g) in *.
  destruct (g1 !! BridgeConnection.TargetChannelID conn) as [rs|] eqn:Hrs;
    [|done].
  simpl. destruct (list_find _ rs) as [[j r]|]; [|done].
  apply graph_ok_shrink; [|by rewrite Hrs|done].
  intros l Hl. rewrite Hrs in Hl. injection Hl as <-. apply cut_subseteq.
Qed.

Lemma roomEdges_active entry e :
  e ∈ roomEdges entry → BridgeConnection.IsActive e = true.
Proof.
  unfold roomEdges. destruct (_ <? _)%nat; [by intros ?%elem_of_nil|].
  intros (p & Hin & _)%list_elem_of_bind.
  apply list_elem_of_bind in Hin as (q & Hin & _).
  destruct (decide _); [by apply elem_of_nil in Hin|].
  by apply list_elem_of_singleton in Hin as ->.
Qed.

Lemma graph_ok_NewBridgeCore s d : graph_ok (connections (NewBridgeCore s d).1).
Proof.
  unfold NewBridgeCore, loadBridgesFromDB. cbn [db].
  destruct d as [d|]; [|apply graph_ok_empty].
  destruct (database.GetAllActiveBridges _ d) as [[e|bridges] d'];
    [apply graph_ok_empty|].
  cbn [err core fst connections with_connections].
  rewrite foldl_bridgeRoom, foldl_link. cbn [fst connections].
  apply graph_ok_group; [|apply graph_ok_empty].
  intros e (entry & He & _)%list_elem_of_bind. by apply roomEdges_active in He.
Qed.

Lemma graph_ok_AddBridge sp sc tp tc now bc :
  graph_ok (connections bc) →
  graph_ok (connections (core (AddBridge sp sc tp tc now bc))).
Proof.
  intros Hg. destruct (err (AddBridge sp sc tp tc now bc)) as [e|] eqn:He.
  - by rewrite (AddBridge_failed _ _ _ _ _ _ _ He).
  - destruct (AddBridge_ok _ _ _ _ _ _ He) as (_ & _ & _ & ->).
    by repeat apply graph_ok_append_at.
Qed.

Lemma RemoveBridge_missed c P now bc :
  list_find (λ conn, BridgeConnection.TargetPlatform conn = P)
            (GetBridges c bc) = None →
  core (RemoveBridge c P now bc) = bc.
Proof.
  unfold RemoveBridge, GetBridges. intros H.
  destruct (connections bc !! c) as [conns|]; [|done].
  simpl in H. by rewrite H.
Qed.

Lemma graph_ok_RemoveBridge c P now bc :
  graph_ok (connections bc) →
  graph_ok (connections (core (RemoveBridge c P now bc))).
Proof.
  intros Hg.
  destruct (list_find (λ conn, BridgeConnection.TargetPlatform conn = P)
              (GetBridges c bc)) as [[i conn]|] eqn:Hfind;
    [|by rewrite RemoveBridge_missed].
  unfold GetBridges in Hfind.
  destruct (connections bc !! c) as [conns|] eqn:Hc; [|done].
  destruct (RemoveBridge_found c P now bc conns i conn Hc Hfind) as [_ ->].
  by apply graph_ok_unlinked.
Qed.

Lemma ProcessMessageLegacy_core sp ch u ty content now bc :
  core (ProcessMessageLegacy sp ch u ty content now bc).2 = bc.
Proof.
  unfold ProcessMessageLegacy. destruct (decide _); [done|].
  apply ProcessMessage_core.
Qed.

Lemma graph_ok_serve bc r :
  graph_ok (connections bc) → graph_ok (connections (serve bc r)).
Proof.
  intros Hg. destruct r; simpl.
  - exact Hg.
  - by apply graph_ok_AddBridge.
  - by apply graph_ok_RemoveBridge.
  - by rewrite ProcessMessage_core.
  - by rewrite ProcessMessageLegacy_core.
  - exact Hg.
Qed.

Lemma bridgeTo_active bc message e sp tp :
  BridgeConnection.IsActive e = true →
  Log (SkippingInactive sp tp) ∉ bridgeTo bc message e.
Proof.
  intros Hact. unfold bridgeTo, sendRegularChecked, sendRegular.
  rewrite Hact. cbn [negb fst].
  repeat case_match;
    repeat first [ apply not_elem_of_nil
                 | apply not_elem_of_cons; split; [discriminate|]
                 | apply not_elem_of_app; split ].
Qed.

(** X8. In every core the program can reach (a startup on any store, or on
    none, followed by any sequence of calls of the core's methods) each
    edge of the graph is filed under its own source channel and is active;
    the fan-out therefore never skips a route as inactive. *)
Theorem reachable_graph_invariant s d rs c e message sp tp :
  let bc := run rs (NewBridgeCore s d).1 in
  (e ∈ GetBridges c bc →
   BridgeConnection.SourceChannelID e = c
   ∧ BridgeConnection.IsActive e = true)
  ∧ Log (SkippingInactive sp tp) ∉ events (ProcessMessage message bc).
Proof.
  cbv zeta.
  assert (Hg : graph_ok (connections (run rs (NewBridgeCore s d).1))).
  { unfold run. generalize (graph_ok_NewBridgeCore s d).
    generalize (NewBridgeCore s d).1. induction rs as [|r rs IH]; intros bc Hbc.
    - exact Hbc.
    - simpl. apply IH. by apply graph_ok_serve. }
  set (bc := run rs (NewBridgeCore s d).1) in *.
  assert (Hroutes : ∀ k x, x ∈ GetBridges k bc →
            BridgeConnection.SourceChannelID x = k
            ∧ BridgeConnection.IsActive x = true).
  { intros k x Hx. unfold GetBridges in Hx.
    destruct (connections bc !! k) as [l|] eqn:Hl;
      [by apply (Hg k l)|by apply elem_of_nil in Hx]. }
  split; [apply Hroutes|].
  unfold ProcessMessage. cbv zeta.
  fold (GetBridges (BridgeMessage.SourceChannelID message) bc).
  destruct (decide _); cbn [events].
  - by intros ?%list_elem_of_singleton.
  - intros Hin. do 2 (apply elem_of_cons in Hin as [?|Hin]; [done|]).
    apply list_elem_of_bind in Hin as (x & Hin & Hx).
    apply Hroutes in Hx as [_ Hact]. by apply bridgeTo_active in Hin.
Qed.

Lemma core_store_ok_serve bc r : core_store_ok bc → core_store_ok (serve bc r).
Proof.
  intros Hok. destruct r; simpl.
  - exact Hok.
  - by apply core_store_ok_AddBridge.
  - by apply core_store_ok_RemoveBridge.
  - by rewrite ProcessMessage_core.
  - by rewrite ProcessMessageLegacy_core.
  - exact Hok.
Qed.

(** X9. The constraints of the schema, one row per channel in
    [room_mappings] and one row per room in [bridge_config], hold of the
    store of every core the program can reach from a store that satisfies
    them, also when statements fail on the way. *)
Theorem store_constraints_invariant s d rs :
  store_ok d →
  core_store_ok (run rs (NewBridgeCore s (Some d)).1).
Proof.
  intros Hd. unfold run.
  generalize (core_store_ok_NewBridgeCore s d Hd).
  generalize (NewBridgeCore s (Some d)).1.
  induction rs as [|r rs IH]; intros bc Hbc; [exact Hbc|].
  simpl. apply IH. by apply core_store_ok_serve.
Qed.

Lemma store_constraints_invariant_witness :
  core_store_ok
    (run [DoRegisterPlatform (Discord up_discord);
          DoRegisterPlatform (Telegram up_telegram);
          DoAddBridge "discord" "100" "telegram" "200" 5;
          DoAddBridge "discord" "100" "telegram" "300" 6;
          DoRemoveBridge "100" "telegram" 7]
         (NewBridgeCore a_schedule (Some three_rooms)).1).
Proof.
  apply (store_constraints_invariant a_schedule three_rooms).
  apply three_rooms_ok.
Defined.

(** ** Startup *)

(** X29. [NewBridgeCore] always yields a core, with no adapter and no
    display name, so that every user is shown by its identifier.  Without
    a store, or when the query of the startup rebuild fails, the graph is
    empty and the failure is logged in one line, at startup and nowhere
    else; when the query is answered with no row, the graph is empty and
    nothing is logged. *)
Theorem NewBridgeCore_starts s d :
  let bc := (NewBridgeCore s d).1 in
  let logged := (NewBridgeCore s d).2 in
  platforms bc = ∅
  ∧ (∀ p u, getDisplayName p u bc = u)
  ∧ (d = None →
     bc = mkBridgeCore ∅ ∅ ∅ None
     ∧ logged = [Log (LoadFailed "database not initialized")])
  ∧ (∀ d0 e, d = Some d0 →
       database.faults d0 (database.issued d0) = Some e →
       bc = mkBridgeCore ∅ ∅ ∅ (Some (database.sent d0))
       ∧ logged
         = [Log (LoadFailed
                   ("failed to get active bridges: failed to query active bridges: "
                      +:+ e))])
  ∧ (∀ d0, d = Some d0 → fair s →
       database.faults d0 (database.issued d0) = None →
       database.joined d0 = [] →
       bc = mkBridgeCore ∅ ∅ ∅ (Some (database.sent d0)) ∧ logged = []).
Proof.
  cbv zeta.
  assert (Hfresh : platforms (NewBridgeCore s d).1 = ∅
                   ∧ userMappings (NewBridgeCore s d).1 = ∅).
  { unfold NewBridgeCore, loadBridgesFromDB. cbn [db].
    destruct d as [d0|]; [|done].
    by destruct (database.GetAllActiveBridges _ d0) as [[e|bridges] d']. }
  destruct Hfresh as [Hp Hu]. split; [exact Hp|]. split.
  { intros p u. unfold getDisplayName. by rewrite Hu, lookup_empty. }
  split; [by intros ->|]. split.
  - intros d0 e -> Hf.
    unfold NewBridgeCore, loadBridgesFromDB, database.GetAllActiveBridges,
      database.Query. cbn [db]. by rewrite Hf.
  - intros d0 -> Hfair Hf Hrows.
    assert (Hperm : ∀ {A} (l : list A), l ≡ₚ [] → l = []).
    { intros A l Hl. by apply Permutation_nil_r. }
    unfold NewBridgeCore, loadBridgesFromDB, database.GetAllActiveBridges,
      database.Query. cbn [db]. rewrite Hf, Hrows.
    rewrite (Hperm _ _ (order_by_perm s Hfair [])). cbn [foldl].
    rewrite (Hperm _ (range_bridges s ∅)).
    2: { rewrite (range_bridges_perm s Hfair). by rewrite map_to_list_empty. }
    cbn [groupByRoom foldl].
    rewrite (Hperm _ (range_roomGroups s ∅)).
    2: { rewrite (range_roomGroups_perm s Hfair). by rewrite map_to_list_empty. }
    done.
Qed.

(** ** What the statements leave in the store *)

Lemma CreateOrGetRoomMapping_bound roomID platform platformRoomID roomName
    roomType now d m d' :
  database.CreateOrGetRoomMapping roomID platform platformRoomID roomName
    roomType now d = (inr m, d') →
  bound d' roomID platform platformRoomID.
Proof.
  unfold database.CreateOrGetRoomMapping, database.QueryRow, database.Exec.
  destruct (database.faults d (database.issued d)); [done|].
  destruct (database.select_room_mapping _ _ _ d) as [mapping|] eqn:Hsel.
  - destruct (database.faults (database.sent d) _); [done|].
    cbn. intros [= <- <-]. unfold database.select_room_mapping in Hsel.
    apply fmap_Some in Hsel as ([i x] & Hfind & ->).
    apply list_find_Some in Hfind as (Hi & (Hr & Hp & Hc) & _).
    apply Exists_exists. eexists. split.
    + cbn. apply list_elem_of_fmap. exists x.
      split; [reflexivity|by eapply list_elem_of_lookup_2].
    + cbn. rewrite decide_True by done. cbn. unfold channel. cbn.
      by rewrite Hr, Hp, Hc.
  - destruct (database.faults (database.sent d) _); [done|].
    unfold database.insert_room_mapping. destruct (decide _); [done|].
    cbn. intros [= <- <-]. apply Exists_exists. eexists. split.
    + cbn. apply elem_of_app. right. apply list_elem_of_here.
    + done.
Qed.

Lemma bound_upd (upd : RoomMapping.t → RoomMapping.t) d d' roomID platform
    platformRoomID :
  (∀ m, RoomMapping.RoomID (upd m) = RoomMapping.RoomID m
        ∧ channel (upd m) = channel m
        ∧ (RoomMapping.IsActive m = true → RoomMapping.IsActive (upd m) = true)) →
  database.room_mappings d' = upd <$> database.room_mappings d →
  bound d roomID platform platformRoomID →
  bound d' roomID platform platformRoomID.
Proof.
  intros Hupd Hrows (m & Hm & Hr & Hc & Ha)%Exists_exists.
  apply Exists_exists. exists (upd m). destruct (Hupd m) as (? & ? & ?).
  split; [rewrite Hrows; apply list_elem_of_fmap; by exists m|].
  split; [congruence|]. split; [congruence|auto].
Qed.

Lemma bound_more d d' l roomID platform platformRoomID :
  database.room_mappings d' = database.room_mappings d ++ l →
  bound d roomID platform platformRoomID →
  bound d' roomID platform platformRoomID.
Proof.
  intros Hrows H. unfold bound. rewrite Hrows. apply Exists_app. by left.
Qed.

Lemma CreateOrGetRoomMapping_keeps_bound roomID platform platformRoomID
    roomName roomType now d r p c :
  bound d r p c →
  bound (database.CreateOrGetRoomMapping roomID platform platformRoomID
           roomName roomType now d).2 r p c.
Proof.
  intros Hb.
  unfold database.CreateOrGetRoomMapping, database.QueryRow, database.Exec.
  destruct (database.faults d (database.issued d)); [done|].
  destruct (database.select_room_mapping _ _ _ d) as [mapping|] eqn:Hsel.
  - destruct (database.faults (database.sent d) _); [done|].
    cbn. eapply bound_upd; [|reflexivity|exact Hb].
    intros m. cbv beta. by destruct (decide _).
  - destruct (database.faults (database.sent d) _); [done|].
    unfold database.insert_room_mapping. destruct (decide _); [done|].
    cbn. eapply bound_more; [|exact Hb]. reflexivity.
Qed.

Lemma CreateOrGetRoomMapping_configs roomID platform platformRoomID roomName
    roomType now d :
  database.bridge_config
    (database.CreateOrGetRoomMapping roomID platform platformRoomID roomName
       roomType now d).2
  = database.bridge_config d.
Proof.
  unfold database.CreateOrGetRoomMapping, database.QueryRow, database.Exec.
  destruct (database.faults d (database.issued d)); [done|].
  destruct (database.select_room_mapping _ _ _ d) as [mapping|].
  - by destruct (database.faults (database.sent d) _).
  - destruct (database.faults (database.sent d) _); [done|].
    unfold database.insert_room_mapping. by destruct (decide _).
Qed.

Lemma CreateOrGetRoom_tables name now d :
  database.room_mappings (database.CreateOrGetRoom name now d).2
  = database.room_mappings d
  ∧ database.bridge_config (database.CreateOrGetRoom name now d).2
    = database.bridge_config d.
Proof.
  unfold database.CreateOrGetRoom, database.QueryRow, database.Exec.
  destruct (database.faults d (database.issued d)); [done|].
  destruct (database.select_room name d); [done|].
  by destruct (database.faults (database.sent d) _).
Qed.

Lemma CreateOrGetBridgeConfig_config roomID now d c d' :
  database.CreateOrGetBridgeConfig roomID now d = (inr c, d') →
  configs_active d →
  database.room_mappings d' = database.room_mappings d
  ∧ configs_active d' ∧ config_active d' roomID.
Proof.
  unfold database.CreateOrGetBridgeConfig, database.QueryRow, database.Exec.
  intros H Hact.
  destruct (database.faults d (database.issued d)); [done|].
  destruct (database.select_bridge_config roomID d) as [config|] eqn:Hsel.
  - injection H as <- <-. split; [done|]. split; [done|].
    unfold database.select_bridge_config in Hsel.
    apply fmap_Some in Hsel as ([i x] & Hfind & ->).
    apply list_find_Some in Hfind as (Hi & Hr & _).
    apply Exists_exists. exists x.
    assert (Hx : x ∈ database.bridge_config d) by (by eapply list_elem_of_lookup_2).
    split; [exact Hx|]. split; [done|].
    unfold configs_active in Hact. rewrite Forall_forall in Hact. by apply Hact.
  - destruct (database.faults (database.sent d) _); [done|].
    unfold database.insert_bridge_config in H. destruct (decide _); [done|].
    cbn in H. injection H as <- <-. cbn. split; [done|].
    split.
    + unfold configs_active. cbn. apply Forall_app. split; [done|].
      by apply Forall_singleton.
    + apply Exists_exists. eexists. split.
      * cbn. apply elem_of_app. right. apply list_elem_of_here.
      * done.
Qed.

(** A bridge saved is a room with both channels bound and a configuration
    switched on. *)
Lemma saveBridgeToDatabase_saved sp sc tp tc now d :
  configs_active d →
  (saveBridgeToDatabase sp sc tp tc now d).1 = None →
  ∃ roomID,
    bound (saveBridgeToDatabase sp sc tp tc now d).2 roomID sp sc
    ∧ bound (saveBridgeToDatabase sp sc tp tc now d).2 roomID tp tc
    ∧ config_active (saveBridgeToDatabase sp sc tp tc now d).2 roomID.
Proof.
  intros Hact. unfold saveBridgeToDatabase.
  pose proof (CreateOrGetRoom_tables
    ("bridge_" +:+ sp +:+ "_" +:+ sc +:+ "_" +:+ tp +:+ "_" +:+ tc) now d)
    as [_ Hcfg0].
  destruct (database.CreateOrGetRoom _ now d) as [[e|room] d1]; [done|].
  cbn [snd] in Hcfg0.
  destruct (database.CreateOrGetRoomMapping (Room.ID room) sp sc _ _ now d1)
    as [[e|m1] d2] eqn:H1; [done|].
  pose proof (CreateOrGetRoomMapping_bound _ _ _ _ _ _ _ _ _ H1) as Hb1.
  pose proof (CreateOrGetRoomMapping_configs (Room.ID room) sp sc
                (sp +:+ "_" +:+ sc) "channel" now d1) as Hcfg1.
  rewrite H1 in Hcfg1. cbn [snd] in Hcfg1.
  pose proof (CreateOrGetRoomMapping_keeps_bound (Room.ID room) tp tc
                (tp +:+ "_" +:+ tc) "channel" now d2 _ _ _ Hb1) as Hb1'.
  pose proof (CreateOrGetRoomMapping_configs (Room.ID room) tp tc
                (tp +:+ "_" +:+ tc) "channel" now d2) as Hcfg2.
  destruct (database.CreateOrGetRoomMapping (Room.ID room) tp tc _ _ now d2)
    as [[e|m2] d3] eqn:H2; [done|].
  cbn [snd] in Hb1', Hcfg2.
  pose proof (CreateOrGetRoomMapping_bound _ _ _ _ _ _ _ _ _ H2) as Hb2.
  destruct (database.CreateOrGetBridgeConfig (Room.ID room) now d3)
    as [[e|c] d4] eqn:H3; [done|].
  intros _. cbn [snd]. exists (Room.ID room).
  assert (Hact3 : configs_active d3).
  { unfold configs_active. by rewrite Hcfg2, Hcfg1, Hcfg0. }
  destruct (CreateOrGetBridgeConfig_config _ _ _ _ _ H3 Hact3)
    as (Hrows & _ & Hcfg).
  unfold bound. rewrite Hrows. done.
Qed.

(** A room with two channels bound and its configuration on gives the two
    edges at the next startup. *)
Lemma rebuilt_bound s d roomID sp sc tp tc :
  fair s → store_ok d → answers d →
  bound d roomID sp sc → bound d roomID tp tc → config_active d roomID →
  (sp, sc) ≠ (tp, tc) →
  ∃ e, e ∈ default [] (rebuilt s d !! sc)
       ∧ leaves sp sc e ∧ targets tp tc e
       ∧ BridgeConnection.IsActive e = true.
Proof.
  intros Hfair Hok [Hq Hs] (m1 & Hm1 & Hr1 & Hc1 & Ha1)%Exists_exists
    (m2 & Hm2 & Hr2 & Hc2 & Ha2)%Exists_exists Hcfg Hne.
  assert (Hj : ∀ m, m ∈ database.room_mappings d →
                 RoomMapping.RoomID m = roomID → RoomMapping.IsActive m = true →
                 database.scanned m ∈ database.joined d).
  { intros m Hm Hr Ha. rewrite joined_rows by apply Hok.
    apply list_elem_of_fmap. exists m. split; [done|].
    apply list_elem_of_filter. split; [|done]. split; [done|]. by rewrite Hr. }
  exists (dbConnection roomID (database.scanned m1) (database.scanned m2)).
  injection Hc1 as Hp1 Hi1. injection Hc2 as Hp2 Hi2.
  split; [|by cbn; unfold leaves, targets; cbn].
  rewrite (rebuilt_routes s d Hfair Hq (or_introl Hs) (joined_NoDup d Hok) sc).
  apply list_elem_of_filter. split; [done|].
  unfold pairs. apply list_elem_of_bind. exists (database.scanned m1).
  split; [|by apply Hj].
  apply list_elem_of_bind. exists (database.scanned m2).
  split; [|by apply Hj].
  rewrite decide_True.
  - cbn. rewrite Hr1. apply list_elem_of_here.
  - cbn. split; [congruence|]. unfold channel. cbn. congruence.
Qed.

(** ** The store across a restart *)

(** X10. A bridge added with success is there again after a restart: when
    the store keeps the constraints of the schema, none of its
    configurations is switched off and the two ends are different
    channels, the graph rebuilt from the store [AddBridge] leaves holds an
    active edge from the source channel to the target channel and one
    back, whatever the order the run time picks. *)
Theorem AddBridge_survives_restart s sp sc tp tc now bc d :
  fair s →
  db bc = Some d → store_ok d → configs_active d →
  (sp, sc) ≠ (tp, tc) →
  err (AddBridge sp sc tp tc now bc) = None →
  let d' := (saveBridgeToDatabase sp sc tp tc now d).2 in
  db (core (AddBridge sp sc tp tc now bc)) = Some d'
  ∧ (answers d' →
     (∃ e, e ∈ default [] (rebuilt s d' !! sc)
           ∧ leaves sp sc e ∧ targets tp tc e
           ∧ BridgeConnection.IsActive e = true)
     ∧ (∃ e, e ∈ default [] (rebuilt s d' !! tc)
             ∧ leaves tp tc e ∧ targets sp sc e
             ∧ BridgeConnection.IsActive e = true)).
Proof.
  intros Hfair Hdb Hok Hact Hne Herr. cbv zeta.
  pose proof (saveBridgeToDatabase_saved sp sc tp tc now d Hact) as Hsaved.
  pose proof (store_ok_saveBridgeToDatabase sp sc tp tc now d Hok) as Hok'.
  unfold AddBridge in Herr |- *. rewrite Hdb in Herr |- *.
  destruct (platforms bc !! sp); [|done].
  destruct (platforms bc !! tp); [|done].
  destruct (saveBridgeToDatabase sp sc tp tc now d) as [[e|] d'] eqn:Hsave;
    [done|].
  cbn [snd fst] in *. split; [done|]. intros Hans.
  destruct (Hsaved eq_refl) as (roomID & Hb1 & Hb2 & Hcfg).
  split; eapply rebuilt_bound; eauto.
Qed.

Lemma AddBridge_survives_restart_witness :
  let d' := (saveBridgeToDatabase "discord" "100" "telegram" "200" 5
               (database.sent (empty_store no_faults))).2 in
  (∃ e, e ∈ default [] (rebuilt a_schedule d' !! "100")
        ∧ leaves "discord" "100" e ∧ targets "telegram" "200" e
        ∧ BridgeConnection.IsActive e = true)
  ∧ (∃ e, e ∈ default [] (rebuilt a_schedule d' !! "200")
          ∧ leaves "telegram" "200" e ∧ targets "discord" "100" e
          ∧ BridgeConnection.IsActive e = true).
Proof.
  cbv zeta.
  apply (AddBridge_survives_restart a_schedule
           "discord" "100" "telegram" "200" 5
           (started (Some (empty_store no_faults)))
           (database.sent (empty_store no_faults))
           a_schedule_fair
           ltac:(vm_compute; reflexivity)
           (store_ok_sent _ (store_ok_empty no_faults))
           (Forall_nil_2 _)
           ltac:(discriminate)
           ltac:(vm_compute; reflexivity)).
  split; vm_compute; reflexivity.
Defined.

(** Every edge of a rebuilt graph joins two active rows of one room. *)
Lemma rebuilt_edge_rows s d e :
  fair s → store_ok d → e ∈ edges (rebuilt s d) →
  ∃ m1 m2,
    m1 ∈ database.room_mappings d ∧ m2 ∈ database.room_mappings d
    ∧ RoomMapping.IsActive m1 = true ∧ RoomMapping.IsActive m2 = true
    ∧ RoomMapping.RoomID m1 = RoomMapping.RoomID m2
    ∧ config_active d (RoomMapping.RoomID m1)
    ∧ source e = channel m1 ∧ target e = channel m2.
Proof.
  intros Hfair Hok He.
  destruct (database.faults d (database.issued d)) as [err|] eqn:Hq.
  { rewrite (rebuilt_failed s d err Hq) in He. unfold edges in He.
    rewrite elems_empty in He. by apply elem_of_nil in He. }
  assert (Hin : e ∈ pairs (database.joined d)).
  { destruct (database.scan_faults d (database.issued d)) as [err|] eqn:Hs.
    - destruct (decide (database.joined d = [])) as [Hnil|Hrows].
      + by rewrite <- (rebuilt_edges s d Hfair Hq (or_intror Hnil)
                         (joined_NoDup d Hok)).
      + rewrite (rebuilt_scan_failed s d err Hfair Hq Hs Hrows) in He.
        unfold edges in He. rewrite elems_empty in He.
        by apply elem_of_nil in He.
    - by rewrite <- (rebuilt_edges s d Hfair Hq (or_introl Hs)
                       (joined_NoDup d Hok)). }
  apply pairs_elem in Hin as (r1 & r2 & Hr1 & Hr2 & Hroom & _ & ->).
  apply (joined_elem d r1 Hok) in Hr1 as (m1 & Hm1 & -> & Ha1 & Hc1).
  apply (joined_elem d r2 Hok) in Hr2 as (m2 & Hm2 & -> & Ha2 & _).
  exists m1, m2. by repeat split.
Qed.

Lemma deactivated_fields (roomID : Z) (platform : string) (now : Z)
    (m : RoomMapping.t) :
  let m' := if decide (RoomMapping.RoomID m = roomID
                       ∧ RoomMapping.Platform m = platform)
            then RoomMapping.mk (RoomMapping.ID m) (RoomMapping.RoomID m)
                   (RoomMapping.Platform m) (RoomMapping.PlatformRoomID m)
                   (RoomMapping.RoomName m) (RoomMapping.RoomType m) false
                   (RoomMapping.CreatedAt m) now
            else m in
  channel m' = channel m
  ∧ RoomMapping.RoomID m' = RoomMapping.RoomID m
  ∧ RoomMapping.Platform m' = RoomMapping.Platform m
  ∧ RoomMapping.ID m' = RoomMapping.ID m
  ∧ (RoomMapping.RoomID m = roomID → RoomMapping.Platform m = platform →
     RoomMapping.IsActive m' = false)
  ∧ (RoomMapping.IsActive m' = true → RoomMapping.IsActive m = true).
Proof.
  cbv zeta. destruct (decide _) as [?|Hn]; conjuncts; try done.
  intros ? ?. by destruct Hn.
Qed.

Lemma removeBridgeFromDatabase_unbound sp sc tp now d m1 m2 :
  store_ok d →
  (removeBridgeFromDatabase sp sc tp now d).1 = None →
  m1 ∈ database.room_mappings (removeBridgeFromDatabase sp sc tp now d).2 →
  m2 ∈ database.room_mappings (removeBridgeFromDatabase sp sc tp now d).2 →
  channel m1 = (sp, sc) →
  RoomMapping.RoomID m1 = RoomMapping.RoomID m2 →
  RoomMapping.Platform m2 = tp →
  RoomMapping.IsActive m2 = false.
Proof.
  intros [Hnd _].
  unfold removeBridgeFromDatabase, database.GetRoomMappingByPlatformRoom,
    database.RemoveRoomMapping, database.QueryRow, database.Exec.
  destruct (database.faults d (database.issued d)); [done|].
  destruct (database.select_active_mapping sp sc d) as [m0|] eqn:Hsel; [|done].
  destruct (database.faults (database.sent d) _); [done|].
  cbn. intros _ Hm1 Hm2 Hc1 Hroom Hp2.
  unfold database.select_active_mapping in Hsel.
  apply fmap_Some in Hsel as ([i x] & Hfind & ->).
  apply list_find_Some in Hfind as (Hi & (Hp & Hc & _) & _).
  apply list_elem_of_lookup_2 in Hi. cbn [snd] in *.
  apply list_elem_of_fmap in Hm1 as (m1' & Hm1 & Hm1').
  apply list_elem_of_fmap in Hm2 as (m2' & Hm2 & Hm2').
  destruct (deactivated_fields (RoomMapping.RoomID x) tp now m1')
    as (Hc1' & Hr1' & _).
  destruct (deactivated_fields (RoomMapping.RoomID x) tp now m2')
    as (_ & Hr2' & Hp2' & _ & Hoff & _).
  rewrite <- Hm1 in Hc1', Hr1'. rewrite <- Hm2 in Hr2', Hp2', Hoff.
  assert (m1' = x) as ->.
  { apply (NoDup_fmap_eq channel (database.room_mappings d)); try done.
    rewrite <- Hc1', Hc1. unfold channel. by rewrite Hp, Hc. }
  apply Hoff; congruence.
Qed.

(** X11. A bridge removed with success, in the graph and in the store,
    stays removed after a restart: the graph rebuilt from the store
    [RemoveBridge] leaves has no edge from the source channel to the
    target platform, whatever the order the run time picks and whether or
    not the startup query is answered. *)
Theorem RemoveBridge_survives_restart s c P now bc conns i conn d e :
  fair s →
  connections bc !! c = Some conns →
  list_find (λ x, BridgeConnection.TargetPlatform x = P) conns = Some (i, conn) →
  db bc = Some d → store_ok d →
  (removeBridgeFromDatabase (BridgeConnection.SourcePlatform conn) c P now d).1
  = None →
  let d' := (removeBridgeFromDatabase (BridgeConnection.SourcePlatform conn)
               c P now d).2 in
  db (core (RemoveBridge c P now bc)) = Some d'
  ∧ (e ∈ edges (rebuilt s d') →
     leaves (BridgeConnection.SourcePlatform conn) c e →
     BridgeConnection.TargetPlatform e ≠ P).
Proof.
  intros Hfair Hc Hfind Hdb Hok Hrm. cbv zeta. split.
  - unfold RemoveBridge. rewrite Hc, Hfind. cbn [core].
    destruct (list_find _ _) as [[j r]|]; cbn [db with_connections];
      rewrite Hdb;
      by destruct (removeBridgeFromDatabase _ c P now d) as [[?|] ?].
  - intros He [Hsp Hsc] Htp.
    pose proof (store_ok_removeBridgeFromDatabase
                  (BridgeConnection.SourcePlatform conn) c P now d Hok) as Hok'.
    apply (rebuilt_edge_rows s _ e Hfair Hok') in He
      as (m1 & m2 & Hm1 & Hm2 & _ & Ha2 & Hroom & _ & Hs & Ht).
    assert (RoomMapping.IsActive m2 = false); [|congruence].
    apply (removeBridgeFromDatabase_unbound
             (BridgeConnection.SourcePlatform conn) c P now d m1 m2
             Hok Hrm Hm1 Hm2).
    + rewrite <- Hs. unfold source. by rewrite Hsp, Hsc.
    + exact Hroom.
    + unfold target, channel in Ht. congruence.
Qed.

Lemma RemoveBridge_survives_restart_witness :
  let bc := core (AddBridge "discord" "100" "telegram" "200" 5
                    (started (Some (empty_store no_faults)))) in
  let d := (saveBridgeToDatabase "discord" "100" "telegram" "200" 5
              (database.sent (empty_store no_faults))).2 in
  let d' := (removeBridgeFromDatabase "discord" "100" "telegram" 6 d).2 in
  db (core (RemoveBridge "100" "telegram" 6 bc)) = Some d'
  ∧ edges (rebuilt a_schedule d) ≠ []
  ∧ edges (rebuilt a_schedule d') = [].
Proof.
  cbv zeta. split; [|split; [by vm_compute|vm_compute; reflexivity]].
  apply (RemoveBridge_survives_restart a_schedule "100" "telegram" 6
           (core (AddBridge "discord" "100" "telegram" "200" 5
                    (started (Some (empty_store no_faults)))))
           [newConnection "discord" "100" "telegram" "200" 5] 0%nat
           (newConnection "discord" "100" "telegram" "200" 5)
           (saveBridgeToDatabase "discord" "100" "telegram" "200" 5
              (database.sent (empty_store no_faults))).2
           (newConnection "discord" "100" "telegram" "200" 5)
           a_schedule_fair
           ltac:(vm_compute; reflexivity)
           ltac:(vm_compute; reflexivity)
           ltac:(vm_compute; reflexivity)
           (store_ok_saveBridgeToDatabase _ _ _ _ _ _
              (store_ok_sent _ (store_ok_empty no_faults)))
           ltac:(vm_compute; reflexivity)).
Defined.

Lemma select_room_mapping_none roomID platform platformRoomID d m :
  store_ok d → m ∈ database.room_mappings d →
  channel m = (platform, platformRoomID) → RoomMapping.RoomID m ≠ roomID →
  database.select_room_mapping roomID platform platformRoomID d = None.
Proof.
  intros [Hnd _] Hm Hc Hr. unfold database.select_room_mapping.
  rewrite list_find_none; [done|].
  intros y Hy (Hry & Hpy & Hcy). apply Hr.
  assert (y = m) as ->; [|done].
  apply (NoDup_fmap_eq channel (database.room_mappings d)); try done.
  rewrite Hc. unfold channel. by rewrite Hpy, Hcy.
Qed.

(** X12. With a store, a channel belongs to one bridge room only.  When the
    source channel is already bound to an earlier room and no room of this
    bridge's name exists, [AddBridge] is refused by the store's
    [UNIQUE(platform, platform_room_id)]: it returns the wrapped error and
    leaves the graph and the mappings as they were, while the room row it
    had just inserted stays in the store. *)
Theorem AddBridge_channel_in_other_room sp sc tp tc now bc d m :
  is_Some (platforms bc !! sp) → is_Some (platforms bc !! tp) →
  db bc = Some d → store_ok d → answering 4 d →
  database.select_room (bridgeRoomName sp sc tp tc) d = None →
  m ∈ database.room_mappings d → channel m = (sp, sc) →
  RoomMapping.RoomID m ≤ database.seq_rooms d →
  let o := AddBridge sp sc tp tc now bc in
  err o = Some "failed to save bridge to database: failed to create source room mapping: failed to create room mapping: UNIQUE constraint failed: room_mappings.platform, room_mappings.platform_room_id"
  ∧ events o = []
  ∧ connections (core o) = connections bc
  ∧ database.room_mappings <$> db (core o) = Some (database.room_mappings d)
  ∧ database.rooms <$> db (core o)
    = Some (database.rooms d
              ++ [Room.mk (database.seq_rooms d + 1)
                          (bridgeRoomName sp sc tp tc) now now]).
Proof.
  intros [p Hp] [q Hq] Hdb Hok Hans Hroom Hm Hc Hle. cbv zeta.
  pose proof (Hans 0%nat ltac:(lia)) as H0.
  pose proof (Hans 1%nat ltac:(lia)) as H1.
  pose proof (Hans 2%nat ltac:(lia)) as H2.
  pose proof (Hans 3%nat ltac:(lia)) as H3.
  rewrite Nat.add_0_r in H0.
  replace (database.issued d + 1)%nat with (S (database.issued d)) in H1 by lia.
  replace (database.issued d + 2)%nat with (S (S (database.issued d))) in H2 by lia.
  replace (database.issued d + 3)%nat with (S (S (S (database.issued d)))) in H3 by lia.
  unfold AddBridge. rewrite Hp, Hq, Hdb.
  unfold saveBridgeToDatabase. fold (bridgeRoomName sp sc tp tc).
  unfold database.CreateOrGetRoom, database.QueryRow, database.Exec.
  rewrite H0, Hroom. cbn [database.faults database.issued database.sent].
  rewrite H1. cbn.
  unfold database.CreateOrGetRoomMapping, database.QueryRow, database.Exec.
  cbn [database.faults database.issued database.sent database.with_rooms].
  rewrite H2.
  rewrite (select_room_mapping_none _ sp sc _ m); [|done|done|done|lia].
  cbn [database.faults database.issued database.sent database.with_rooms].
  rewrite H3.
  unfold database.insert_room_mapping.
  cbn [database.room_mappings database.sent database.with_rooms].
  rewrite decide_True; [done|].
  apply Exists_exists. exists m. split; [done|].
  by injection Hc.
Qed.

Lemma AddBridge_channel_in_other_room_witness :
  let bc := core (AddBridge "discord" "100" "telegram" "200" 5
                    (started (Some (empty_store no_faults)))) in
  let o := AddBridge "discord" "100" "telegram" "300" 6 bc in
  err o = Some "failed to save bridge to database: failed to create source room mapping: failed to create room mapping: UNIQUE constraint failed: room_mappings.platform, room_mappings.platform_room_id"
  ∧ connections (core o) = connections bc.
Proof.
  cbv zeta.
  pose proof (AddBridge_channel_in_other_room
    "discord" "100" "telegram" "300" 6
    (core (AddBridge "discord" "100" "telegram" "200" 5
             (started (Some (empty_store no_faults)))))
    (saveBridgeToDatabase "discord" "100" "telegram" "200" 5
       (database.sent (empty_store no_faults))).2
    (RoomMapping.mk 1 1 "discord" "100" "discord_100" "channel" true 5 5)
    ltac:(vm_compute; eauto) ltac:(vm_compute; eauto)
    ltac:(vm_compute; reflexivity)
    (store_ok_saveBridgeToDatabase _ _ _ _ _ _
       (store_ok_sent _ (store_ok_empty no_faults)))
    ltac:(intros k _; reflexivity)
    ltac:(vm_compute; reflexivity)
    ltac:(vm_compute; apply list_elem_of_here)
    ltac:(reflexivity)
    ltac:(vm_compute; discriminate)) as H.
  cbv zeta in H. destruct H as (H1 & _ & H3 & _). split; [exact H1|exact H3].
Defined.

(** ** The statements of package [database] *)

Lemma list_find_unique {A} (P : A → Prop) `{!∀ x, Decision (P x)}
    (l : list A) (x : A) :
  x ∈ l → P x → (∀ y, y ∈ l → P y → y = x) →
  snd <$> list_find P l = Some x.
Proof.
  intros Hx HP Huniq.
  destruct (list_find_elem_of P l x Hx HP) as [[i y] Hfind].
  rewrite Hfind. simpl. f_equal.
  apply list_find_Some in Hfind as (Hi & HPy & _).
  apply Huniq; [by eapply list_elem_of_lookup_2|done].
Qed.

Lemma list_find_snoc {A} (P : A → Prop) `{!∀ x, Decision (P x)}
    (l : list A) (x : A) :
  list_find P l = None → P x →
  snd <$> list_find P (l ++ [x]) = Some x.
Proof.
  intros Hnone HP. apply list_find_None in Hnone.
  rewrite (list_find_middle P l [] x); [done| |done].
  intros y Hy. rewrite Forall_forall in Hnone. by apply Hnone.
Qed.

(** The one-reading definitions of package [database] are the clocked ones
    at a clock that stands still. *)
Lemma CreateOrGetRoom_still name now d :
  database.clocked.CreateOrGetRoom name (λ _, now) d
  = database.CreateOrGetRoom name now d.
Proof. reflexivity. Qed.

Lemma CreateOrGetRoomMapping_still roomID platform platformRoomID roomName
    roomType now d :
  database.clocked.CreateOrGetRoomMapping roomID platform platformRoomID
    roomName roomType (λ _, now) d
  = database.CreateOrGetRoomMapping roomID platform platformRoomID roomName
      roomType now d.
Proof. reflexivity. Qed.

Lemma CreateOrGetBridgeConfig_still roomID now d :
  database.clocked.CreateOrGetBridgeConfig roomID (λ _, now) d
  = database.CreateOrGetBridgeConfig roomID now d.
Proof. reflexivity. Qed.

(** X13. [CreateOrGetRoom] and [CreateOrGetBridgeConfig] called again with
    the same key on the store the first call left: the second call sends
    one statement, adds no row and returns the row the store holds for the
    key.  When the first call found the row, that is the struct the first
    call returned.  When the first call inserted it, the struct the first
    call returned and the row differ in their time stamps: the row has the
    first two readings of the clock, the struct the next two. *)
Theorem CreateOrGet_again name roomID clock clock' d :
  (∀ room d1,
     database.clocked.CreateOrGetRoom name clock d = (inr room, d1) →
     database.faults d1 (database.issued d1) = None →
     ∃ stored,
       database.clocked.CreateOrGetRoom name clock' d1
       = (inr stored, database.sent d1)
       ∧ stored ∈ database.rooms d1
       ∧ match database.select_room name d with
         | Some _ => stored = room
         | None =>
             stored = restamped_room room (clock 0%nat) (clock 1%nat)
             ∧ Room.CreatedAt room = clock 2%nat
             ∧ Room.UpdatedAt room = clock 3%nat
         end)
  ∧ (∀ config d1,
       database.clocked.CreateOrGetBridgeConfig roomID clock d
       = (inr config, d1) →
       database.faults d1 (database.issued d1) = None →
       ∃ stored,
         database.clocked.CreateOrGetBridgeConfig roomID clock' d1
         = (inr stored, database.sent d1)
         ∧ stored ∈ database.bridge_config d1
         ∧ match database.select_bridge_config roomID d with
           | Some _ => stored = config
           | None =>
               stored = restamped_config config (clock 0%nat) (clock 1%nat)
               ∧ BridgeConfig.CreatedAt config = clock 2%nat
               ∧ BridgeConfig.UpdatedAt config = clock 3%nat
           end).
Proof.
  split.
  - intros room d1.
    unfold database.clocked.CreateOrGetRoom at 1, database.QueryRow,
      database.Exec.
    destruct (database.faults d (database.issued d)); [done|].
    destruct (database.select_room name d) as [room0|] eqn:Hsel.
    + intros [= <- <-] Hf. exists room0.
      unfold database.clocked.CreateOrGetRoom, database.QueryRow. rewrite Hf.
      change (database.select_room name (database.sent d))
        with (database.select_room name d).
      rewrite Hsel. split; [done|]. split; [|done].
      unfold database.select_room in Hsel.
      apply fmap_Some in Hsel as ([i x] & Hfind & ->).
      apply list_find_Some in Hfind as (Hi & _).
      by eapply list_elem_of_lookup_2.
    + destruct (database.faults (database.sent d) _); [done|].
      cbn. intros [= <- <-] Hf.
      exists (Room.mk (database.seq_rooms d + 1) name (clock 0%nat)
                (clock 1%nat)).
      unfold database.clocked.CreateOrGetRoom, database.QueryRow. rewrite Hf.
      unfold database.select_room in Hsel |- *.
      cbn [database.rooms database.with_rooms].
      apply fmap_None in Hsel.
      rewrite (list_find_snoc _ _ _ Hsel) by done.
      split; [done|]. split; [|done].
      apply elem_of_app. right. apply list_elem_of_here.
  - intros config d1.
    unfold database.clocked.CreateOrGetBridgeConfig at 1, database.QueryRow,
      database.Exec.
    destruct (database.faults d (database.issued d)); [done|].
    destruct (database.select_bridge_config roomID d) as [config0|] eqn:Hsel.
    + intros [= <- <-] Hf. exists config0.
      unfold database.clocked.CreateOrGetBridgeConfig, database.QueryRow.
      rewrite Hf.
      change (database.select_bridge_config roomID (database.sent d))
        with (database.select_bridge_config roomID d).
      rewrite Hsel. split; [done|]. split; [|done].
      unfold database.select_bridge_config in Hsel.
      apply fmap_Some in Hsel as ([i x] & Hfind & ->).
      apply list_find_Some in Hfind as (Hi & _).
      by eapply list_elem_of_lookup_2.
    + destruct (database.faults (database.sent d) _); [done|].
      unfold database.clocked.insert_bridge_config.
      destruct (decide _); [done|].
      cbn. intros [= <- <-] Hf.
      exists (BridgeConfig.mk (database.seq_bridge_config d + 1) roomID
                true true true true "[]" 4000 (clock 0%nat) (clock 1%nat)).
      unfold database.clocked.CreateOrGetBridgeConfig, database.QueryRow.
      rewrite Hf.
      unfold database.select_bridge_config in Hsel |- *.
      cbn [database.bridge_config database.with_bridge_config].
      apply fmap_None in Hsel.
      rewrite (list_find_snoc _ _ _ Hsel) by done.
      split; [done|]. split; [|done].
      apply elem_of_app. right. apply list_elem_of_here.
Qed.

(** On an empty store and a clock that ticks, the room comes back from the
    insert stamped 12 and 13, and from the store stamped 10 and 11. *)
Lemma CreateOrGet_again_witness :
  let first := database.clocked.CreateOrGetRoom "bridge_discord_100" ticking
                 (empty_store no_faults) in
  first.1 = inr (Room.mk 1 "bridge_discord_100" 12 13)
  ∧ (database.clocked.CreateOrGetRoom "bridge_discord_100" ticking first.2).1
    = inr (Room.mk 1 "bridge_discord_100" 10 11).
Proof.
  cbv zeta. split; [vm_compute; reflexivity|].
  destruct (CreateOrGet_again "bridge_discord_100" 1 ticking ticking
              (empty_store no_faults)) as [Hroom _].
  destruct (Hroom (Room.mk 1 "bridge_discord_100" 12 13)
              (database.clocked.CreateOrGetRoom "bridge_discord_100" ticking
                 (empty_store no_faults)).2
              ltac:(vm_compute; reflexivity) ltac:(reflexivity))
    as (stored & -> & _ & -> & _).
  reflexivity.
Defined.

(** The store after [CreateOrGetRoomMapping] on a clock, and the row it
    then holds for the channel. *)
Lemma store_ok_clocked_insert_room_mapping roomID platform platformRoomID
    roomName roomType createdAt updatedAt d0 a d1 :
  store_ok d0 →
  database.clocked.insert_room_mapping roomID platform platformRoomID roomName
    roomType createdAt updatedAt d0 = inr (a, d1) →
  store_ok d1.
Proof.
  intros [Hm Hc]. unfold database.clocked.insert_room_mapping.
  destruct (decide _) as [|Hfree]; [done|]. intros [= _ <-].
  split; [|done]. simpl. rewrite fmap_app. simpl.
  apply NoDup_app. split; [done|]. split; [|apply NoDup_singleton].
  intros ch Hch Hnew. apply list_elem_of_singleton in Hnew as ->.
  apply Hfree, Exists_exists.
  apply list_elem_of_fmap in Hch as (m & Heq & Hin).
  exists m. split; [done|]. by injection Heq as <- <-.
Qed.

Lemma store_ok_clocked_CreateOrGetRoomMapping roomID platform platformRoomID
    roomName roomType clock d :
  store_ok d →
  store_ok (database.clocked.CreateOrGetRoomMapping roomID platform
              platformRoomID roomName roomType clock d).2.
Proof.
  intros Hok. unfold database.clocked.CreateOrGetRoomMapping.
  pose proof (store_ok_QueryRow
                (database.select_room_mapping roomID platform platformRoomID)
                d Hok) as Hq.
  destruct (database.QueryRow _ d) as [[mapping| |e] d1]; simpl in Hq; [| |done].
  - pose proof (store_ok_Exec
                  (database.update_room_mapping roomName roomType
                     (clock 0%nat) (RoomMapping.ID mapping)) d1
                  (store_ok_update_room_mapping _ _ _ _) Hq) as He.
    by destruct (database.Exec _ d1) as [[e|u] d2].
  - pose proof (store_ok_Exec
                  (database.clocked.insert_room_mapping roomID platform
                     platformRoomID roomName roomType (clock 0%nat)
                     (clock 1%nat)) d1
                  (store_ok_clocked_insert_room_mapping _ _ _ _ _ _ _) Hq)
      as He.
    by destruct (database.Exec _ d1) as [[e|id] d2].
Qed.

Lemma clocked_CreateOrGetRoomMapping_row roomID platform platformRoomID
    roomName roomType clock d m d' :
  database.clocked.CreateOrGetRoomMapping roomID platform platformRoomID
    roomName roomType clock d = (inr m, d') →
  ∃ stored,
    stored ∈ database.room_mappings d'
    ∧ RoomMapping.RoomID stored = roomID
    ∧ channel stored = (platform, platformRoomID)
    ∧ RoomMapping.IsActive stored = true
    ∧ match database.select_room_mapping roomID platform platformRoomID d with
      | Some old =>
          stored = restamped_mapping m (RoomMapping.CreatedAt old)
                     (clock 0%nat)
          ∧ RoomMapping.CreatedAt m = RoomMapping.CreatedAt old
          ∧ RoomMapping.UpdatedAt m = clock 1%nat
      | None =>
          stored = restamped_mapping m (clock 0%nat) (clock 1%nat)
          ∧ RoomMapping.CreatedAt m = clock 2%nat
          ∧ RoomMapping.UpdatedAt m = clock 3%nat
      end.
Proof.
  unfold database.clocked.CreateOrGetRoomMapping, database.QueryRow,
    database.Exec.
  destruct (database.faults d (database.issued d)); [done|].
  destruct (database.select_room_mapping _ _ _ d) as [mapping|] eqn:Hsel.
  - destruct (database.faults (database.sent d) _); [done|].
    cbn. intros [= <- <-]. unfold database.select_room_mapping in Hsel.
    apply fmap_Some in Hsel as ([i x] & Hfind & ->).
    apply list_find_Some in Hfind as (Hi & (Hr & Hp & Hc) & _).
    cbn.
    exists (RoomMapping.mk (RoomMapping.ID x) (RoomMapping.RoomID x)
              (RoomMapping.Platform x) (RoomMapping.PlatformRoomID x)
              roomName roomType true (RoomMapping.CreatedAt x) (clock 0%nat)).
    split.
    + apply list_elem_of_fmap. exists x.
      split; [by rewrite decide_True|by eapply list_elem_of_lookup_2].
    + unfold channel. cbn. by rewrite Hr, Hp, Hc.
  - destruct (database.faults (database.sent d) _); [done|].
    unfold database.clocked.insert_room_mapping. destruct (decide _); [done|].
    cbn. intros [= <- <-]. cbn.
    exists (RoomMapping.mk (database.seq_room_mappings d + 1) roomID platform
              platformRoomID roomName roomType true (clock 0%nat)
              (clock 1%nat)).
    split; [|done].
    apply elem_of_app. right. apply list_elem_of_here.
Qed.

Lemma select_active_mapping_row d m :
  store_ok d → m ∈ database.room_mappings d →
  RoomMapping.IsActive m = true →
  database.select_active_mapping (RoomMapping.Platform m)
    (RoomMapping.PlatformRoomID m) d = Some m.
Proof.
  intros [Hnd _] Hm Ha. unfold database.select_active_mapping.
  apply list_find_unique; [done|done|].
  intros y Hy (Hp & Hc & _).
  apply (NoDup_fmap_eq channel (database.room_mappings d)); try done.
  unfold channel. by rewrite Hp, Hc.
Qed.

(** X14. A mapping created or fetched by [CreateOrGetRoomMapping] and the
    row the store then returns for its channel.  [GetRoomMappingByPlatformRoom]
    answers with the row of that channel, and [GetActiveRoomMappings] lists
    that row among the active mappings of its room, in whatever order the
    engine returns the rows.  The row and the struct that
    [CreateOrGetRoomMapping] returned agree in every column but the time
    stamps, which come from different readings of the clock: after an
    update the row has the first reading as [updated_at] and the struct the
    second; after an insert the row has the first two readings and the
    struct the next two. *)
Theorem room_mapping_round_trip
    order roomID platform platformRoomID roomName roomType clock d m d1 :
  store_ok d →
  database.clocked.CreateOrGetRoomMapping roomID platform platformRoomID
    roomName roomType clock d = (inr m, d1) →
  database.faults d1 (database.issued d1) = None →
  ∃ stored,
    database.GetRoomMappingByPlatformRoom platform platformRoomID d1
    = (inr stored, database.sent d1)
    ∧ match database.select_room_mapping roomID platform platformRoomID d with
      | Some old =>
          stored = restamped_mapping m (RoomMapping.CreatedAt old)
                     (clock 0%nat)
          ∧ RoomMapping.CreatedAt m = RoomMapping.CreatedAt old
          ∧ RoomMapping.UpdatedAt m = clock 1%nat
      | None =>
          stored = restamped_mapping m (clock 0%nat) (clock 1%nat)
          ∧ RoomMapping.CreatedAt m = clock 2%nat
          ∧ RoomMapping.UpdatedAt m = clock 3%nat
      end
    ∧ ((∀ l, order l ≡ₚ l) →
       database.scan_faults d1 (database.issued d1) = None →
       ∃ rows, database.GetActiveRoomMappings order roomID d1
               = (inr rows, database.sent d1)
               ∧ stored ∈ rows
               ∧ rows ≡ₚ active_mappings d1 roomID).
Proof.
  intros Hok Hcreate Hf.
  pose proof (store_ok_clocked_CreateOrGetRoomMapping roomID platform
                platformRoomID roomName roomType clock d Hok) as Hok1.
  rewrite Hcreate in Hok1. cbn [snd] in Hok1.
  apply clocked_CreateOrGetRoomMapping_row in Hcreate
    as (stored & Hm & Hr & Hc & Ha & Hstamps).
  exists stored. injection Hc as Hp Hc. split; [|split; [exact Hstamps|]].
  - unfold database.GetRoomMappingByPlatformRoom, database.QueryRow.
    rewrite Hf. rewrite <- Hp, <- Hc.
    by rewrite (select_active_mapping_row d1 stored).
  - intros Horder Hs.
    exists (order (database.active_room_mappings roomID d1)).
    unfold database.GetActiveRoomMappings, database.Query.
    rewrite Hf, Hs. split; [by destruct (order _)|].
    rewrite Horder. split; [|done].
    apply list_elem_of_filter. by split.
Qed.

(** On an empty store and a clock that ticks, the mapping comes back from
    the insert stamped 12 and 13, and from the store stamped 10 and 11. *)
Lemma room_mapping_round_trip_witness :
  let created := database.clocked.CreateOrGetRoomMapping 1 "discord" "100"
                   "discord_100" "channel" ticking (empty_store no_faults) in
  created.1
  = inr (RoomMapping.mk 1 1 "discord" "100" "discord_100" "channel" true 12 13)
  ∧ (database.GetRoomMappingByPlatformRoom "discord" "100" created.2).1
    = inr (RoomMapping.mk 1 1 "discord" "100" "discord_100" "channel" true
             10 11).
Proof.
  cbv zeta. split; [vm_compute; reflexivity|].
  destruct (room_mapping_round_trip (λ l, l) 1 "discord" "100" "discord_100"
              "channel" ticking (empty_store no_faults)
              (RoomMapping.mk 1 1 "discord" "100" "discord_100" "channel" true
                 12 13)
              (database.clocked.CreateOrGetRoomMapping 1 "discord" "100"
                 "discord_100" "channel" ticking (empty_store no_faults)).2
              (store_ok_empty no_faults)
              ltac:(vm_compute; reflexivity)
              ltac:(reflexivity)) as (stored & -> & [-> _] & _).
  reflexivity.
Defined.

Lemma deactivated_rows roomID platform now d :
  database.faults d (database.issued d) = None →
  database.RemoveRoomMapping roomID platform now d
  = (None,
     database.with_room_mappings
       ((λ m, if decide (RoomMapping.RoomID m = roomID
                         ∧ RoomMapping.Platform m = platform)
              then RoomMapping.mk (RoomMapping.ID m) (RoomMapping.RoomID m)
                     (RoomMapping.Platform m) (RoomMapping.PlatformRoomID m)
                     (RoomMapping.RoomName m) (RoomMapping.RoomType m) false
                     (RoomMapping.CreatedAt m) now
              else m) <$> database.room_mappings d)
       (database.seq_room_mappings d) (database.sent d)).
Proof.
  intros Hf. unfold database.RemoveRoomMapping, database.Exec. by rewrite Hf.
Qed.

(** X15. [RemoveRoomMapping] deletes nothing: the rows and their
    identifiers stay, those of the room and platform are switched off.  The
    channel of such a row is then unknown to
    [GetRoomMappingByPlatformRoom], no active mapping of the room is on
    that platform any more, and [CreateOrGetRoomMapping] for the same room
    and channel switches the old row on again, under its old identifier
    and creation time, instead of inserting one. *)
Theorem RemoveRoomMapping_soft_delete
    order roomID platform now now' roomName roomType d m :
  store_ok d →
  m ∈ database.room_mappings d →
  RoomMapping.RoomID m = roomID → RoomMapping.Platform m = platform →
  answering 3 d →
  let removed := database.RemoveRoomMapping roomID platform now d in
  let d1 := removed.2 in
  let again := database.CreateOrGetRoomMapping roomID platform
                 (RoomMapping.PlatformRoomID m) roomName roomType now' d1 in
  removed.1 = None
  ∧ RoomMapping.ID <$> database.room_mappings d1
    = RoomMapping.ID <$> database.room_mappings d
  ∧ (database.GetRoomMappingByPlatformRoom platform
       (RoomMapping.PlatformRoomID m) d1).1
    = inl "sql: no rows in result set"
  ∧ (∀ rows x, (database.GetActiveRoomMappings order roomID d1).1 = inr rows →
       (∀ l, order l ≡ₚ l) → x ∈ rows → RoomMapping.Platform x ≠ platform)
  ∧ again.1
    = inr (RoomMapping.mk (RoomMapping.ID m) roomID platform
             (RoomMapping.PlatformRoomID m) roomName roomType true
             (RoomMapping.CreatedAt m) now')
  ∧ RoomMapping.ID <$> database.room_mappings again.2
    = RoomMapping.ID <$> database.room_mappings d
  ∧ bound again.2 roomID platform (RoomMapping.PlatformRoomID m).
Proof.
  intros Hok Hm Hr Hp Hans. cbv zeta.
  pose proof (Hans 0%nat ltac:(lia)) as H0.
  pose proof (Hans 1%nat ltac:(lia)) as H1.
  pose proof (Hans 2%nat ltac:(lia)) as H2.
  rewrite Nat.add_0_r in H0.
  replace (database.issued d + 1)%nat with (S (database.issued d)) in H1 by lia.
  replace (database.issued d + 2)%nat with (S (S (database.issued d))) in H2 by lia.
  rewrite (deactivated_rows roomID platform now d H0). cbn [fst snd].
  set (upd := λ m : RoomMapping.t,
         if decide (RoomMapping.RoomID m = roomID ∧ RoomMapping.Platform m = platform)
         then RoomMapping.mk (RoomMapping.ID m) (RoomMapping.RoomID m)
                (RoomMapping.Platform m) (RoomMapping.PlatformRoomID m)
                (RoomMapping.RoomName m) (RoomMapping.RoomType m) false
                (RoomMapping.CreatedAt m) now
         else m).
  set (d1 := database.with_room_mappings (upd <$> database.room_mappings d)
               (database.seq_room_mappings d) (database.sent d)).
  assert (Hupd : ∀ x, channel (upd x) = channel x
                      ∧ RoomMapping.RoomID (upd x) = RoomMapping.RoomID x
                      ∧ RoomMapping.Platform (upd x) = RoomMapping.Platform x
                      ∧ RoomMapping.ID (upd x) = RoomMapping.ID x
                      ∧ (RoomMapping.RoomID x = roomID →
                         RoomMapping.Platform x = platform →
                         RoomMapping.IsActive (upd x) = false)
                      ∧ (RoomMapping.IsActive (upd x) = true →
                         RoomMapping.IsActive x = true)).
  { intros x. apply deactivated_fields. }
  assert (Hrows1 : database.room_mappings d1 = upd <$> database.room_mappings d)
    by done.
  assert (Hids : RoomMapping.ID <$> database.room_mappings d1
                 = RoomMapping.ID <$> database.room_mappings d).
  { rewrite Hrows1, <- list_fmap_compose. apply list_fmap_ext.
    intros i x _. apply Hupd. }
  assert (Hok1 : store_ok d1).
  { apply (store_ok_same_keys d); [|done|done].
    rewrite Hrows1, <- list_fmap_compose. apply list_fmap_ext.
    intros i x _. apply Hupd. }
  assert (Huniq : ∀ y, y ∈ database.room_mappings d1 →
                    RoomMapping.Platform y = platform →
                    RoomMapping.PlatformRoomID y = RoomMapping.PlatformRoomID m →
                    y = upd m).
  { intros y Hy Hpy Hcy. destruct Hok1 as [Hnd _].
    apply (NoDup_fmap_eq channel (database.room_mappings d1)); try done.
    - rewrite Hrows1. apply list_elem_of_fmap. by exists m.
    - destruct (Hupd m) as (-> & _). unfold channel. by rewrite Hpy, Hcy, Hp. }
  assert (Hoff : upd m
                 = RoomMapping.mk (RoomMapping.ID m) (RoomMapping.RoomID m)
                     (RoomMapping.Platform m) (RoomMapping.PlatformRoomID m)
                     (RoomMapping.RoomName m) (RoomMapping.RoomType m) false
                     (RoomMapping.CreatedAt m) now).
  { unfold upd. by rewrite decide_True. }
  assert (Hm1 : upd m ∈ database.room_mappings d1).
  { rewrite Hrows1. apply list_elem_of_fmap. by exists m. }
  conjuncts.
  - done.
  - exact Hids.
  - unfold database.GetRoomMappingByPlatformRoom, database.QueryRow.
    change (database.faults d1 (database.issued d1))
      with (database.faults d (S (database.issued d))).
    rewrite H1. unfold database.select_active_mapping.
    rewrite list_find_none; [done|].
    intros y Hy (Hpy & Hcy & Hay).
    rewrite (Huniq y Hy Hpy Hcy), Hoff in Hay. done.
  - intros rows x Hrows Horder Hx Hpx.
    unfold database.GetActiveRoomMappings, database.Query in Hrows.
    destruct (database.faults d1 (database.issued d1)); [done|].
    assert (Hin : x ∈ order (database.active_room_mappings roomID d1)).
    { destruct (order _) as [|r rs] eqn:Ho;
        [by injection Hrows as <-; apply elem_of_nil in Hx|].
      destruct (database.scan_faults d1 (database.issued d1)); [done|].
      by injection Hrows as <-. }
    rewrite Horder in Hin.
    apply list_elem_of_filter in Hin as [[Hrx Hax] Hin].
    rewrite Hrows1 in Hin. apply list_elem_of_fmap in Hin as (x0 & -> & Hx0).
    destruct (Hupd x0) as (_ & Hr0 & Hp0 & _ & Hoff0 & _).
    rewrite Hoff0 in Hax; [done|congruence|congruence].
  - unfold database.CreateOrGetRoomMapping, database.QueryRow, database.Exec.
    change (database.faults d1 (database.issued d1))
      with (database.faults d (S (database.issued d))).
    rewrite H1.
    assert (Hsel : database.select_room_mapping roomID platform
                     (RoomMapping.PlatformRoomID m) d1 = Some (upd m)).
    { unfold database.select_room_mapping. apply list_find_unique.
      - exact Hm1.
      - rewrite Hoff. by cbn.
      - intros y Hy (_ & Hpy & Hcy). by apply Huniq. }
    rewrite Hsel.
    change (database.faults (database.sent d1) (database.issued (database.sent d1)))
      with (database.faults d (S (S (database.issued d)))).
    rewrite H2. rewrite Hoff. cbn. by rewrite Hr, Hp.
  - unfold database.CreateOrGetRoomMapping, database.QueryRow, database.Exec.
    change (database.faults d1 (database.issued d1))
      with (database.faults d (S (database.issued d))).
    rewrite H1.
    destruct (database.select_room_mapping _ _ _ d1) as [found|] eqn:Hsel.
    + change (database.faults (database.sent d1) (database.issued (database.sent d1)))
        with (database.faults d (S (S (database.issued d)))).
      rewrite H2. cbn. rewrite <- Hids, Hrows1, <- !list_fmap_compose.
      apply list_fmap_ext. intros i x _. cbn. by destruct (decide _).
    + exfalso. unfold database.select_room_mapping in Hsel.
      apply fmap_None, list_find_None in Hsel.
      rewrite Forall_forall in Hsel. apply (Hsel (upd m) Hm1).
      rewrite Hoff. by cbn.
  - pose proof (CreateOrGetRoomMapping_bound roomID platform
                  (RoomMapping.PlatformRoomID m) roomName roomType now' d1) as Hb.
    destruct (database.CreateOrGetRoomMapping roomID platform
                (RoomMapping.PlatformRoomID m) roomName roomType now' d1)
      as [[e|m'] d2] eqn:Hagain; [|by eapply Hb].
    exfalso. revert Hagain.
    unfold database.CreateOrGetRoomMapping, database.QueryRow, database.Exec.
    change (database.faults d1 (database.issued d1))
      with (database.faults d (S (database.issued d))).
    rewrite H1.
    destruct (database.select_room_mapping _ _ _ d1) as [found|] eqn:Hsel.
    + change (database.faults (database.sent d1) (database.issued (database.sent d1)))
        with (database.faults d (S (S (database.issued d)))).
      rewrite H2. by cbn.
    + unfold database.select_room_mapping in Hsel.
      apply fmap_None, list_find_None in Hsel.
      rewrite Forall_forall in Hsel. destruct (Hsel (upd m) Hm1).
      rewrite Hoff. by cbn.
Qed.
Lemma RemoveRoomMapping_soft_delete_witness :
  let d := (saveBridgeToDatabase "discord" "100" "telegram" "200" 5
              (empty_store no_faults)).2 in
  let d1 := (database.RemoveRoomMapping 1 "telegram" 7 d).2 in
  (database.GetRoomMappingByPlatformRoom "telegram" "200" d).1
  = inr (RoomMapping.mk 2 1 "telegram" "200" "telegram_200" "channel" true 5 5)
  ∧ (database.GetRoomMappingByPlatformRoom "telegram" "200" d1).1
    = inl "sql: no rows in result set"
  ∧ (database.CreateOrGetRoomMapping 1 "telegram" "200" "tg" "group" 9 d1).1
    = inr (RoomMapping.mk 2 1 "telegram" "200" "tg" "group" true 5 9).
Proof.
  cbv zeta. split; [vm_compute; reflexivity|].
  pose proof (RemoveRoomMapping_soft_delete (λ l, l) 1 "telegram" 7 9
    "tg" "group"
    (saveBridgeToDatabase "discord" "100" "telegram" "200" 5
       (empty_store no_faults)).2
    (RoomMapping.mk 2 1 "telegram" "200" "telegram_200" "channel" true 5 5)
    (store_ok_saveBridgeToDatabase _ _ _ _ _ _ (store_ok_empty no_faults))
    ltac:(vm_compute; apply list_elem_of_further, list_elem_of_here)
    ltac:(reflexivity) ltac:(reflexivity)
    ltac:(intros k _; reflexivity)) as H.
  cbv zeta in H. destruct H as (_ & _ & H3 & _ & H5 & _).
  split; [exact H3|exact H5].
Defined.

(** ** The adapters *)

Lemma bytes_app s1 s2 : bytes (s1 +:+ s2) = bytes s1 ++ bytes s2.
Proof.
  unfold bytes. induction s1 as [|a s1 IH]; [done|]. simpl. by rewrite IH.
Qed.

Lemma length_bytes s : length (bytes s) = String.length s.
Proof.
  unfold bytes. induction s as [|a s IH]; [done|]. simpl. by rewrite IH.
Qed.

Lemma bytes_inj s1 s2 : bytes s1 = bytes s2 → s1 = s2.
Proof.
  unfold bytes. revert s2.
  induction s1 as [|a s1 IH]; intros [|b s2]; try done.
  simpl. intros [= -> H]. f_equal. by apply IH.
Qed.

Lemma bytes_removeByte old s :
  bytes (removeByte old s) = filter (λ a, a ≠ old) (bytes s).
Proof.
  unfold bytes. induction s as [|a s IH]; [done|]. simpl. rewrite filter_cons.
  destruct (Ascii.eqb_spec a old) as [->|Hne].
  - by rewrite decide_False by (by intros []).
  - rewrite decide_True by done. simpl. by rewrite IH.
Qed.

Lemma bytes_sliceTo n s : bytes (sliceTo n s) = take n (bytes s).
Proof.
  unfold bytes. revert s. induction n as [|n IH]; intros [|a s]; try done.
  simpl. by rewrite IH.
Qed.

Lemma filter_id {A} (P : A → Prop) `{!∀ x, Decision (P x)} (l : list A) :
  (∀ x, x ∈ l → P x) → filter P l = l.
Proof.
  intros Hall. induction l as [|x l IH]; [done|].
  rewrite filter_cons_True by (apply Hall; by left).
  f_equal. apply IH. intros y Hy. apply Hall. by right.
Qed.

Lemma bytes_scrubbed forbidden s :
  bytes (scrubbed forbidden s) = filter (λ a, a ∉ forbidden) (bytes s).
Proof.
  unfold scrubbed. revert s.
  induction forbidden as [|c forbidden IH]; intros s.
  - cbn. symmetry. apply filter_id. intros a _. apply not_elem_of_nil.
  - cbn. rewrite IH, bytes_removeByte, list_filter_filter.
    apply list_filter_iff. intros a. rewrite not_elem_of_cons. tauto.
Qed.

(** What both helpers guarantee, for any list of bytes they take out that
    holds neither a full stop nor a byte of ["Unknown"]. *)
Lemma limited_scrubbed forbidden s :
  ("."%char ∉ forbidden) →
  (∀ c, c ∈ bytes "Unknown" → c ∉ forbidden) →
  let r := limited (scrubbed forbidden s) in
  r ≠ ""
  ∧ (1 ≤ String.length r ≤ 32)%nat
  ∧ (∀ c, c ∈ forbidden → c ∉ bytes r)
  ∧ limited (scrubbed forbidden r) = r
  ∧ ((∀ c, c ∈ forbidden → c ∉ bytes s) →
     (1 ≤ String.length s ≤ 32)%nat → r = s).
Proof.
  intros Hdot Hunknown. cbv zeta.
  assert (Hfix : ∀ r, (∀ c, c ∈ forbidden → c ∉ bytes r) →
                   (1 ≤ String.length r ≤ 32)%nat →
                   limited (scrubbed forbidden r) = r).
  { intros r Hclean Hlen.
    assert (scrubbed forbidden r = r) as ->.
    { apply bytes_inj. rewrite bytes_scrubbed. apply filter_id.
      intros a Ha Hin. by apply (Hclean a). }
    unfold limited. cbv zeta.
    destruct (32 <? String.length r)%nat eqn:Hlt;
      [apply Nat.ltb_lt in Hlt; lia|].
    destruct (decide (r = "")) as [->|]; [cbn in Hlen; lia|done]. }
  assert (Hr : limited (scrubbed forbidden s) ≠ ""
               ∧ (1 ≤ String.length (limited (scrubbed forbidden s)) ≤ 32)%nat
               ∧ (∀ c, c ∈ forbidden →
                    c ∉ bytes (limited (scrubbed forbidden s)))).
  { assert (Hs : ∀ c, c ∈ forbidden → c ∉ bytes (scrubbed forbidden s)).
    { intros c Hc. rewrite bytes_scrubbed.
      intros [Hn _]%list_elem_of_filter. done. }
    unfold limited. cbv zeta. set (u := scrubbed forbidden s) in *.
    destruct (32 <? String.length u)%nat eqn:Hlt.
    - apply Nat.ltb_lt in Hlt.
      assert (Hlen : String.length (sliceTo 29 u +:+ "...") = 32%nat).
      { rewrite <- length_bytes, bytes_app, length_app, bytes_sliceTo,
          length_take, length_bytes.
        change (length (bytes "...")) with 3%nat. lia. }
      destruct (decide _) as [Heq|_]; [by rewrite Heq in Hlen|].
      split; [intros Heq; by rewrite Heq in Hlen|]. split; [lia|].
      intros c Hc. rewrite bytes_app, bytes_sliceTo.
      intros [Hin|Hin]%elem_of_app.
      + apply subseteq_take in Hin. by apply (Hs c).
      + cbn in Hin. repeat (apply elem_of_cons in Hin as [->|Hin]; [done|]).
        by apply elem_of_nil in Hin.
    - apply Nat.ltb_ge in Hlt.
      destruct (decide (u = "")) as [Hu|Hu].
      + split; [done|]. split; [cbn; lia|]. intros c Hc Hin.
        by apply (Hunknown c).
      + split; [done|]. split; [|done].
        destruct u; [done|cbn in *; lia]. }
  destruct Hr as (Hne & Hlen & Hclean).
  split; [done|]. split; [done|]. split; [done|].
  split; [by apply Hfix|]. intros Hs Hl. by apply Hfix.
Qed.

(** X16. [cleanUsername] always returns a name of 1 to 32 bytes that holds
    none of the six bytes it removes; a name that is already such comes
    back unchanged, so cleaning twice is cleaning once. *)
Theorem cleanUsername_safe username :
  let r := cleanUsername username in
  r ≠ ""
  ∧ (1 ≤ String.length r ≤ 32)%nat
  ∧ (∀ c, c ∈ ["@"; "#"; "`"; "*"; "_"; "~"]%char → c ∉ bytes r)
  ∧ cleanUsername r = r
  ∧ ((∀ c, c ∈ ["@"; "#"; "`"; "*"; "_"; "~"]%char → c ∉ bytes username) →
     (1 ≤ String.length username ≤ 32)%nat → r = username).
Proof.
  apply (limited_scrubbed ["@"; "#"; "`"; "*"; "_"; "~"]%char username).
  - by apply (bool_decide_unpack _).
  - intros c Hc. revert c Hc. apply Forall_forall.
    by apply (bool_decide_unpack _).
Qed.

(** X17. [cleanUsernameTelegram] always returns a name of 1 to 32 bytes
    that holds none of the six bytes it removes; a name that is already
    such comes back unchanged, so cleaning twice is cleaning once. *)
Theorem cleanUsernameTelegram_safe username :
  let r := cleanUsernameTelegram username in
  r ≠ ""
  ∧ (1 ≤ String.length r ≤ 32)%nat
  ∧ (∀ c, c ∈ ["@"; "*"; "_"; "`"; "["; "]"]%char → c ∉ bytes r)
  ∧ cleanUsernameTelegram r = r
  ∧ ((∀ c, c ∈ ["@"; "*"; "_"; "`"; "["; "]"]%char → c ∉ bytes username) →
     (1 ≤ String.length username ≤ 32)%nat → r = username).
Proof.
  apply (limited_scrubbed ["@"; "*"; "_"; "`"; "["; "]"]%char username).
  - by apply (bool_decide_unpack _).
  - intros c Hc. revert c Hc. apply Forall_forall.
    by apply (bool_decide_unpack _).
Qed.

(** X18. Whatever the user name of the message, the text
    [TelegramAdapter.FormatMessage] builds is the tag of the source
    platform, a name, a colon and the content, where the name starts with
    an at sign and is longer than the sign alone: a missing name, or a
    bare at sign, becomes "@anonymous", and a name that has the sign keeps
    it without getting a second one. *)
Theorem TelegramAdapter_FormatMessage_name message :
  let username := BridgeMessage.Username message in
  let name :=
    if decide (username = "" ∨ username = "@") then "@anonymous"
    else if HasPrefix username "@" then username
    else "@" +:+ username in
  TelegramAdapter.FormatMessage message
  = telegramTag (BridgeMessage.SourcePlatform message)
      +:+ " " +:+ name +:+ ": " +:+ BridgeMessage.Content message
  ∧ HasPrefix name "@" = true
  ∧ (2 ≤ String.length name)%nat.
Proof.
  cbv zeta. unfold TelegramAdapter.FormatMessage, telegramTag. cbv zeta.
  generalize (BridgeMessage.Username message). intros u.
  destruct (decide (u = "" ∨ u = "@")) as [[->| ->]|Hn].
  - cbn. split; [done|]. split; [done|lia].
  - cbn. split; [done|]. split; [done|lia].
  - assert (Hne : u ≠ "") by (intros ->; apply Hn; by left).
    assert (Hat : u ≠ "@") by (intros ->; apply Hn; by right).
    rewrite (bool_decide_eq_false_2 _ Hne).
    destruct (HasPrefix u "@") eqn:Hpre; cbn [negb andb].
    + rewrite (bool_decide_eq_false_2 _ Hat), (bool_decide_eq_false_2 _ Hne).
      split; [done|]. split; [done|].
      destruct u as [|a [|b rest]]; [done| |cbn; lia].
      unfold HasPrefix in Hpre. cbn -[ascii_dec] in Hpre.
      destruct (ascii_dec "@" a) as [<-|Hna]; [by destruct Hat|discriminate].
    + change ("@" +:+ u) with (String "@"%char u).
      rewrite (bool_decide_eq_false_2 (String "@"%char u = "@")).
      2: { intros Heq. apply Hne. by injection Heq. }
      rewrite (bool_decide_eq_false_2 (String "@"%char u = ""))
        by discriminate.
      split; [reflexivity|].
      destruct u; [done|]. split; [reflexivity|cbn; lia].
Qed.

(** ** The Telegram handler *)

Lemma existsb_elem_of (l : list Z) (c : Z) :
  existsb (λ x, bool_decide (x = c)) l = true ↔ c ∈ l.
Proof.
  induction l as [|x l IH]; simpl.
  - split; [done|by intros ?%elem_of_nil].
  - rewrite orb_true_iff, IH, bool_decide_eq_true, elem_of_cons.
    split; (intros [?|?]; [by left|by right]).
Qed.

Lemma isChatAllowed_iff {W} (h : telegram.MessageHandler W) c :
  telegram.isChatAllowed h c = true
  ↔ telegram.allowedChats h = [] ∨ c ∈ telegram.allowedChats h.
Proof.
  unfold telegram.isChatAllowed.
  destruct (telegram.allowedChats h) as [|x l] eqn:Hl.
  - simpl. split; [by left|done].
  - rewrite decide_False by done. rewrite existsb_elem_of.
    split; [by right|by intros [?|?]].
Qed.

(** X19. A chat added by [AddAllowedChat] is allowed afterwards, and the
    list then admits exactly that chat and those it held: adding the first
    chat to an empty list, which admits every chat, shuts out all others.
    The list gets no duplicate, and adding the chat once more changes
    nothing. *)
Theorem AddAllowedChat_allowed {W} chatID (h : telegram.MessageHandler W) c :
  let h' := (telegram.AddAllowedChat chatID h).1 in
  (telegram.isChatAllowed h' c = true
   ↔ c = chatID ∨ c ∈ telegram.allowedChats h)
  ∧ (telegram.isChatAllowed h c = true
     ↔ telegram.allowedChats h = [] ∨ c ∈ telegram.allowedChats h)
  ∧ (NoDup (telegram.allowedChats h) → NoDup (telegram.allowedChats h'))
  ∧ telegram.AddAllowedChat chatID h' = (h', [])
  ∧ telegram.bridgeFunc h' = telegram.bridgeFunc h.
Proof.
  cbv zeta. split; [|split; [apply isChatAllowed_iff|]].
  - rewrite isChatAllowed_iff. unfold telegram.AddAllowedChat.
    destruct (existsb _ _) eqn:Hex; cbn [fst telegram.allowedChats].
    + apply existsb_elem_of in Hex. split.
      * intros [Hnil|?]; [|by right]. rewrite Hnil in Hex.
        by apply elem_of_nil in Hex.
      * intros [->|?]; by right.
    + split.
      * intros [Hnil|Hin]; [by destruct (telegram.allowedChats h)|].
        apply elem_of_app in Hin as [?|Hin]; [by right|].
        apply list_elem_of_singleton in Hin. by left.
      * intros [->|?]; right; apply elem_of_app;
          [right; apply list_elem_of_here|by left].
  - unfold telegram.AddAllowedChat.
    destruct (existsb _ (telegram.allowedChats h)) eqn:Hex;
      cbn [fst telegram.allowedChats telegram.bridgeFunc].
    + split; [done|]. split; [|done]. by rewrite Hex.
    + split; [|split; [|done]].
      * intros Hnd. apply NoDup_app. split; [done|].
        split; [|apply NoDup_singleton].
        intros x Hx ->%list_elem_of_singleton.
        apply existsb_elem_of in Hx. congruence.
      * assert (Hin : existsb (λ existing, bool_decide (existing = chatID))
                        (telegram.allowedChats h ++ [chatID]) = true).
        { apply existsb_elem_of, elem_of_app. right. apply list_elem_of_here. }
        by rewrite Hin.
Qed.

Lemma list_find_eq_NoDup (l : list Z) (c : Z) i x :
  NoDup l → list_find (λ y, y = c) l = Some (i, x) →
  cut i l = filter (λ y, y ≠ c) l.
Proof.
  intros Hnd (Hi & -> & _)%list_find_Some.
  apply list_elem_of_split_length in Hi as (l1 & l2 & -> & ->).
  rewrite cut_middle, filter_app, filter_cons_False by (by intros []).
  apply NoDup_app in Hnd as (_ & Hdisj & Hnd2).
  apply NoDup_cons in Hnd2 as [Hc _].
  rewrite !filter_id; [done| |].
  - intros y Hy ->. done.
  - intros y Hy ->. apply (Hdisj c Hy). by left.
Qed.

(** X20. On a list without duplicates [RemoveAllowedChat] leaves the other
    chats, in their order.  The chat removed is then shut out, unless it
    was the only one: removing the last chat of the list empties it, and
    an empty list admits every chat, the removed one included. *)
Theorem RemoveAllowedChat_allowed {W} chatID (h : telegram.MessageHandler W) c :
  NoDup (telegram.allowedChats h) →
  let h' := (telegram.RemoveAllowedChat chatID h).1 in
  telegram.allowedChats h'
  = filter (λ x, x ≠ chatID) (telegram.allowedChats h)
  ∧ (telegram.isChatAllowed h' c = true
     ↔ telegram.allowedChats h' = []
       ∨ (c ≠ chatID ∧ c ∈ telegram.allowedChats h))
  ∧ (telegram.allowedChats h = [chatID] →
     telegram.isChatAllowed h' chatID = true)
  ∧ telegram.bridgeFunc h' = telegram.bridgeFunc h.
Proof.
  intros Hnd. cbv zeta.
  assert (Hl : telegram.allowedChats (telegram.RemoveAllowedChat chatID h).1
               = filter (λ x, x ≠ chatID) (telegram.allowedChats h)).
  { unfold telegram.RemoveAllowedChat.
    destruct (list_find _ _) as [[i x]|] eqn:Hfind;
      cbn [fst telegram.allowedChats].
    - by apply (list_find_eq_NoDup _ _ i x).
    - symmetry. apply filter_id. apply list_find_None in Hfind.
      by rewrite Forall_forall in Hfind. }
  split; [exact Hl|]. split; [|split].
  - rewrite isChatAllowed_iff, Hl.
    split; (intros [?|Hin]; [by left|right]).
    + by apply list_elem_of_filter in Hin.
    + by apply list_elem_of_filter.
  - intros Hone. apply isChatAllowed_iff. left. rewrite Hl, Hone.
    by rewrite filter_cons_False by (by intros []).
  - unfold telegram.RemoveAllowedChat. by destruct (list_find _ _) as [[? ?]|].
Qed.

Lemma RemoveAllowedChat_allowed_witness :
  let h : telegram.MessageHandler unit :=
    telegram.mkMessageHandler up_telegram None [1; 2] in
  let h1 := (telegram.RemoveAllowedChat 1 h).1 in
  let h2 := (telegram.RemoveAllowedChat 2 h1).1 in
  telegram.allowedChats h1 = [2]
  ∧ telegram.isChatAllowed h1 1 = false
  ∧ telegram.allowedChats h2 = []
  ∧ telegram.isChatAllowed h2 1 = true.
Proof.
  cbv zeta.
  destruct (RemoveAllowedChat_allowed 1
              (telegram.mkMessageHandler (W := unit) up_telegram None [1; 2]) 1
              ltac:(by apply (bool_decide_unpack _))) as (H1 & _).
  split; [rewrite H1; reflexivity|]. by vm_compute.
Defined.

(** X21. [HandleMessage] hands a message to the bridge function only when
    the chat identifier reads as a decimal [int64], the chat is allowed
    and the content does not start with a slash; it then passes "telegram"
    for the platform, whatever platform it was called with, and returns
    the function's error.  In every other case, and when it has no bridge
    function, it returns [nil] and changes nothing. *)
Theorem HandleMessage_filter {W} (h : telegram.MessageHandler W)
    platform chatID userID messageType content w :
  let r := telegram.HandleMessage h platform chatID userID messageType
             content w in
  (¬ forwards h chatID content → r.1.2 = None ∧ r.2 = w)
  ∧ (telegram.bridgeFunc h = None → r.1.2 = None ∧ r.2 = w)
  ∧ (∀ f, forwards h chatID content → telegram.bridgeFunc h = Some f →
       (r.1.2, r.2) = f "telegram" chatID userID messageType content w).
Proof.
  cbv zeta. unfold forwards, telegram.HandleMessage.
  destruct (strconv.ParseInt chatID) as [id [e|]] eqn:Hparse; cbn [fst snd].
  { split; [done|]. split; [done|]. by intros f (? & _). }
  destruct (telegram.isChatAllowed h id) eqn:Hallowed.
  2: { assert (Hlen : (0 <? length (telegram.allowedChats h))%nat = true).
       { apply Nat.ltb_lt. unfold telegram.isChatAllowed in Hallowed.
         destruct (decide _) as [|Hn]; [done|]. lia. }
       rewrite Hlen. cbn. split; [done|]. split; [done|].
       by intros f (_ & ? & _). }
  rewrite andb_false_r.
  destruct (telegram.HasPrefix content "/") eqn:Hcmd.
  { cbn. split; [done|]. split; [done|]. by intros f (_ & _ & ?). }
  split; [by intros []|]. split.
  - by intros ->.
  - intros f _ ->. by destruct (f _ _ _ _ _ _) as [[e|] w'].
Qed.

(** ** The handlers and their wiring *)

(** X22. A message written by the bot itself, by a webhook or by a bot
    account is dropped by [onMessageCreate] before anything else happens:
    whatever the handler is wired to, no display name is recorded, the
    bridge function is not called and nothing is sent, so what the bridge
    posts on Discord is never bridged back. *)
Theorem onMessageCreate_ignores_own_messages {W Platform} selfID m
    (h : discord.MessageHandler W Platform) w :
  discord.Message.AuthorID m = selfID
  ∨ discord.Message.WebhookID m ≠ ""
  ∨ discord.Message.AuthorBot m = true →
  discord.onMessageCreate selfID m h w
  = Some (if decide (discord.Message.AuthorID m = selfID) then []
          else if decide (discord.Message.WebhookID m = "")
          then [discord.IgnoringBot (discord.Message.AuthorUsername m)
                  (discord.Message.ChannelID m)]
          else [discord.IgnoringWebhook (discord.Message.AuthorUsername m)
                  (discord.Message.ChannelID m)],
          w).
Proof.
  intros Hown. unfold discord.onMessageCreate.
  destruct (decide (discord.Message.AuthorID m = selfID)); [done|].
  destruct (decide (discord.Message.WebhookID m = "")) as [Hweb|Hweb].
  - rewrite (bool_decide_eq_true_2 _ Hweb). cbn [negb].
    destruct Hown as [?|[?|Hbot]]; [done|done|]. by rewrite Hbot.
  - by rewrite (bool_decide_eq_false_2 _ Hweb).
Qed.

Lemma onMessageCreate_ignores_own_messages_witness :
  let m := discord.Message.mk "7" "[TELEGRAM] alice" "" false "w1" "100" "hi" in
  let w := main.mkWorld
             (core (AddBridge "discord" "100" "telegram" "200" 5 (started None)))
             ∅ 6 map_to_list [] in
  discord.onMessageCreate "1" m (main.discordHandler up_discord) w
  = Some ([discord.IgnoringWebhook "[TELEGRAM] alice" "100"], w).
Proof.
  cbv zeta.
  exact (onMessageCreate_ignores_own_messages "1"
    (discord.Message.mk "7" "[TELEGRAM] alice" "" false "w1" "100" "hi")
    (main.discordHandler up_discord)
    (main.mkWorld
       (core (AddBridge "discord" "100" "telegram" "200" 5 (started None)))
       ∅ 6 map_to_list [])
    ltac:(right; left; discriminate)).
Defined.

Lemma calls_elem_of ev evs : ev ∈ calls evs → ev ∈ evs.
Proof. unfold calls. by intros [_ ?]%list_elem_of_filter. Qed.

Lemma trace_after o lines w ev :
  ev ∈ events o → inr ev ∈ main.trace (main.after o lines w).
Proof.
  intros Hev. unfold main.after. cbn [main.trace].
  apply elem_of_app. right. apply elem_of_app. right.
  apply list_elem_of_fmap. by exists ev.
Qed.

Lemma onMessageCreate_bridged {W Platform} selfID m
    (h : discord.MessageHandler W Platform) w bc f :
  discord.Message.AuthorID m ≠ selfID →
  discord.Message.WebhookID m = "" →
  discord.Message.AuthorBot m = false →
  discord.bridgeCore h = Some bc → discord.bridgeFunc h = Some f →
  let w1 := BridgeCore.SetUserMapping bc "discord" (discord.Message.AuthorID m)
              (authorName m) w in
  BridgeCore.GetBridges bc (discord.Message.ChannelID m) w1 ≠ [] →
  discord.onMessageCreate selfID m h w
  = Some ([discord.ProcessingMessage (discord.Message.AuthorUsername m)
             (discord.Message.ChannelID m) (discord.Message.Content m)]
            ++ (discord.bridgeIt h f m w1).1,
          (discord.bridgeIt h f m w1).2).
Proof.
  intros Hself Hweb Hbot Hbc Hf. cbv zeta. intros Hroutes.
  unfold discord.onMessageCreate.
  rewrite decide_False by done.
  rewrite (bool_decide_eq_true_2 _ Hweb), Hbot, Hbc, Hf. cbn [negb].
  assert (Hname : (if decide ((if decide (discord.Message.AuthorUsername m = "")
                               then discord.Message.AuthorGlobalName m
                               else discord.Message.AuthorUsername m) = "")
                   then "User" +:+ discord.Message.AuthorID m
                   else if decide (discord.Message.AuthorUsername m = "")
                        then discord.Message.AuthorGlobalName m
                        else discord.Message.AuthorUsername m)
                  = authorName m).
  { unfold authorName. repeat destruct (decide _); congruence. }
  rewrite Hname.
  destruct (BridgeCore.GetBridges bc _ _) as [|e0 routes]; [done|].
  cbn [length Nat.ltb Nat.leb]. by destruct (discord.bridgeIt h f m _).
Qed.

(** X23. Discord to Telegram, through the handler as [main] wires it.  A
    message written by a person in a channel that has routes makes
    [onMessageCreate] record the author's name in the core (the user name,
    else the global name, else "User" and the identifier) and hand the
    message to the core: on every active route to a running Telegram
    adapter the text "[DISCORD] @name: content" is sent.  The handler does
    not panic, the graph is not changed, and no error notice is posted. *)
Theorem discord_message_reaches_telegram
    discordClient telegramClient selfID m w e :
  discord.Message.AuthorID m ≠ selfID →
  discord.Message.WebhookID m = "" →
  discord.Message.AuthorBot m = false →
  platforms (main.bridgeCore w) !! PlatformTelegram
  = Some (Telegram telegramClient) →
  telegram.IsRunning telegramClient = true →
  e ∈ GetBridges (discord.Message.ChannelID m) (main.bridgeCore w) →
  BridgeConnection.IsActive e = true →
  BridgeConnection.TargetPlatform e = PlatformTelegram →
  HasPrefix (authorName m) "@" = false →
  let text := "[DISCORD] @" +:+ authorName m +:+ ": "
                +:+ discord.Message.Content m in
  ∃ w',
    discord.onMessageCreate selfID m (main.discordHandler discordClient) w
    = Some ([discord.ProcessingMessage (discord.Message.AuthorUsername m)
               (discord.Message.ChannelID m) (discord.Message.Content m)], w')
    ∧ getDisplayName PlatformDiscord (discord.Message.AuthorID m)
        (main.bridgeCore w') = authorName m
    ∧ connections (main.bridgeCore w') = connections (main.bridgeCore w)
    ∧ inr (CallSendMessage PlatformTelegram (BridgeConnection.TargetChannelID e)
             text
             (telegram.SendMessage telegramClient
                (BridgeConnection.TargetChannelID e) text))
      ∈ main.trace w'.
Proof.
  intros Hself Hweb Hbot Hp Hrun He Hact Htp Hat. cbv zeta.
  assert (Hne : authorName m ≠ "").
  { unfold authorName. repeat destruct (decide _); done. }
  set (bc1 := SetUserMapping PlatformDiscord (discord.Message.AuthorID m)
                (authorName m) (main.bridgeCore w)).
  assert (Hname : getDisplayName PlatformDiscord (discord.Message.AuthorID m)
                    bc1 = authorName m).
  { unfold bc1. rewrite getDisplayName_set. by rewrite decide_True. }
  pose proof (legacy_to_telegram PlatformDiscord (discord.Message.ChannelID m)
                (discord.Message.AuthorID m) (authorName m) "text"
                (discord.Message.Content m) (main.now w) bc1 telegramClient e
                Hp Hrun He Hact Htp Hname Hne Hat) as Hleg.
  cbv zeta in Hleg.
  destruct Hleg as (Herr & Hcore & Hcall).
  rewrite (onMessageCreate_bridged selfID m (main.discordHandler discordClient)
             w main.asBridgeCore main.discordBridgeFunc Hself Hweb Hbot
             eq_refl eq_refl).
  2: { intros Hnil. change (GetBridges (discord.Message.ChannelID m)
                              (main.bridgeCore w) = []) in Hnil.
       rewrite Hnil in He. by apply elem_of_nil in He. }
  change (BridgeCore.SetUserMapping main.asBridgeCore "discord"
            (discord.Message.AuthorID m) (authorName m) w)
    with (main.with_core bc1 w).
  unfold discord.bridgeIt, main.discordBridgeFunc, main.ProcessMessageLegacy.
  change (main.bridgeCore (main.with_core bc1 w)) with bc1.
  change (main.now (main.with_core bc1 w)) with (main.now w).
  change "discord" with PlatformDiscord.
  destruct (ProcessMessageLegacy PlatformDiscord (discord.Message.ChannelID m)
              (discord.Message.AuthorID m) "text" (discord.Message.Content m)
              (main.now w) bc1) as [lines o] eqn:Ho.
  cbn [snd] in Herr, Hcore, Hcall. rewrite Herr.
  eexists. split; [reflexivity|].
  cbn [snd main.after main.bridgeCore]. rewrite Hcore.
  split; [exact Hname|].
  split; [done|].
  apply (trace_after o lines (main.with_core bc1 w)).
  by apply calls_elem_of.
Qed.

Lemma discord_message_reaches_telegram_witness :
  let w := main.mkWorld
             (core (AddBridge "discord" "100" "telegram" "200" 5 (started None)))
             ∅ 6000000000 map_to_list [] in
  let m := discord.Message.mk "42" "" "Alice" false "" "100" "hi" in
  ∃ w',
    discord.onMessageCreate "1" m (main.discordHandler up_discord) w
    = Some ([discord.ProcessingMessage "" "100" "hi"], w')
    ∧ inr (CallSendMessage "telegram" "200" "[DISCORD] @Alice: hi" None)
      ∈ main.trace w'.
Proof.
  cbv zeta.
  destruct (discord_message_reaches_telegram up_discord up_telegram "1"
    (discord.Message.mk "42" "" "Alice" false "" "100" "hi")
    (main.mkWorld
       (core (AddBridge "discord" "100" "telegram" "200" 5 (started None)))
       ∅ 6000000000 map_to_list [])
    (newConnection "discord" "100" "telegram" "200" 5)
    ltac:(discriminate) ltac:(reflexivity) ltac:(reflexivity)
    ltac:(vm_compute; reflexivity) ltac:(reflexivity)
    ltac:(vm_compute; apply list_elem_of_here)
    ltac:(reflexivity) ltac:(reflexivity) ltac:(reflexivity))
    as (w' & H1 & _ & _ & H4).
  exists w'. split; [exact H1|exact H4].
Defined.

Lemma bridgeTo_discord bc message e client :
  platforms bc !! PlatformDiscord = Some (Discord client) →
  discord.IsConnected client = true →
  BridgeConnection.IsActive e = true →
  BridgeConnection.TargetPlatform e = PlatformDiscord →
  CallSendBridgeMessage (BridgeConnection.TargetChannelID e) message
    (DiscordAdapter.SendBridgeMessage client
       (BridgeConnection.TargetChannelID e) message)
  ∈ bridgeTo bc message e.
Proof.
  intros Hp Hcon Hact Htp. unfold bridgeTo.
  rewrite Hact, Htp, Hp. cbn [negb IsConnected].
  unfold DiscordAdapter.IsConnected. rewrite Hcon. cbn [negb].
  rewrite decide_True by done.
  apply list_elem_of_further, list_elem_of_here.
Qed.

(** X24. Telegram to Discord, through the handler as [main] wires it.  A
    message that is no command, from a chat whose identifier is a decimal
    number, is handed to the core under the display name package
    [telegram] keeps for its author, whatever platform name the handler
    was called with: on every active route of the chat to a connected
    Discord adapter the webhook is asked to post the content under the
    name "[TELEGRAM] name".  The handler returns [nil] and the graph is
    not changed. *)
Theorem telegram_message_reaches_discord
    telegramClient discordClient platform chatID userID messageType content
    w e :
  (strconv.ParseInt chatID).2 = None →
  telegram.HasPrefix content "/" = false →
  platforms (main.bridgeCore w) !! PlatformDiscord
  = Some (Discord discordClient) →
  discord.IsConnected discordClient = true →
  e ∈ GetBridges chatID (main.bridgeCore w) →
  BridgeConnection.IsActive e = true →
  BridgeConnection.TargetPlatform e = PlatformDiscord →
  let name := telegram.GetUserDisplayName userID (main.userMappings w) in
  name ≠ "" → HasPrefix name "@" = false →
  let r := telegram.HandleMessage (main.telegramHandler telegramClient)
             platform chatID userID messageType content w in
  r.1.2 = None
  ∧ connections (main.bridgeCore r.2) = connections (main.bridgeCore w)
  ∧ getDisplayName PlatformTelegram userID (main.bridgeCore r.2) = name
  ∧ ∃ message,
      inr (CallSendBridgeMessage (BridgeConnection.TargetChannelID e) message
             (discord.SendWebhookMessage discordClient
                (BridgeConnection.TargetChannelID e) content
                ("[TELEGRAM] " +:+ name)
                (discord.GetUserAvatar discordClient PlatformTelegram userID
                   name)))
      ∈ main.trace r.2
      ∧ BridgeMessage.SourcePlatform message = PlatformTelegram
      ∧ BridgeMessage.SourceChannelID message = chatID
      ∧ BridgeMessage.Username message = name
      ∧ BridgeMessage.Content message = content.
Proof.
  intros Hparse Hcmd Hp Hcon He Hact Htp. cbv zeta. intros Hne Hat.
  set (name := telegram.GetUserDisplayName userID (main.userMappings w)) in *.
  set (bc1 := SetUserMapping PlatformTelegram userID name (main.bridgeCore w)).
  assert (Hname : getDisplayName PlatformTelegram userID bc1 = name).
  { unfold bc1. rewrite getDisplayName_set. by rewrite decide_True. }
  unfold telegram.HandleMessage.
  destruct (strconv.ParseInt chatID) as [id [err|]]; [done|].
  cbn [main.telegramHandler telegram.NewMessageHandler telegram.allowedChats
       telegram.bridgeFunc length Nat.ltb Nat.leb andb].
  rewrite Hcmd.
  unfold main.telegramBridgeFunc. fold name.
  rewrite (bool_decide_eq_false_2 _ Hne). cbn [negb].
  change "telegram" with PlatformTelegram. fold bc1.
  unfold main.ProcessMessageLegacy.
  change (main.bridgeCore (main.with_core bc1 w)) with bc1.
  change (main.now (main.with_core bc1 w)) with (main.now w).
  unfold ProcessMessageLegacy.
  change (default [] (connections bc1 !! chatID))
    with (GetBridges chatID (main.bridgeCore w)).
  destruct (decide (length (GetBridges chatID (main.bridgeCore w)) = 0%nat))
    as [Hlen|Hlen].
  { apply length_zero_iff_nil in Hlen. rewrite Hlen in He.
    by apply elem_of_nil in He. }
  set (message := legacyMessage PlatformTelegram chatID userID messageType
                    content (main.now w) bc1).
  rewrite ProcessMessage_err. cbn [fst snd].
  cbn [main.after main.bridgeCore]. rewrite ProcessMessage_core.
  split; [done|]. split; [done|]. split; [exact Hname|].
  exists message.
  assert (Hu : BridgeMessage.Username message = name) by exact Hname.
  split; [|by repeat split].
  assert (Hsend : DiscordAdapter.SendBridgeMessage discordClient
                    (BridgeConnection.TargetChannelID e) message
                  = discord.SendWebhookMessage discordClient
                      (BridgeConnection.TargetChannelID e) content
                      ("[TELEGRAM] " +:+ name)
                      (discord.GetUserAvatar discordClient PlatformTelegram
                         userID name)).
  { unfold DiscordAdapter.SendBridgeMessage, DiscordAdapter.webhookUsername,
      DiscordAdapter.webhookAvatar.
    rewrite Hu. cbn [BridgeMessage.Content BridgeMessage.SourcePlatform
                     BridgeMessage.SourceUserID message legacyMessage].
    rewrite (decide_True (P := PlatformTelegram = PlatformTelegram)) by done.
    rewrite (decide_False (P := name = "")) by exact Hne.
    by rewrite Hat. }
  rewrite <- Hsend.
  apply elem_of_app. right. apply elem_of_app. right.
  apply list_elem_of_fmap. eexists. split; [reflexivity|].
  unfold ProcessMessage.
  change (default [] (connections bc1 !! BridgeMessage.SourceChannelID message))
    with (GetBridges chatID (main.bridgeCore w)).
  rewrite decide_False by done. cbn [events].
  do 2 apply list_elem_of_further.
  apply list_elem_of_bind. exists e. split; [|exact He].
  by apply (bridgeTo_discord bc1 message e discordClient).
Qed.

Lemma telegram_message_reaches_discord_witness :
  let w := main.mkWorld
             (core (AddBridge "discord" "100" "telegram" "200" 5 (started None)))
             (telegram.storeUserMapping "77" "bob" ∅) 6000000000 map_to_list [] in
  let r := telegram.HandleMessage (main.telegramHandler up_telegram)
             "telegram" "200" "77" "text" "hello" w in
  r.1.2 = None
  ∧ getDisplayName "telegram" "77" (main.bridgeCore r.2) = "bob".
Proof.
  cbv zeta.
  destruct (telegram_message_reaches_discord up_telegram up_discord
    "telegram" "200" "77" "text" "hello"
    (main.mkWorld
       (core (AddBridge "discord" "100" "telegram" "200" 5 (started None)))
       (telegram.storeUserMapping "77" "bob" ∅) 6000000000 map_to_list [])
    (newConnection "telegram" "200" "discord" "100" 5)
    ltac:(vm_compute; reflexivity) ltac:(reflexivity)
    ltac:(vm_compute; reflexivity) ltac:(reflexivity)
    ltac:(vm_compute; apply list_elem_of_here)
    ltac:(reflexivity) ltac:(reflexivity)
    ltac:(vm_compute; discriminate) ltac:(vm_compute; reflexivity))
    as (H1 & _ & H3 & _).
  split; [exact H1|exact H3].
Defined.

Lemma existsb_string_elem_of (l : list string) (c : string) :
  existsb (λ x, bool_decide (c = x)) l = true ↔ c ∈ l.
Proof.
  induction l as [|x l IH]; simpl.
  - split; [done|by intros ?%elem_of_nil].
  - rewrite orb_true_iff, IH, bool_decide_eq_true, elem_of_cons.
    split; (intros [?|?]; [by left|by right]).
Qed.

(** X25. [isAdmin] grants a member the commands exactly when the member
    is given and is listed among the admin users, or holds one of the
    admin roles, or has the Administrator permission bit; with the one
    admin user [main] configures and no admin role, that is this user and
    whoever is an administrator of the server. *)
Theorem isAdmin_iff {W Platform} (h : discord.MessageHandler W Platform)
    member discordClient :
  (discord.isAdmin h member = true
   ↔ ∃ mb, member = Some mb
       ∧ (discord.Member.UserID mb ∈ discord.adminUsers h
          ∨ (∃ role, role ∈ discord.Member.Roles mb
                     ∧ role ∈ discord.adminRoles h)
          ∨ Z.land (discord.Member.Permissions mb)
                   discord.PermissionAdministrator ≠ 0))
  ∧ (∀ mb, discord.isAdmin (main.discordHandler discordClient) (Some mb) = true
           ↔ discord.Member.UserID mb = "1359619658214412298"
             ∨ Z.land (discord.Member.Permissions mb) 8 ≠ 0).
Proof.
  assert (Hgen : ∀ W' P' (h' : discord.MessageHandler W' P') mem,
    discord.isAdmin h' mem = true
    ↔ ∃ mb, mem = Some mb
        ∧ (discord.Member.UserID mb ∈ discord.adminUsers h'
           ∨ (∃ role, role ∈ discord.Member.Roles mb
                      ∧ role ∈ discord.adminRoles h')
           ∨ Z.land (discord.Member.Permissions mb)
                    discord.PermissionAdministrator ≠ 0)).
  { intros W' P' h' [mb|]; simpl.
    2: { split; [done|]. by intros (mb & ? & _). }
    destruct (existsb _ (discord.adminUsers h')) eqn:Husers.
    { apply existsb_string_elem_of in Husers.
      split; [|done]. intros _. exists mb. split; [done|]. by left. }
    assert (Hnu : discord.Member.UserID mb ∉ discord.adminUsers h').
    { intros Hin%existsb_string_elem_of. congruence. }
    destruct (existsb _ (discord.Member.Roles mb)) eqn:Hroles.
    { apply existsb_exists in Hroles as (role & Hin & Hrole).
      apply existsb_string_elem_of in Hrole. apply list_elem_of_In in Hin.
      split; [|done]. intros _. exists mb. split; [done|]. right. left.
      by exists role. }
    assert (Hnr : ¬ ∃ role, role ∈ discord.Member.Roles mb
                            ∧ role ∈ discord.adminRoles h').
    { intros (role & Hin & Hrole).
      assert (existsb (λ userRole,
                 existsb (λ adminRole, bool_decide (userRole = adminRole))
                         (discord.adminRoles h'))
                (discord.Member.Roles mb) = true); [|congruence].
      apply existsb_exists. exists role.
      split; [by apply list_elem_of_In|by apply existsb_string_elem_of]. }
    destruct (Z.eqb_spec (Z.land (discord.Member.Permissions mb)
                            discord.PermissionAdministrator) 0) as [Hz|Hz];
      cbn [negb].
    - split; [done|]. intros (mb' & [= <-] & [?|[?|?]]); done.
    - split; [|done]. intros _. exists mb. split; [done|]. by right; right. }
  split; [apply Hgen|].
  intros mb. rewrite Hgen. split.
  - intros (mb' & [= <-] & [Hu|[(role & _ & Hr)|Hp]]).
    + left. cbn in Hu. by apply list_elem_of_singleton in Hu.
    + cbn in Hr. by apply elem_of_nil in Hr.
    + by right.
  - intros [Hu|Hp]; exists mb; (split; [done|]).
    + left. cbn. rewrite Hu. apply list_elem_of_here.
    + by right; right.
Qed.

(** X26.  The Discord handler's own table of bridges: after [AddBridge] a
    channel and platform have the target given, after [RemoveBridge] they
    have none, and every other channel and platform keeps what it had.  A
    channel whose last bridge is removed loses its entry, so that a table
    without empty entries stays so. *)
Theorem bridgedChannels_AddBridge_RemoveBridge {W Platform}
    (h : discord.MessageHandler W Platform) channelID platform targetID c p :
  let added := (discord.AddBridge channelID platform targetID h).1 in
  let removed := (discord.RemoveBridge channelID platform h).1 in
  legacyTarget added c p
  = (if decide (c = channelID ∧ p = platform) then Some targetID
     else legacyTarget h c p)
  ∧ legacyTarget removed c p
    = (if decide (c = channelID ∧ p = platform) then None
       else legacyTarget h c p)
  ∧ (tidy h → tidy added ∧ tidy removed)
  ∧ legacyTarget (discord.RemoveBridge channelID platform added).1 c p
    = legacyTarget removed c p.
Proof.
  cbv zeta.
  assert (Hadd : ∀ (h0 : discord.MessageHandler W Platform) c0 p0,
    legacyTarget (discord.AddBridge channelID platform targetID h0).1 c0 p0
    = if decide (c0 = channelID ∧ p0 = platform) then Some targetID
      else legacyTarget h0 c0 p0).
  { intros h0 c0 p0.
    unfold legacyTarget, discord.AddBridge. cbn.
    destruct (decide (c0 = channelID)) as [->|Hc].
    - rewrite lookup_insert_eq. cbn.
      destruct (decide (p0 = platform)) as [->|Hp].
      + rewrite lookup_insert_eq. by rewrite decide_True.
      + rewrite lookup_insert_ne by done.
        rewrite decide_False by (by intros [_ ?]).
        destruct (discord.bridgedChannels h0 !! channelID) eqn:Hl.
        * by rewrite Hl.
        * by rewrite lookup_insert_eq.
    - rewrite lookup_insert_ne by done.
      rewrite decide_False by (by intros [? _]).
      destruct (discord.bridgedChannels h0 !! channelID); [done|].
      by rewrite lookup_insert_ne by done. }
  assert (Hrem : ∀ (h0 : discord.MessageHandler W Platform) c0 p0,
    legacyTarget (discord.RemoveBridge channelID platform h0).1 c0 p0
    = if decide (c0 = channelID ∧ p0 = platform) then None
      else legacyTarget h0 c0 p0).
  { intros h0 c0 p0.
    unfold legacyTarget, discord.RemoveBridge.
    destruct (discord.bridgedChannels h0 !! channelID) as [bridges|] eqn:Hl; cbn.
    - destruct (decide (size (delete platform bridges) = 0%nat)) as [Hz|Hz]; cbn.
      + apply map_size_empty_iff in Hz.
        destruct (decide (c0 = channelID)) as [->|Hc].
        * rewrite lookup_delete_eq. cbn. rewrite Hl. cbn.
          destruct (decide (p0 = platform)) as [->|Hp].
          -- by rewrite decide_True.
          -- rewrite decide_False by (by intros [_ ?]).
             rewrite <- (lookup_delete_ne bridges platform p0) by done.
             by rewrite Hz, lookup_empty.
        * rewrite lookup_delete_ne by done.
          by rewrite decide_False by (by intros [? _]).
      + destruct (decide (c0 = channelID)) as [->|Hc].
        * rewrite lookup_insert_eq, Hl. cbn.
          destruct (decide (p0 = platform)) as [->|Hp].
          -- rewrite decide_True by done. apply lookup_delete_eq.
          -- rewrite decide_False by (by intros [_ ?]).
             by apply lookup_delete_ne.
        * rewrite lookup_insert_ne by done.
          by rewrite decide_False by (by intros [? _]).
    - destruct (decide (c0 = channelID ∧ p0 = platform)) as [[-> ->]|]; [|done].
      by rewrite Hl. }
  split; [apply Hadd|]. split; [apply Hrem|]. split.
  - intros Htidy. split.
    + intros c0 bridges. unfold discord.AddBridge. cbn.
      destruct (decide (c0 = channelID)) as [->|Hc].
      * rewrite lookup_insert_eq. intros [= <-]. apply insert_non_empty.
      * rewrite lookup_insert_ne by done.
        destruct (discord.bridgedChannels h !! channelID) eqn:Hl.
        -- apply Htidy.
        -- rewrite lookup_insert_ne by done. apply Htidy.
    + intros c0 bridges. unfold discord.RemoveBridge.
      destruct (discord.bridgedChannels h !! channelID) as [inner|] eqn:Hl; cbn;
        [|apply Htidy].
      destruct (decide (size (delete platform inner) = 0%nat)) as [Hz|Hz]; cbn.
      * destruct (decide (c0 = channelID)) as [->|Hc].
        -- by rewrite lookup_delete_eq.
        -- rewrite lookup_delete_ne by done. apply Htidy.
      * destruct (decide (c0 = channelID)) as [->|Hc].
        -- rewrite lookup_insert_eq. intros [= <-] Hempty.
           apply Hz. by rewrite Hempty.
        -- rewrite lookup_insert_ne by done. apply Htidy.
  - rewrite !Hrem, Hadd.
    by destruct (decide (c = channelID ∧ p = platform)).
Qed.

(** ** Configuration and display names *)

Lemma ParseBool_true str :
  (strconv.ParseBool str).1 = true ↔ str ∈ truthy.
Proof.
  unfold strconv.ParseBool, truthy.
  destruct (bool_decide (str ∈ ["1"; "t"; "T"; "true"; "TRUE"; "True"]))
    eqn:Ht.
  - apply bool_decide_eq_true in Ht. by split.
  - apply bool_decide_eq_false in Ht.
    split; [|done]. by destruct (bool_decide _).
Qed.

Lemma getEnv_value env key defaultValue :
  config.getEnv env key defaultValue
  = if decide (config.Getenv env key = "") then defaultValue
    else config.Getenv env key.
Proof.
  unfold config.getEnv. cbv zeta.
  destruct (decide (config.Getenv env key = "")) as [Hv|Hv].
  - by rewrite (bool_decide_eq_true_2 _ Hv).
  - by rewrite (bool_decide_eq_false_2 _ Hv).
Qed.

(** X27. [Load] reads a variable that is set to the empty string as one
    that is not set.  A platform is enabled when its flag is unset or is
    one of the six spellings [ParseBool] reads as [true]; any other value,
    "yes" or "on" for instance, disables it without a word.  The API is
    enabled only by one of the six spellings.  The API port is 8080 when
    [API_PORT] is unset and 0 when it is set to what is not a number, and
    the database path is never empty. *)
Theorem Load_flags env :
  let cfg := config.Load env in
  (config.EnableTelegram cfg = true
   ↔ config.Getenv env "ENABLE_TELEGRAM" ∈ "" :: truthy)
  ∧ (config.EnableDiscord cfg = true
     ↔ config.Getenv env "ENABLE_DISCORD" ∈ "" :: truthy)
  ∧ (config.APIEnable cfg = true ↔ config.Getenv env "API_ENABLE" ∈ truthy)
  ∧ (config.Getenv env "API_PORT" = "" → config.APIPort cfg = 8080)
  ∧ (config.Getenv env "API_PORT" ≠ "" →
     (strconv.Atoi (config.Getenv env "API_PORT")).2 = Some strconv.ErrSyntax →
     config.APIPort cfg = 0)
  ∧ config.DatabasePath cfg ≠ ""
  ∧ (config.Getenv env "TELEGRAM_BOT_TOKEN" = ""
     ↔ config.TelegramBotToken cfg = "").
Proof.
  cbv zeta. unfold config.Load. cbn.
  assert (Hflag : ∀ key,
    (strconv.ParseBool (config.getEnv env key "true")).1 = true
    ↔ config.Getenv env key ∈ "" :: truthy).
  { intros key. rewrite ParseBool_true, getEnv_value.
    destruct (decide (config.Getenv env key = "")) as [->|Hv].
    - split; [by left|]. intros _. by apply (bool_decide_unpack _).
    - rewrite elem_of_cons. split; [by right|by intros [?|?]]. }
  split; [apply Hflag|]. split; [apply Hflag|]. split.
  { rewrite ParseBool_true, getEnv_value.
    destruct (decide (config.Getenv env "API_ENABLE" = "")) as [->|Hv]; [|done].
    split; intros H; exfalso; revert H; by apply (bool_decide_unpack _). }
  split.
  { intros Hp. rewrite getEnv_value, decide_True by done. reflexivity. }
  split.
  { intros Hp Hsyn. rewrite getEnv_value, decide_False by done.
    unfold strconv.Atoi, strconv.ParseInt in *.
    destruct (config.Getenv env "API_PORT") as [|c rest]; [done|].
    cbv zeta in *.
    destruct (strconv.ParseUint _) as [un [[|]|]]; [done| |].
    - revert Hsyn. by repeat destruct (_ && _).
    - revert Hsyn. by repeat destruct (_ && _). }
  split.
  { rewrite getEnv_value. by destruct (decide _). }
  rewrite getEnv_value.
  by destruct (decide (config.Getenv env "TELEGRAM_BOT_TOKEN" = "")).
Qed.

(** X28. The display names package [telegram] keeps: a name stored for a
    user is the one read back, an empty name or identifier is not stored,
    and a user without a name is shown as "User" followed by the
    identifier.  No name kept is empty, so the lookup never yields the
    empty string and the closure [main] builds hands every name on to the
    core. *)
Theorem telegram_display_names userID username userMappings u :
  let stored := telegram.storeUserMapping userID username userMappings in
  (userID ≠ "" → username ≠ "" →
   telegram.GetUserDisplayName userID stored = username)
  ∧ (u ≠ userID →
     telegram.GetUserDisplayName u stored
     = telegram.GetUserDisplayName u userMappings)
  ∧ (userID = "" ∨ username = "" → stored = userMappings)
  ∧ (userMappings !! u = None →
     telegram.GetUserDisplayName u userMappings = "User" +:+ u)
  ∧ named ∅
  ∧ (named userMappings →
     named stored ∧ telegram.GetUserDisplayName u userMappings ≠ "").
Proof.
  cbv zeta.
  unfold telegram.storeUserMapping, telegram.GetUserDisplayName,
    telegram.getUserDisplayName.
  split.
  { intros Hu Hn.
    rewrite (bool_decide_eq_false_2 _ Hu), (bool_decide_eq_false_2 _ Hn).
    cbn. by rewrite lookup_insert_eq. }
  split.
  { intros Hne. destruct (_ && _); [|done]. by rewrite lookup_insert_ne. }
  split.
  { intros [->| ->]; cbn; [by rewrite andb_false_r|done]. }
  split; [by intros ->|].
  split; [intros ? ? H; by rewrite lookup_empty in H|].
  intros Hnamed. split.
  - destruct (decide (username = "")) as [->|Hn]; [done|].
    rewrite (bool_decide_eq_false_2 _ Hn).
    destruct (bool_decide (userID = "")); [done|]. cbn.
    intros v name. destruct (decide (userID = v)) as [->|Hv].
    + rewrite lookup_insert_eq. by intros [= <-].
    + rewrite lookup_insert_ne by done. apply Hnamed.
  - destruct (userMappings !! u) as [name|] eqn:Hl; [by apply (Hnamed u)|done].
Qed.
